(** * A shallow embedding of the browser agent (agent-go/main.go)

    The Go program drives a browser worker from the decisions of an LLM.
    This development embeds the pure parts (string helpers, the listing
    extractor, decision normalisation, the observation fingerprint) as Rocq
    functions, and the effectful parts (worker start-up, the control loop of
    [main]) as functions from the answers of the outside world to a trace of
    events and an outcome.

    Go strings are byte sequences: they are modelled by [string], whose
    characters are bytes, and a literal such as "найдено" stands for its UTF-8
    encoding, exactly as in the Go source.  Go's [int] is modelled by [Z]. *)

From Stdlib Require Import ZArith List Ascii String Bool Lia.
From Stdlib Require Import DecimalString DecimalZ DecimalPos.
From stdpp Require Import gmap strings list fin_maps.

Local Open Scope string_scope.

(** ** What the model takes from the Go runtime

    Two library tables are not part of the repository: the Unicode lower-case
    mapping used by [strings.ToLower], and the float parser of [strconv].
    The embedding is parametric in them. *)
Class GoRuntime := {
  (** [unicode.ToLower] on code points *)
  unicode_ToLower : Z → Z;
  (** [strconv.ParseFloat(s, 64)] followed by the conversion [int(f)];
      [None] when the parser reports an error *)
  strconv_ParseFloat_int : string → option Z
}.

(** ** Bytes and UTF-8 (package unicode/utf8) *)
Module utf8.

Definition byte_val (c : ascii) : Z := Z.of_N (N_of_ascii c).
Definition byte_of (z : Z) : ascii := ascii_of_N (Z.to_N z).

Definition RuneError : Z := 65533.
Definition RuneSelf : Z := 128.
Definition MaxRune : Z := 1114111.

Definition is_cont (b : Z) : bool := (128 <=? b)%Z && (b <=? 191)%Z.

(** [utf8.DecodeRuneInString]: the first code point of [s] and its width in
    bytes; an invalid or truncated encoding yields [(RuneError, 1)], the empty
    string [(RuneError, 0)]. *)
Definition DecodeRuneInString (s : string) : Z * nat :=
  match s with
  | EmptyString => (RuneError, 0)
  | String c0 s1 =>
    let b0 := byte_val c0 in
    if (b0 <? 128)%Z then (b0, 1)
    else if (b0 <? 194)%Z then (RuneError, 1)
    else if (b0 <? 224)%Z then
      match s1 with
      | String c1 _ =>
        let b1 := byte_val c1 in
        if is_cont b1 then (Z.lor (Z.shiftl (Z.land b0 31) 6) (Z.land b1 63), 2)
        else (RuneError, 1)
      | _ => (RuneError, 1)
      end
    else if (b0 <? 240)%Z then
      match s1 with
      | String c1 (String c2 _) =>
        let b1 := byte_val c1 in
        let b2 := byte_val c2 in
        let lo := if (b0 =? 224)%Z then 160%Z else 128%Z in
        let hi := if (b0 =? 237)%Z then 159%Z else 191%Z in
        if (lo <=? b1)%Z && (b1 <=? hi)%Z && is_cont b2 then
          (Z.lor (Z.lor (Z.shiftl (Z.land b0 15) 12) (Z.shiftl (Z.land b1 63) 6))
                 (Z.land b2 63), 3)
        else (RuneError, 1)
      | _ => (RuneError, 1)
      end
    else if (b0 <? 245)%Z then
      match s1 with
      | String c1 (String c2 (String c3 _)) =>
        let b1 := byte_val c1 in
        let b2 := byte_val c2 in
        let b3 := byte_val c3 in
        let lo := if (b0 =? 240)%Z then 144%Z else 128%Z in
        let hi := if (b0 =? 244)%Z then 143%Z else 191%Z in
        if (lo <=? b1)%Z && (b1 <=? hi)%Z && is_cont b2 && is_cont b3 then
          (Z.lor (Z.lor (Z.lor (Z.shiftl (Z.land b0 7) 18) (Z.shiftl (Z.land b1 63) 12))
                        (Z.shiftl (Z.land b2 63) 6))
                 (Z.land b3 63), 4)
        else (RuneError, 1)
      | _ => (RuneError, 1)
      end
    else (RuneError, 1)
  end.

(** [utf8.AppendRune] on the empty buffer: the encoding of a code point;
    surrogates and values outside the Unicode range encode [RuneError]. *)
Definition EncodeRune (r : Z) : string :=
  let enc3 (x : Z) :=
    String (byte_of (Z.lor 224 (Z.shiftr x 12)))
      (String (byte_of (Z.lor 128 (Z.land (Z.shiftr x 6) 63)))
        (String (byte_of (Z.lor 128 (Z.land x 63))) EmptyString)) in
  if (r <? 0)%Z then enc3 RuneError
  else if (r <=? 127)%Z then String (byte_of r) EmptyString
  else if (r <=? 2047)%Z then
    String (byte_of (Z.lor 192 (Z.shiftr r 6)))
      (String (byte_of (Z.lor 128 (Z.land r 63))) EmptyString)
  else if (MaxRune <? r)%Z || ((55296 <=? r)%Z && (r <=? 57343)%Z) then enc3 RuneError
  else if (r <=? 65535)%Z then enc3 r
  else
    String (byte_of (Z.lor 240 (Z.shiftr r 18)))
      (String (byte_of (Z.lor 128 (Z.land (Z.shiftr r 12) 63)))
        (String (byte_of (Z.lor 128 (Z.land (Z.shiftr r 6) 63)))
          (String (byte_of (Z.lor 128 (Z.land r 63))) EmptyString))).

(** The decoding of a whole string, as a [range] loop over it or the
    conversion [[]rune(s)] visits it: each code point with the bytes it was
    read from.  [skip] counts the bytes of the current code point that are
    still to be passed over. *)
Fixpoint runes_from (skip : nat) (s : string) : list (Z * string) :=
  match s with
  | EmptyString => []
  | String _ s' =>
    match skip with
    | S k => runes_from k s'
    | O =>
      let '(r, n) := DecodeRuneInString s in
      (r, substring 0 n s) :: runes_from (Nat.pred n) s'
    end
  end.

Definition runes (s : string) : list (Z * string) := runes_from 0 s.

(** [len([]rune(s))] *)
Definition RuneCountInString (s : string) : Z := Z.of_nat (length (runes s)).

End utf8.

(** ** Package unicode *)
Module unicode.

(** [unicode.IsSpace] *)
Definition IsSpace (r : Z) : bool :=
  ((9 <=? r)%Z && (r <=? 13)%Z) || (r =? 32)%Z || (r =? 133)%Z || (r =? 160)%Z
  || (r =? 5760)%Z || ((8192 <=? r)%Z && (r <=? 8202)%Z)
  || (r =? 8232)%Z || (r =? 8233)%Z || (r =? 8239)%Z || (r =? 8287)%Z
  || (r =? 12288)%Z.

End unicode.

(** ** Package strings *)
Module strings.

Definition len (s : string) : Z := Z.of_nat (String.length s).

Fixpoint index_from (i : Z) (s sub : string) : Z :=
  if String.prefix sub s then i
  else match s with
       | EmptyString => (-1)%Z
       | String _ s' => index_from (i + 1)%Z s' sub
       end.

(** [strings.Index]: byte offset of the first occurrence, or -1 *)
Definition Index (s sub : string) : Z := index_from 0 s sub.

(** [strings.Contains] *)
Definition Contains (s sub : string) : bool := (0 <=? Index s sub)%Z.

(** [strings.ReplaceAll] for a non-empty [old] (every call site of the
    program passes a non-empty literal): occurrences are replaced from left
    to right without overlap. *)
Fixpoint replace_from (skip : nat) (s old new : string) : string :=
  match s with
  | EmptyString => EmptyString
  | String c s' =>
    match skip with
    | S k => replace_from k s' old new
    | O =>
      if String.prefix old s
      then new +:+ replace_from (Nat.pred (String.length old)) s' old new
      else String c (replace_from 0 s' old new)
    end
  end.

Definition ReplaceAll (s old new : string) : string :=
  match old with
  | EmptyString => s
  | _ => replace_from 0 s old new
  end.

(** [strings.Split] for a non-empty separator.  [cur] is the piece being
    read, in reverse. *)
Fixpoint split_from (skip : nat) (cur : list ascii) (s sep : string) : list string :=
  match s with
  | EmptyString => [string_of_list_ascii (rev cur)]
  | String c s' =>
    match skip with
    | S k => split_from k cur s' sep
    | O =>
      if String.prefix sep s
      then string_of_list_ascii (rev cur)
           :: split_from (Nat.pred (String.length sep)) [] s' sep
      else split_from 0 (c :: cur) s' sep
    end
  end.

Definition Split (s sep : string) : list string :=
  match sep with
  | EmptyString => [s]
  | _ => split_from 0 [] s sep
  end.

Definition concat_chunks (l : list (Z * string)) : string :=
  fold_right (fun p acc => snd p +:+ acc) EmptyString l.

Fixpoint drop_spaces (l : list (Z * string)) : list (Z * string) :=
  match l with
  | (r, _) :: l' => if unicode.IsSpace r then drop_spaces l' else l
  | [] => []
  end.

(** [strings.TrimSpace]: leading and trailing white space (as code points)
    removed, the bytes in between untouched. *)
Definition TrimSpace (s : string) : string :=
  concat_chunks (rev (drop_spaces (rev (drop_spaces (utf8.runes s))))).

Definition is_ascii (s : string) : bool :=
  forallb (fun c => (utf8.byte_val c <? utf8.RuneSelf)%Z) (list_ascii_of_string s).

Definition ascii_lower (c : ascii) : ascii :=
  let b := utf8.byte_val c in
  if (65 <=? b)%Z && (b <=? 90)%Z then utf8.byte_of (b + 32) else c.

Fixpoint map_bytes (f : ascii → ascii) (s : string) : string :=
  match s with
  | EmptyString => EmptyString
  | String c s' => String (f c) (map_bytes f s')
  end.

(** [strings.Map]: every code point is replaced by the encoding of its
    image (dropped when the image is negative); an invalid byte is read as
    [RuneError]. *)
Definition Map (mapping : Z → Z) (s : string) : string :=
  fold_right
    (fun p acc => let r := mapping (fst p) in
                  if (r <? 0)%Z then acc else utf8.EncodeRune r +:+ acc)
    EmptyString (utf8.runes s).

(** [strings.ToLower]: pure ASCII input is lowered bytewise, anything else
    goes through [Map unicode.ToLower]. *)
Definition ToLower `{GoRuntime} (s : string) : string :=
  if is_ascii s then map_bytes ascii_lower s else Map unicode_ToLower s.

(** The slice expression [s[i:]]: a run-time panic ([None]) when [i] is
    outside [0 .. len(s)]. *)
Definition slice_from (s : string) (i : Z) : option string :=
  if (0 <=? i)%Z && (i <=? len s)%Z
  then Some (substring (Z.to_nat i) (String.length s - Z.to_nat i) s)
  else None.

(** The slice expression [s[:n]] for [0 <= n <= len(s)] *)
Definition slice_to (s : string) (n : Z) : string := substring 0 (Z.to_nat n) s.

End strings.

(** ** The listing extractor *)

(** type Listing *)
Record Listing := { Title : string; Company : string }.

Definition NBSP : string := String "194"%char (String "160"%char EmptyString).
Definition LF : string := String "010"%char EmptyString.
Definition CRLF : string := String "013"%char LF.

(** The loop [for strings.Contains(s, "  ") { s = strings.ReplaceAll(s, "  ", " ") }].
    Every round shortens [s], so [fuel = len(s)] rounds are enough
    (lemma [collapse_spaces_done] below). *)
Fixpoint collapse_spaces (fuel : nat) (s : string) : string :=
  match fuel with
  | O => s
  | S fuel' =>
    if strings.Contains s "  "
    then collapse_spaces fuel' (strings.ReplaceAll s "  " " ")
    else s
  end.

(** func normalizeSpaces *)
Definition normalizeSpaces (s : string) : string :=
  let s := strings.ReplaceAll s NBSP " " in
  let s := strings.TrimSpace s in
  collapse_spaces (String.length s) s.

(** [for _, b := range words { if strings.Contains(low, b) { ... } }] *)
Definition contains_any (low : string) (words : list string) : bool :=
  existsb (strings.Contains low) words.

Definition company_badTitle : list string :=
  [ "активных вакансий"; "сейчас смотрят"; "актуальные вакансии";
    "все вакансии"; "вакансии компании" ].

Definition company_bad : list string :=
  [ "руб"; "₽"; "kzt"; "тенге"; "₸";
    "сегодня"; "вчера"; "отклик"; "показать"; "сортировка";
    "вакансии"; "вакансия"; "похожие"; "результаты"; "найдено";
    "удаленно"; "удалённо"; "remote";
    "опыт"; "график"; "занятость"; "формат работы"; "удаленная работа";
    "удалённая работа"; "полная занятость"; "частичная занятость";
    "выплаты"; "зарплата"; "з/п"; "оклад"; "доход"; "на руки"; "gross"; "net";
    "в месяц"; "в неделю"; "в день"; "за смену"; "за проект";
    "два раза в месяц"; "еженедельно"; "ежедневно"; "график"; "занятость";
    "формат"; "удобный график"; "полная занятость"; "частичная занятость";
    "проектная работа";
    "стажировка"; "адрес"; "метро"; "город"; "на карте"; "сменный"; "вахта";
    "подработка" ].

(** func isLikelyCompany *)
Definition isLikelyCompany `{GoRuntime} (s : string) : bool :=
  let s := normalizeSpaces s in
  if String.eqb s "" then false
  else
    let low := strings.ToLower s in
    if contains_any low company_badTitle then false
    else if contains_any low company_bad then false
    else if (60 <? utf8.RuneCountInString s)%Z then false
    else true.

Definition title_badTitle : list string :=
  [ "найдено"; "вакансий"; "по соответствию";
    "сохранить поиск"; "вакансии на карте";
    "исключить слова"; "уровень дохода"; "опыт" ].

Definition mustHaveRole : list string :=
  [ "engineer"; "инженер"; "developer"; "разработчик"; "scientist"; "аналитик";
    "data engineer" ].

Definition title_bad : list string :=
  [ "войти"; "регистрация"; "резюме"; "отклик"; "подписаться";
    "показать"; "фильтр"; "сортировка" ].

(** func isLikelyTitle *)
Definition isLikelyTitle `{GoRuntime} (s : string) : bool :=
  let s := normalizeSpaces s in
  if String.eqb s "" then false
  else
    let low := strings.ToLower s in
    if contains_any low title_badTitle then false
    else if negb (strings.Contains low "engineer" || strings.Contains low "инженер")
    then false
    else if negb (contains_any low mustHaveRole) then false
    else if contains_any low title_bad then false
    else
      let n := utf8.RuneCountInString s in
      (4 <=? n)%Z && (n <=? 90)%Z.

(** The cleaning loop over [linesRaw]: normalise, drop empty lines and lines
    of more than 120 code points. *)
Fixpoint clean_lines (linesRaw : list string) : list string :=
  match linesRaw with
  | [] => []
  | l :: rest =>
    let l := normalizeSpaces l in
    if String.eqb l "" then clean_lines rest
    else if (120 <? utf8.RuneCountInString l)%Z then clean_lines rest
    else l :: clean_lines rest
  end.

(** The inner loop [for j := i + 1; j < len(lines) && j <= i+6; j++]:
    [window] holds the lines [i+1 .. i+6]; the result is [""] when no line
    of the window qualifies. *)
Fixpoint find_company `{GoRuntime} (window : list string) : string :=
  match window with
  | [] => ""
  | l :: rest => if isLikelyCompany l then l else find_company rest
  end.

(** The loop [for i := 0; i < len(lines); i++]: [lines] is the part of the
    slice from index [i] on, [found] and [seen] are the variables of the
    same name. *)
Fixpoint extract_loop `{GoRuntime} (want : Z) (lines : list string)
    (found : list Listing) (seen : gset string) : list Listing :=
  match lines with
  | [] => found
  | title :: rest =>
    let lowTitle := strings.ToLower title in
    if contains_any lowTitle title_badTitle then extract_loop want rest found seen
    else if negb (isLikelyTitle title) then extract_loop want rest found seen
    else
      let company := find_company (firstn 6 rest) in
      if String.eqb company "" then extract_loop want rest found seen
      else
        let key := strings.ToLower title +:+ "|" +:+ strings.ToLower company in
        if decide (key ∈ seen) then extract_loop want rest found seen
        else
          let seen := {[ key ]} ∪ seen in
          let found := (found ++ [ {| Title := title; Company := company |} ])%list in
          if (want <=? Z.of_nat (length found))%Z then found
          else extract_loop want rest found seen
  end.

(** The composite key under which a pair is remembered in [seen] *)
Definition listing_key `{GoRuntime} (l : Listing) : string :=
  strings.ToLower (Title l) +:+ "|" +:+ strings.ToLower (Company l).

(** The largest capacity [make([]Listing, 0, want)] accepts.  A [Listing] is
    two string headers, 32 bytes on a 64-bit platform, and the run time
    refuses ([panic: makeslice: cap out of range]) a slice whose bytes
    overflow or exceed [maxAlloc], which is 2^48 there. *)
Definition max_Listing_cap : Z := 2 ^ 43.

(** func ExtractListingsFromVisibleText.  [None] stands for a run-time
    panic: of the slice expression [visible[idx:]] when the offset found in
    the lower-cased text lies beyond the end of the text itself, or, after
    that, of [make([]Listing, 0, want)] when [want] is negative or larger
    than [max_Listing_cap].  A capacity within these bounds is taken to be
    allocated: running out of memory is a fatal error of the run time, no
    panic, and outside this model. *)
Definition ExtractListingsFromVisibleText `{GoRuntime} (visible : string) (want : Z)
    : option (list Listing) :=
  let visible := strings.ReplaceAll visible CRLF LF in
  let lower := strings.ToLower visible in
  let idx := strings.Index lower "найдено" in
  match (if (0 <=? idx)%Z then strings.slice_from visible idx else Some visible) with
  | None => None
  | Some visible =>
    let linesRaw := strings.Split visible LF in
    let lines := clean_lines linesRaw in
    if (want <? 0)%Z || (max_Listing_cap <? want)%Z then None
    else Some (extract_loop want lines [] ∅)
  end.

(** The lower-case table restricted to the alphabets the program's word
    lists are written in (Basic Latin, Latin-1, Cyrillic), with two of
    Unicode's entries whose encodings change length: U+0130 to U+0069 and
    U+023A to U+2C65. *)
Definition basic_ToLower (r : Z) : Z :=
  if (65 <=? r)%Z && (r <=? 90)%Z then (r + 32)%Z
  else if (192 <=? r)%Z && (r <=? 222)%Z && negb (r =? 215)%Z then (r + 32)%Z
  else if (1024 <=? r)%Z && (r <=? 1039)%Z then (r + 80)%Z
  else if (1040 <=? r)%Z && (r <=? 1071)%Z then (r + 32)%Z
  else if (r =? 304)%Z then 105%Z
  else if (r =? 570)%Z then 11365%Z
  else r.

(** A sample of [strconv.ParseFloat] followed by [int], for the examples:
    it reads the decimal numerals without exponent (an optional sign, digits
    and an optional fraction, which is cut off) and refuses everything else,
    also the other forms that strconv accepts (exponents, hexadecimal
    numerals, inf, nan).  The theorems are stated for every parser. *)
Definition is_digit (c : ascii) : bool :=
  (48 <=? utf8.byte_val c)%Z && (utf8.byte_val c <=? 57)%Z.

Fixpoint read_digits (acc : Z) (seen_digit : bool) (s : string) : option Z :=
  match s with
  | EmptyString => if seen_digit then Some acc else None
  | String c s' =>
    let b := utf8.byte_val c in
    if is_digit c then read_digits (acc * 10 + (b - 48))%Z true s'
    else if (b =? 46)%Z
         then (if forallb is_digit (list_ascii_of_string s')
                  && (seen_digit || negb (String.eqb s' ""))
               then Some acc else None)
         else None
  end.

Definition read_decimal (s : string) : option Z :=
  match s with
  | String "+" r => read_digits 0 false r
  | String "-" r => option_map Z.opp (read_digits 0 false r)
  | _ => read_digits 0 false s
  end.

Definition basic_runtime : GoRuntime :=
  {| unicode_ToLower := basic_ToLower;
     strconv_ParseFloat_int := read_decimal |}.

(** The code points on which the restricted table is Unicode's: Basic
    Latin and U+0400 to U+045F. *)
Definition in_basic_range (r : Z) : bool :=
  ((0 <=? r)%Z && (r <? 128)%Z) || ((1024 <=? r)%Z && (r <=? 1119)%Z).

Definition runes_in_basic_range (s : string) : bool :=
  forallb (fun p => in_basic_range (fst p)) (utf8.runes s).

(** Two runtimes lower a line alike, as far as the loop over the lines
    reads it: the line itself and its normal form. *)
Definition lowers_alike (rt1 rt2 : GoRuntime) (l : string) : Prop :=
  @strings.ToLower rt1 l = @strings.ToLower rt2 l
  ∧ @strings.ToLower rt1 (normalizeSpaces l) = @strings.ToLower rt2 (normalizeSpaces l).

(** Fifteen letters U+023A in front of the marker word *)
Definition growing_text : string := "ȺȺȺȺȺȺȺȺȺȺȺȺȺȺȺнайдено".

Definition spec_text : string :=
  "Найдено 5" +:+ LF +:+ "AI Engineer" +:+ LF +:+ "Acme Inc" +:+ LF +:+
  "нерелевантная строка" +:+ LF +:+ "Data Engineer" +:+ LF +:+ "Beta LLC".

(** ** JSON values and [encoding/json]

    A parsed JSON text.  An object keeps its members in the order of the
    text, duplicates included; a number keeps its literal. *)
#[warnings="-register-all"]
Inductive json :=
| JNull
| JBool (b : bool)
| JNumber (lit : string)
| JString (s : string)
| JArray (items : list json)
| JObject (members : list (string * json)).

(** The value an object decodes to in a [map[string]interface{}]: of two
    members with the same key the later one stays. *)
Definition members_to_map (members : list (string * json)) : gmap string json :=
  list_to_map (rev members).

(** A type assertion [v.(string)] on a looked-up entry *)
Definition as_string (v : option json) : option string :=
  match v with
  | Some (JString s) => Some s
  | _ => None
  end.

(** A type assertion [v.(map[string]interface{})] on a looked-up entry *)
Definition as_object (v : option json) : option (gmap string json) :=
  match v with
  | Some (JObject members) => Some (members_to_map members)
  | _ => None
  end.

(** The first result of [m[k].(string)]: the empty string when the
    assertion fails *)
Definition string_at (m : gmap string json) (k : string) : string :=
  default "" (as_string (m !! k)).

(** Member names are matched with struct fields without regard to case.
    For the field names of this program (ASCII, some with the letter s)
    that is: after lowering the ASCII letters and reading U+017F as s and
    U+212A as k, the name equals the field name. *)
Definition LONG_S : string := String "197"%char (String "191"%char EmptyString).
Definition KELVIN : string :=
  String "226"%char (String "132"%char (String "170"%char EmptyString)).

Fixpoint fold_key_from (skip : nat) (s : string) : string :=
  match s with
  | EmptyString => EmptyString
  | String c s' =>
    match skip with
    | S k => fold_key_from k s'
    | O =>
      if String.prefix LONG_S s then String "s"%char (fold_key_from 1 s')
      else if String.prefix KELVIN s then String "k"%char (fold_key_from 2 s')
      else String (strings.ascii_lower c) (fold_key_from 0 s')
    end
  end.

Definition key_matches (field key : string) : bool :=
  String.eqb (fold_key_from 0 key) field.

(** [json.Unmarshal(raw, &s)] for a fresh [var s string]: a JSON string is
    stored, [null] leaves [s] as it is and reports no error, anything else is
    an error ([None]). *)
Definition unmarshal_string (raw : json) : option string :=
  match raw with
  | JString s => Some s
  | JNull => Some ""
  | _ => None
  end.

(** Decoding into a string field that currently holds [old] *)
Definition decode_string_field (old : string) (v : json) : option string :=
  match v with
  | JString s => Some s
  | JNull => Some old
  | _ => None
  end.

(** type JobItem *)
Record JobItem := { JobTitle : string; CompanyName : string }.

Definition decode_JobItem_member (acc : option JobItem) (kv : string * json)
    : option JobItem :=
  match acc with
  | None => None
  | Some it =>
    if key_matches "job_title" (fst kv) then
      match decode_string_field (JobTitle it) (snd kv) with
      | Some s => Some {| JobTitle := s; CompanyName := CompanyName it |}
      | None => None
      end
    else if key_matches "company_name" (fst kv) then
      match decode_string_field (CompanyName it) (snd kv) with
      | Some s => Some {| JobTitle := JobTitle it; CompanyName := s |}
      | None => None
      end
    else Some it
  end.

(** Decoding one array element into a zero [JobItem]: an object fills the
    fields its members name, [null] changes nothing, any other value is a
    type error. *)
Definition decode_JobItem (v : json) : option JobItem :=
  match v with
  | JObject members =>
    fold_left decode_JobItem_member members
              (Some {| JobTitle := ""; CompanyName := "" |})
  | JNull => Some {| JobTitle := ""; CompanyName := "" |}
  | _ => None
  end.

Fixpoint decode_JobItems (items : list json) : option (list JobItem) :=
  match items with
  | [] => Some []
  | v :: rest =>
    match decode_JobItem v, decode_JobItems rest with
    | Some it, Some its => Some (it :: its)
    | _, _ => None
    end
  end.

(** Decoding one array element into a [JobItem] that holds [old]: the
    fields the members name are overwritten, the others are kept. *)
Definition decode_JobItem_into (old : JobItem) (v : json) : option JobItem :=
  match v with
  | JObject members => fold_left decode_JobItem_member members (Some old)
  | JNull => Some old
  | _ => None
  end.

(** Decoding the elements of an array into a slice whose backing array
    holds [backing]: element [i] is decoded into the value found at index
    [i], and into a zero value behind the end of [backing] (the decoder
    lengthens the slice without clearing, and memory it has to allocate is
    zeroed). *)
Fixpoint decode_JobItems_into (backing : list JobItem) (items : list json)
    : option (list JobItem) :=
  match items with
  | [] => Some []
  | v :: rest =>
    match decode_JobItem_into
            (default {| JobTitle := ""; CompanyName := "" |} (head backing)) v,
          decode_JobItems_into (tail backing) rest with
    | Some it, Some its => Some (it :: its)
    | _, _ => None
    end
  end.

(** [json.Unmarshal(raw, &arr)] for a fresh [var arr []JobItem] *)
Definition unmarshal_JobItems (raw : json) : option (list JobItem) :=
  match raw with
  | JArray items => decode_JobItems items
  | JNull => Some []
  | _ => None
  end.

(** [json.Unmarshal(raw, &m)] for a fresh [var m map[string]interface{}];
    a nil map and an empty one read alike and are both [∅] here. *)
Definition unmarshal_map (raw : json) : option (gmap string json) :=
  match raw with
  | JObject members => Some (members_to_map members)
  | JNull => Some ∅
  | _ => None
  end.

(** ** Decisions *)

(** type AgentAction.  [Arguments = None] is the nil map; [SummaryRaw = None]
    is the empty [json.RawMessage] of a text without a summary member, and
    [Some v] the raw message whose text denotes [v]. *)
Record AgentAction := {
  Action : string;
  Tool : string;
  Arguments : option (gmap string json);
  Question : string;
  SummaryRaw : option json;
  Results : list JobItem;
  Summary : string
}.

Definition zero_action : AgentAction :=
  {| Action := ""; Tool := ""; Arguments := None; Question := "";
     SummaryRaw := None; Results := []; Summary := "" |}.

Definition set_Action (a : AgentAction) (x : string) : AgentAction :=
  {| Action := x; Tool := Tool a; Arguments := Arguments a; Question := Question a;
     SummaryRaw := SummaryRaw a; Results := Results a; Summary := Summary a |}.
Definition set_Tool (a : AgentAction) (x : string) : AgentAction :=
  {| Action := Action a; Tool := x; Arguments := Arguments a; Question := Question a;
     SummaryRaw := SummaryRaw a; Results := Results a; Summary := Summary a |}.
Definition set_Arguments (a : AgentAction) (x : option (gmap string json)) : AgentAction :=
  {| Action := Action a; Tool := Tool a; Arguments := x; Question := Question a;
     SummaryRaw := SummaryRaw a; Results := Results a; Summary := Summary a |}.
Definition set_Question (a : AgentAction) (x : string) : AgentAction :=
  {| Action := Action a; Tool := Tool a; Arguments := Arguments a; Question := x;
     SummaryRaw := SummaryRaw a; Results := Results a; Summary := Summary a |}.
Definition set_SummaryRaw (a : AgentAction) (x : option json) : AgentAction :=
  {| Action := Action a; Tool := Tool a; Arguments := Arguments a; Question := Question a;
     SummaryRaw := x; Results := Results a; Summary := Summary a |}.
Definition set_Results (a : AgentAction) (x : list JobItem) : AgentAction :=
  {| Action := Action a; Tool := Tool a; Arguments := Arguments a; Question := Question a;
     SummaryRaw := SummaryRaw a; Results := x; Summary := Summary a |}.
Definition set_Summary (a : AgentAction) (x : string) : AgentAction :=
  {| Action := Action a; Tool := Tool a; Arguments := Arguments a; Question := Question a;
     SummaryRaw := SummaryRaw a; Results := Results a; Summary := x |}.

(** Storing the members of a JSON object into a map, one by one *)
Definition store_members (m : gmap string json) (members : list (string * json))
    : gmap string json :=
  fold_left (fun acc kv => <[ fst kv := snd kv ]> acc) members m.

(** A results member decoded into the field [Results], which holds
    [results] in a backing array that goes on with [spare] (what an earlier,
    longer results member of the same text left behind the end of the
    slice).  An array is decoded element by element into what is there and
    the slice is cut to the length of the array; an empty array gives a new
    empty slice and [null] the nil slice, either without backing array.  The
    result is the new slice and what lies behind it. *)
Definition decode_results (results spare : list JobItem) (v : json)
    : option (list JobItem * list JobItem) :=
  match v with
  | JArray [] => Some ([], [])
  | JArray items =>
    option_map (fun arr => (arr, drop (length items) (results ++ spare)))
               (decode_JobItems_into (results ++ spare) items)
  | JNull => Some ([], [])
  | _ => None
  end.

(** One member of the decision object decoded into the struct; the second
    component is what lies behind the end of [Results] in its backing
    array.  The field [Summary] carries the tag [json:"-"] and is never
    written. *)
Definition decode_action_member (acc : option (AgentAction * list JobItem))
    (kv : string * json) : option (AgentAction * list JobItem) :=
  match acc with
  | None => None
  | Some (a, spare) =>
    let k := fst kv in
    let v := snd kv in
    if key_matches "action" k then
      option_map (fun s => (set_Action a s, spare)) (decode_string_field (Action a) v)
    else if key_matches "tool" k then
      option_map (fun s => (set_Tool a s, spare)) (decode_string_field (Tool a) v)
    else if key_matches "arguments" k then
      match v with
      | JObject members =>
        Some (set_Arguments a (Some (store_members (default ∅ (Arguments a)) members)),
              spare)
      | JNull => Some (set_Arguments a None, spare)
      | _ => None
      end
    else if key_matches "question" k then
      option_map (fun s => (set_Question a s, spare))
                 (decode_string_field (Question a) v)
    else if key_matches "summary" k then
      Some (set_SummaryRaw a (Some v), spare)
    else if key_matches "results" k then
      option_map (fun r => (set_Results a (fst r), snd r))
                 (decode_results (Results a) spare v)
    else Some (a, spare)
  end.

(** [json.Unmarshal([]byte(raw), &action)] for a fresh [var action
    AgentAction], on the value the text denotes; [None] is an error. *)
Definition unmarshal_AgentAction (raw : json) : option AgentAction :=
  match raw with
  | JObject members =>
    option_map fst (fold_left decode_action_member members (Some (zero_action, [])))
  | JNull => Some zero_action
  | _ => None
  end.

Definition toolNames : list string :=
  [ "navigate"; "click"; "type"; "scroll"; "wait"; "observe"; "press_enter" ].

(** The lookup [toolNames[name]] *)
Definition is_toolName (name : string) : bool :=
  existsb (String.eqb name) toolNames.

(** The keys the root-merging loop passes over *)
Definition is_reserved_key (k : string) : bool :=
  String.eqb k "action" || String.eqb k "tool" || String.eqb k "arguments"
  || String.eqb k "args" || String.eqb k "question" || String.eqb k "summary".

(** [for k, v := range args { a.Arguments[k] = v }] *)
Definition merge_args (arguments args : gmap string json) : gmap string json :=
  map_fold (fun k v acc => <[ k := v ]> acc) arguments args.

(** The loop over the root object [m]: reserved keys are passed over and a
    key is stored only when the arguments do not have it yet. *)
Definition merge_root (arguments m : gmap string json) : gmap string json :=
  map_fold (fun k v acc =>
              if is_reserved_key k then acc
              else match acc !! k with
                   | Some _ => acc
                   | None => <[ k := v ]> acc
                   end)
           arguments m.

(** func normalizeAction.  [raw] is the value the raw text denotes, [None]
    when the text is not JSON (then [json.Unmarshal] into [m] fails). *)
Definition normalizeAction (a : AgentAction) (raw : option json) : AgentAction :=
  let a :=
    if is_toolName (Action a) then
      set_Action (if String.eqb (Tool a) "" then set_Tool a (Action a) else a) "tool"
    else a in
  if String.eqb (Action a) "tool" && String.eqb (Tool a) "" then
    match raw ≫= unmarshal_map with
    | Some m =>
      let a := match as_string (m !! "tool") with
               | Some t => set_Tool a t
               | None => a
               end in
      let a := if String.eqb (Tool a) "" then
                 match as_string (m !! "action") with
                 | Some t => if is_toolName t then set_Tool a t else a
                 | None => a
                 end
               else a in
      let arguments := default ∅ (Arguments a) in
      let arguments := match as_object (m !! "args") with
                       | Some args => merge_args arguments args
                       | None => arguments
                       end in
      set_Arguments a (Some (merge_root arguments m))
    | None => a
    end
  else a.

(** [fmt.Sprint] of an integer *)
Definition itoa (z : Z) : string := NilZero.string_of_int (Z.to_int z).

(** func finalizeActionFields *)
Definition finalizeActionFields (a : AgentAction) : AgentAction :=
  match SummaryRaw a with
  | None => a
  | Some raw =>
    match unmarshal_string raw with
    | Some s => set_Summary a s
    | None =>
      match unmarshal_JobItems raw with
      | Some arr =>
        let a := if (length (Results a) =? 0)%nat then set_Results a arr else a in
        set_Summary a ("Found " +:+ itoa (Z.of_nat (length arr)) +:+ " jobs.")
      | None => set_Summary a "Done."
      end
    end
  end.

(** The part of func decideNextAction that follows the parsing of the raw
    text: decode into the struct, normalise, finalise.  [None] is the error
    return. *)
Definition decideNextAction_decoded (raw : json) : option AgentAction :=
  match unmarshal_AgentAction raw with
  | Some a => Some (finalizeActionFields (normalizeAction a (Some raw)))
  | None => None
  end.

(** Following the specification's words, a record-shaped value: a JSON
    object whose members named job_title or company_name hold strings. *)
Definition record_shaped (v : json) : bool :=
  match v with
  | JObject members =>
    forallb (fun kv =>
               if key_matches "job_title" (fst kv) || key_matches "company_name" (fst kv)
               then match snd kv with JString _ => true | _ => false end
               else true)
            members
  | _ => false
  end.

Definition click_with_args : json :=
  JObject [ ("action", JString "tool"); ("tool", JString "click");
            ("args", JObject [ ("element_id", JString "5") ]) ].



Definition finish_null : json :=
  JObject [ ("action", JString "finish"); ("summary", JNull) ].

Definition finish_bare : json :=
  JObject [ ("action", JString "finish") ].

Definition finish_two_jobs : json :=
  JObject [ ("action", JString "finish");
            ("summary", JArray [ JObject [ ("job_title", JString "AI Engineer");
                                           ("company_name", JString "Acme Inc") ];
                                 JObject [ ("job_title", JString "Data Engineer");
                                           ("company_name", JString "Beta LLC") ] ]) ].

(** ** Observations *)

(** func isSearchResultsReady *)
Definition isSearchResultsReady `{GoRuntime} (observation : gmap string json) : bool :=
  let u := string_at observation "url" in
  let uLow := strings.ToLower u in
  if negb (strings.Contains uLow "/search/vacancy") then false
  else if negb (strings.Contains uLow "text=") then false
  else if strings.Contains uLow "text=ai" || strings.Contains uLow "text=ai%20engineer"
          || strings.Contains uLow "ai%20engineer" then true
  else false.

(** func obsSignature.  [len(head) > 300] and [head[:300]] count bytes. *)
Definition obsSignature (obs : gmap string json) : string :=
  let u := string_at obs "url" in
  let t := string_at obs "title" in
  let vt := string_at obs "visible_text" in
  let head := if (300 <? strings.len vt)%Z then strings.slice_to vt 300 else vt in
  u +:+ "|" +:+ t +:+ "|" +:+ head.

(** ** The worker bridge *)

(** type WorkerResp; a nil [Observation] reads like an empty one. *)
Record WorkerResp := {
  Status : string;
  Message : string;
  Observation : gmap string json
}.

(** What the program does to the outside world, in order.  [EvPrint]
    carries a printed line without its final newline; the two formatted
    lines whose layout is fixed by package fmt carry their operands. *)
Inductive Event :=
| EvSpawn
| EvKill
| EvSend (action : string) (args : gmap string json)
| EvReadTask
| EvReadAnswer
| EvSleep (nanoseconds : Z)
| EvPrint (line : string)
| EvPrintAction (a : AgentAction)
| EvPrintWaiting (nanoseconds : Z).

(** What the operating system and the worker answer to func StartPyWorker:
    the errors of [cmd.StdinPipe], [cmd.StdoutPipe] and [cmd.Start], the
    result of reading the first line, and the result of
    [json.Unmarshal([]byte(line), &hello)] on the trimmed line (the decoder's
    error text, or the struct it filled). *)
Record StartInput := {
  stdin_pipe_err : option string;
  stdout_pipe_err : option string;
  start_err : option string;
  hello_line : string + string;
  hello_decoded : string + WorkerResp
}.

(** func StartPyWorker: the error it returns, if any, and what it did. *)
Definition StartPyWorker (inp : StartInput) : option string * list Event :=
  match stdin_pipe_err inp with
  | Some err => (Some err, [])
  | None =>
    match stdout_pipe_err inp with
    | Some err => (Some err, [])
    | None =>
      match start_err inp with
      | Some err => (Some err, [])
      | None =>
        match hello_line inp with
        | inl err => (Some err, [EvSpawn])
        | inr line =>
          let line := strings.TrimSpace line in
          match hello_decoded inp with
          | inl err =>
            (Some ("failed to parse worker hello: " +:+ err +:+ ", line=" +:+ line),
             [EvSpawn])
          | inr hello =>
            if negb (String.eqb (Status hello) "ok")
            then (Some ("worker did not start: " +:+ Message hello), [EvSpawn])
            else (None, [EvSpawn; EvPrint "✅ Python worker started"])
          end
        end
      end
    end
  end.

(** The result of one call of [PyWorker.Send]: an error of writing,
    reading or decoding, or the decoded response. *)
Inductive SendResult :=
| SendError (err : string)
| SendResp (resp : WorkerResp).

(** func PyWorker.Stop: the result of the "exit" command is dropped. *)
Definition Stop : list Event := [EvSend "exit" ∅; EvKill].

(** ** The control loop of func main *)

Definition MaxSteps : Z := 15.
Definition Second : Z := 1000000000.
Definition Millisecond : Z := 1000000.

(** 64-bit two's complement wrap-around of [int] and [time.Duration] *)
Definition wrap64 (z : Z) : Z := ((z + 2 ^ 63) mod 2 ^ 64 - 2 ^ 63)%Z.

(** The local variables of func main that live across iterations *)
Record State := {
  step : Z;
  task : string;
  observation : gmap string json;
  lastAction : string;
  sameActionCount : Z;
  lastObsSig : string;
  stagnantCount : Z;
  searchSubmitted : bool;
  printedListings : bool;
  switchedToMoscow : bool
}.

Definition initial_state (task_line : string) : State :=
  {| step := 1; task := task_line; observation := ∅;
     lastAction := ""; sameActionCount := 0;
     lastObsSig := ""; stagnantCount := 0;
     searchSubmitted := false; printedListings := false;
     switchedToMoscow := false |}.

Definition set_step (st : State) (x : Z) : State :=
  {| step := x; task := task st; observation := observation st;
     lastAction := lastAction st; sameActionCount := sameActionCount st;
     lastObsSig := lastObsSig st; stagnantCount := stagnantCount st;
     searchSubmitted := searchSubmitted st; printedListings := printedListings st;
     switchedToMoscow := switchedToMoscow st |}.
Definition set_task (st : State) (x : string) : State :=
  {| step := step st; task := x; observation := observation st;
     lastAction := lastAction st; sameActionCount := sameActionCount st;
     lastObsSig := lastObsSig st; stagnantCount := stagnantCount st;
     searchSubmitted := searchSubmitted st; printedListings := printedListings st;
     switchedToMoscow := switchedToMoscow st |}.
Definition set_repeat (st : State) (key : string) (count : Z) : State :=
  {| step := step st; task := task st; observation := observation st;
     lastAction := key; sameActionCount := count;
     lastObsSig := lastObsSig st; stagnantCount := stagnantCount st;
     searchSubmitted := searchSubmitted st; printedListings := printedListings st;
     switchedToMoscow := switchedToMoscow st |}.
Definition set_observed (st : State) (obs : gmap string json) (sig : string) (count : Z)
    : State :=
  {| step := step st; task := task st; observation := obs;
     lastAction := lastAction st; sameActionCount := sameActionCount st;
     lastObsSig := sig; stagnantCount := count;
     searchSubmitted := searchSubmitted st; printedListings := printedListings st;
     switchedToMoscow := switchedToMoscow st |}.
Definition set_searchSubmitted (st : State) (x : bool) : State :=
  {| step := step st; task := task st; observation := observation st;
     lastAction := lastAction st; sameActionCount := sameActionCount st;
     lastObsSig := lastObsSig st; stagnantCount := stagnantCount st;
     searchSubmitted := x; printedListings := printedListings st;
     switchedToMoscow := switchedToMoscow st |}.
Definition set_printedListings (st : State) (x : bool) : State :=
  {| step := step st; task := task st; observation := observation st;
     lastAction := lastAction st; sameActionCount := sameActionCount st;
     lastObsSig := lastObsSig st; stagnantCount := stagnantCount st;
     searchSubmitted := searchSubmitted st; printedListings := x;
     switchedToMoscow := switchedToMoscow st |}.
Definition set_switchedToMoscow (st : State) (x : bool) : State :=
  {| step := step st; task := task st; observation := observation st;
     lastAction := lastAction st; sameActionCount := sameActionCount st;
     lastObsSig := lastObsSig st; stagnantCount := stagnantCount st;
     searchSubmitted := searchSubmitted st; printedListings := printedListings st;
     switchedToMoscow := x |}.

(** What the outside world answers during one iteration of the loop: the
    result of func decideNextAction (an error text or the action), the
    reading of [time.Now().UnixNano()], the operator's answer line, and the
    result of the [worker.Send] that dispatches the tool.  An answer the
    iteration does not ask for is not looked at. *)
Record StepInput := {
  in_decision : string + AgentAction;
  in_now : Z;
  in_answer : string;
  in_send : SendResult
}.

(** How an iteration ends: [continue] (or falling off the end of the body),
    [break], [return], or a run-time panic. *)
Inductive Control := Continue | Break | Return | Panic.

Definition is_rate_limit (msg : string) : bool :=
  strings.Contains msg "RESOURCE_EXHAUSTED"
  || strings.Contains msg "Quota exceeded"
  || strings.Contains msg "Please retry in".

(** The waiting time of the rate-limit branch *)
Definition retry_wait `{GoRuntime} (msg : string) : Z :=
  let wait := (60 * Second)%Z in
  let idx := strings.Index msg "Please retry in " in
  if (0 <=? idx)%Z then
    match strings.slice_from msg (idx + strings.len "Please retry in ") with
    | Some tail =>
      let sIdx := strings.Index tail "s" in
      if (0 <? sIdx)%Z then
        let numStr := strings.TrimSpace (strings.slice_to tail sIdx) in
        match strconv_ParseFloat_int numStr with
        | Some f => wrap64 (wrap64 (f + 2) * Second)
        | None => wait
        end
      else wait
    | None => wait
    end
  else wait.

(** The key [cur] of the loop protection *)
Definition action_key (action : AgentAction) (now : Z) : string :=
  let cur := Action action in
  if String.eqb (Action action) "tool" then
    let cur := cur +:+ ":" +:+ Tool action in
    if String.eqb (Tool action) "scroll" then cur +:+ ":" +:+ itoa now else cur
  else cur.

Definition print_results (results : list JobItem) : list Event :=
  imap (fun i it => EvPrint (itoa (Z.of_nat i + 1) +:+ ") " +:+ JobTitle it +:+ " — "
                             +:+ CompanyName it)) results.

Definition print_listings (listings : list Listing) : list Event :=
  imap (fun i it => EvPrint (itoa (Z.of_nat i + 1) +:+ ") " +:+ Title it +:+ " — "
                             +:+ Company it)) listings.

Definition MOSCOW_URL : string := "https://hh.ru/search/vacancy?text=AI%20Engineer&area=1".

(** The end of the "tool" case, from the comment ANTI-SPAM on: marking the
    search as submitted, collecting listings once, the fallback navigation,
    the pause. *)
Definition post_process `{GoRuntime} (st : State) : Control * State * list Event :=
  let obs := observation st in
  let st := if isSearchResultsReady obs then set_searchSubmitted st true else st in
  let st := match as_string (obs !! "url") with
            | Some u =>
              if strings.Contains u "text=" && strings.Contains (strings.ToLower u) "ai"
              then set_searchSubmitted st true else st
            | None => st
            end in
  let fallback (st : State) (ev : list Event) : Control * State * list Event :=
    let '(st, ev) :=
      match as_string (obs !! "visible_text") with
      | Some vt =>
        let low := strings.ToLower vt in
        if negb (switchedToMoscow st)
           && (strings.Contains low "ничего не найдено" || strings.Contains low "не найдено")
        then (set_switchedToMoscow st true,
              ev ++ [EvPrint "⚠️ No results detected, switching to Moscow (area=1) ...";
                     EvSend "navigate" {[ "url" := JString MOSCOW_URL ]}])%list
        else (st, ev)
      | None => (st, ev)
      end in
    (Continue, st, (ev ++ [EvSleep (3 * Second)])%list) in
  if searchSubmitted st && negb (printedListings st) then
    match as_string (obs !! "visible_text") with
    | Some vt =>
      if String.eqb vt "" then fallback st []
      else
        match ExtractListingsFromVisibleText vt 3 with
        | None => (Panic, st, [])
        | Some listings =>
          if (0 <? length listings)%nat then
            let st := set_printedListings st true in
            let ev := (EvPrint (LF +:+ "📌 Found listings:") :: print_listings listings) in
            if (3 <=? length listings)%nat
            then (Return, st, (ev ++ [EvPrint (LF +:+ "✅ DONE: collected 3 listings.")])%list)
            else fallback st ev
          else fallback st []
        end
    | None => fallback st []
    end
  else fallback st [].

(** The "tool" case of the switch *)
Definition dispatch_tool `{GoRuntime} (st : State) (action : AgentAction) (inp : StepInput)
    : Control * State * list Event :=
  if String.eqb (Tool action) "" then
    (Continue, st, [EvPrint "LLM returned tool action without tool name"])
  else
    let arguments := default ∅ (Arguments action) in
    let sent := EvSend (Tool action) arguments in
    match in_send inp with
    | SendError err => (Continue, st, [sent; EvPrint ("Worker send error: " +:+ err)])
    | SendResp resp =>
      if String.eqb (Status resp) "error" then
        (Continue, st, [sent; EvPrint ("Worker error: " +:+ Message resp)])
      else
        let sig := obsSignature (Observation resp) in
        let count := if String.eqb sig (lastObsSig st)
                     then (stagnantCount st + 1)%Z else 0%Z in
        let st := set_observed st (Observation resp) sig count in
        if (2 <=? count)%Z then
          (Continue, st,
           [sent; EvSend "scroll" {[ "direction" := JString "down" ]};
            EvSleep (800 * Millisecond)])
        else
          let '(c, st, ev) := post_process st in
          (c, st, sent :: ev)
    end.

(** The switch on [action.Action] *)
Definition dispatch `{GoRuntime} (st : State) (action : AgentAction) (inp : StepInput)
    : Control * State * list Event :=
  if String.eqb (Action action) "finish" then
    (Return, st, EvPrint ("✅ DONE: " +:+ Summary action) :: print_results (Results action))
  else if String.eqb (Action action) "ask_user" then
    (Continue,
     set_task st (task st +:+ LF +:+ "User answer: " +:+ in_answer inp),
     [EvPrint ("? " +:+ Question action); EvReadAnswer])
  else if String.eqb (Action action) "tool" then dispatch_tool st action inp
  else (Continue, st, [EvPrint ("Unknown action from LLM: " +:+ Action action)]).

(** The body of the [for] loop *)
Definition loop_body `{GoRuntime} (st : State) (inp : StepInput)
    : Control * State * list Event :=
  let banner := EvPrint (LF +:+ "--- STEP " +:+ itoa (step st) +:+ " ---") in
  match in_decision inp with
  | inl msg =>
    if is_rate_limit msg then
      let wait := retry_wait msg in
      (Continue, set_step st (step st - 1), [banner; EvPrintWaiting wait; EvSleep wait])
    else (Break, st, [banner; EvPrint ("LLM error: " +:+ msg)])
  | inr action =>
    let cur := action_key action (in_now inp) in
    let count := if String.eqb cur (lastAction st)
                 then (sameActionCount st + 1)%Z else 0%Z in
    let st := set_repeat st cur count in
    if (2 <=? count)%Z then
      (Break, st, [banner; EvPrintAction action;
                   EvPrint "⚠️ Detected repeated action, stopping."])
    else
      let '(c, st, ev) := dispatch st action inp in
      (c, st, banner :: EvPrintAction action :: ev)
  end.

(** How a run of the loop ends: the loop was left ([break], or the step
    budget was used up), func main returned from inside the loop, it
    panicked, or the script of answers ran out before any of these. *)
Inductive Outcome := Stopped | Returned | Panicked | Pending.

(** [for step := 1; step <= MaxSteps; step++ { body }], one answer record
    per iteration, followed by the closing message of func main. *)
Fixpoint run_loop `{GoRuntime} (st : State) (inputs : list StepInput)
    : Outcome * State * list Event :=
  if (step st <=? MaxSteps)%Z then
    match inputs with
    | [] => (Pending, st, [])
    | inp :: rest =>
      let '(c, st', ev) := loop_body st inp in
      match c with
      | Continue =>
        let '(o, st'', ev') := run_loop (set_step st' (step st' + 1)) rest in
        (o, st'', (ev ++ ev')%list)
      | Break =>
        (Stopped, st',
         (ev ++ [EvPrint "⚠️ Stopped: max steps reached or agent halted."])%list)
      | Return => (Returned, st', ev)
      | Panic => (Panicked, st', ev)
      end
    end
  else (Stopped, st, [EvPrint "⚠️ Stopped: max steps reached or agent halted."]).

(** func main: start the worker (a failure panics before [worker.Stop] is
    deferred), read the task, run the loop; the deferred [worker.Stop] runs
    when main returns or panics. *)
Definition main `{GoRuntime} (start : StartInput) (task_line : string)
    (inputs : list StepInput) : Outcome * list Event :=
  match StartPyWorker start with
  | (Some err, ev) => (Panicked, ev)
  | (None, ev) =>
    let '(o, _, ev') := run_loop (initial_state task_line) inputs in
    match o with
    | Pending => (Pending, (ev ++ [EvPrint "Enter task: "; EvReadTask] ++ ev')%list)
    | _ => (o, (ev ++ [EvPrint "Enter task: "; EvReadTask] ++ ev' ++ Stop)%list)
    end
  end.


(** ** Vocabulary of the statements about the loop *)

Definition repeated_action_line : string := "⚠️ Detected repeated action, stopping.".

Definition step_banner (st : State) : Event :=
  EvPrint (LF +:+ "--- STEP " +:+ itoa (step st) +:+ " ---").

Definition corrective_scroll : Event :=
  EvSend "scroll" {[ "direction" := JString "down" ]}.

(** The streak the loop protection computes for a decision *)
Definition repeat_count (st : State) (action : AgentAction) (now : Z) : Z :=
  if String.eqb (action_key action now) (lastAction st)
  then (sameActionCount st + 1)%Z else 0%Z.

(** The state once the loop protection has recorded the decision *)
Definition recorded (st : State) (inp : StepInput) (action : AgentAction) : State :=
  set_repeat st (action_key action (in_now inp)) (repeat_count st action (in_now inp)).

(** The iteration decides on a tool call that passes the loop protection
    and is sent to the worker. *)
Definition dispatches_tool (st : State) (inp : StepInput) (action : AgentAction) : Prop :=
  in_decision inp = inr action ∧ Action action = "tool" ∧ Tool action ≠ ""
  ∧ (repeat_count st action (in_now inp) < 2)%Z.

Definition tool_call_succeeds (st : State) (inp : StepInput) (action : AgentAction)
    (resp : WorkerResp) : Prop :=
  dispatches_tool st inp action ∧ in_send inp = SendResp resp ∧ Status resp ≠ "error".


(** The streak the stagnation check computes for a fingerprint *)
Definition stagnant_count (st : State) (sig : string) : Z :=
  if String.eqb sig (lastObsSig st) then (stagnantCount st + 1)%Z else 0%Z.

(** The iteration decides on a scroll tool call. *)
Definition is_scroll_call (inp : StepInput) : Prop :=
  ∃ action, in_decision inp = inr action ∧ Action action = "tool"
            ∧ Tool action = "scroll".

(** Successive readings of the clock differ. *)
Fixpoint distinct_readings (nows : list Z) : Prop :=
  match nows with
  | a :: (b :: _) as rest => a ≠ b ∧ distinct_readings rest
  | _ => True
  end.

(** The state with which the next iteration starts after [continue] *)
Definition next_step (st : State) : State := set_step st (step st + 1).

Definition is_repeated_line (e : Event) : bool :=
  match e with
  | EvPrint line => String.eqb line repeated_action_line
  | _ => false
  end.

Definition sends_tool (tool : string) (e : Event) : bool :=
  match e with
  | EvSend t _ => String.eqb t tool
  | _ => false
  end.

Definition count_sends (tool : string) (ev : list Event) : nat :=
  length (filter (fun e => sends_tool tool e = true) ev).

(** *** Sample conversations *)

Definition obs_example : gmap string json :=
  {[ "url" := JString "https://example.org"; "title" := JString "Example";
     "visible_text" := JString "hello" ]}.

Definition tool_action (tool : string) : AgentAction :=
  set_Tool (set_Action zero_action "tool") tool.

Definition resp_ok : WorkerResp :=
  {| Status := "ok"; Message := ""; Observation := obs_example |}.

Definition resp_error : WorkerResp :=
  {| Status := "error"; Message := "element not found"; Observation := ∅ |}.

Definition tool_step (tool : string) (now : Z) (result : SendResult) : StepInput :=
  {| in_decision := inr (tool_action tool); in_now := now; in_answer := "";
     in_send := result |}.

Definition error_step (msg : string) : StepInput :=
  {| in_decision := inl msg; in_now := 0; in_answer := ""; in_send := SendError "" |}.

Definition decided_step (action : AgentAction) : StepInput :=
  {| in_decision := inr action; in_now := 0; in_answer := ""; in_send := SendError "" |}.

(** The double quote *)
Definition DQ : string := String "034"%char EmptyString.

Definition start_ok : StartInput :=
  {| stdin_pipe_err := None; stdout_pipe_err := None; start_err := None;
     hello_line := inr ("{" +:+ DQ +:+ "status" +:+ DQ +:+ ":" +:+ DQ +:+ "ok" +:+ DQ +:+ "}");
     hello_decoded := inr {| Status := "ok"; Message := ""; Observation := ∅ |} |}.

Definition start_refused : StartInput :=
  {| stdin_pipe_err := None; stdout_pipe_err := None; start_err := None;
     hello_line := inr ("{" +:+ DQ +:+ "status" +:+ DQ +:+ ":" +:+ DQ +:+ "error" +:+ DQ
                        +:+ "," +:+ DQ +:+ "message" +:+ DQ +:+ ":" +:+ DQ
                        +:+ "no browser" +:+ DQ +:+ "}");
     hello_decoded := inr {| Status := "error"; Message := "no browser";
                             Observation := ∅ |} |}.

(** A decoded finish decision whose summary is an array of two records *)
Definition summary_two_jobs : AgentAction :=
  {| Action := "finish"; Tool := ""; Arguments := None; Question := "";
     SummaryRaw :=
       Some (JArray [ JObject [ ("job_title", JString "AI Engineer");
                                ("company_name", JString "Acme Inc") ];
                      JObject [ ("job_title", JString "Data Engineer");
                                ("company_name", JString "Beta LLC") ] ]);
     Results := []; Summary := "" |}.

(** A decoded finish decision without a summary *)
Definition bare_finish : AgentAction := set_Action zero_action "finish".

Definition quota_message : string :=
  "Gemini API error: Quota exceeded. Please retry in 56.25s. (RESOURCE_EXHAUSTED)".

(** The state in which the third of three click decisions is taken *)
Definition three_clicks_state : State :=
  next_step
    (@loop_body basic_runtime
       (next_step (@loop_body basic_runtime (initial_state "click it")
                     (tool_step "click" 1 (SendResp resp_ok))).1.2)
       (tool_step "click" 2 (SendResp resp_ok))).1.2.

(** The state in which the third of three successful tool calls is made *)
Definition three_calls_state : State :=
  next_step
    (@loop_body basic_runtime
       (next_step (@loop_body basic_runtime (initial_state "fill the form")
                     (tool_step "navigate" 1 (SendResp resp_ok))).1.2)
       (tool_step "click" 2 (SendResp resp_ok))).1.2.

(** 150 Cyrillic letters, 300 bytes *)
Definition long_cyrillic : string :=
  fold_right String.append EmptyString (replicate 150 "я").

(** * Further parts of the program *)

(** ** More of package strings *)

Fixpoint last_index_from (i acc : Z) (s sub : string) : Z :=
  let acc := if String.prefix sub s then i else acc in
  match s with
  | EmptyString => acc
  | String _ s' => last_index_from (i + 1)%Z acc s' sub
  end.

(** [strings.LastIndex]: byte offset of the last occurrence, or -1 *)
Definition LastIndex (s sub : string) : Z := last_index_from 0 (-1) s sub.

(** [strings.HasPrefix] *)
Definition HasPrefix (s pre : string) : bool := String.prefix pre s.

(** The slice expression [s[i:j]] for [0 <= i <= j <= len(s)] *)
Definition slice (s : string) (i j : Z) : string :=
  substring (Z.to_nat i) (Z.to_nat (j - i)) s.

(** ** The lines the extractor works on *)

(** The first part of func ExtractListingsFromVisibleText: the text from the
    marker on, split into lines and cleaned.  [None] is the panic of the
    slice expression. *)
Definition extractor_lines `{GoRuntime} (visible : string) : option (list string) :=
  let visible := strings.ReplaceAll visible CRLF LF in
  let lower := strings.ToLower visible in
  let idx := strings.Index lower "найдено" in
  match (if (0 <=? idx)%Z then strings.slice_from visible idx else Some visible) with
  | None => None
  | Some visible => Some (clean_lines (strings.Split visible LF))
  end.

(** A record both of whose fields pass the predicate of their kind *)
Definition classified `{GoRuntime} (rec : Listing) : Prop :=
  isLikelyTitle (Title rec) = true ∧ isLikelyCompany (Company rec) = true.

(** A record whose title is one of the lines and whose company is one of
    the six lines that follow it *)
Definition paired_in (lines : list string) (rec : Listing) : Prop :=
  ∃ pre post, lines = (pre ++ Title rec :: post)%list ∧ In (Company rec) (take 6 post).

(** A line as the cleaning loop lets it through *)
Definition clean_line (l : string) : Prop :=
  l ≠ "" ∧ (utf8.RuneCountInString l <= 120)%Z ∧ strings.Contains l "  " = false.

(** func isLikelyTitle without its loop over [mustHaveRole] *)
Definition isLikelyTitle_without_roles `{GoRuntime} (s : string) : bool :=
  let s := normalizeSpaces s in
  if String.eqb s "" then false
  else
    let low := strings.ToLower s in
    if contains_any low title_badTitle then false
    else if negb (strings.Contains low "engineer" || strings.Contains low "инженер")
    then false
    else if contains_any low title_bad then false
    else
      let n := utf8.RuneCountInString s in
      (4 <=? n)%Z && (n <=? 90)%Z.

(** ** More of the decision side *)

(** func fakeLLM *)
Definition fakeLLM (task : string) (observation : gmap string json) : AgentAction :=
  let url := string_at observation "url" in
  if String.eqb url "" then
    {| Action := "tool"; Tool := "navigate";
       Arguments := Some {[ "url" := JString "https://hh.ru" ]};
       Question := ""; SummaryRaw := None; Results := []; Summary := "" |}
  else
    {| Action := "finish"; Tool := ""; Arguments := None; Question := "";
       SummaryRaw := None; Results := []; Summary := "Opened hh.ru successfully" |}.

(** The tool name Case 2 of func normalizeAction arrives at, for an action
    that came in without one: the string under "tool" in the root object,
    or else the string under "action" when it is a tool name. *)
Definition recovered_tool (m : gmap string json) : string :=
  let t := default "" (as_string (m !! "tool")) in
  if String.eqb t "" then
    match as_string (m !! "action") with
    | Some t' => if is_toolName t' then t' else t
    | None => t
    end
  else t.

(** The trimming of the raw text in func decideNextAction: a text that
    does not start with a brace is cut down to the part from its first
    opening brace to its last closing brace, when there is such a part. *)
Definition trim_to_object (raw : string) : string :=
  if HasPrefix raw "{" then raw
  else
    let i := strings.Index raw "{" in
    if (0 <=? i)%Z then
      let j := LastIndex raw "}" in
      if (i <? j)%Z then slice raw i (j + 1) else raw
    else raw.

(** type geminiResponse: the texts of the parts of each candidate, and the
    error member *)
Module gemini.
Record Error := { Message : string; Status : string }.
Record Response := { Candidates : list (list string); Err : option Error }.
End gemini.

(** What func callGemini meets: the environment variable GEMINI_API_KEY,
    the errors of [http.NewRequest] and [client.Do], and the result of
    decoding the response body (the decoder's error text or the struct). *)
Record GeminiInput := {
  api_key : string;
  new_request_err : option string;
  do_err : option string;
  body_decoded : string + gemini.Response
}.

(** func callGemini: the error text, or the trimmed text of the first part
    of the first candidate *)
Definition callGemini (inp : GeminiInput) : string + string :=
  if String.eqb (api_key inp) "" then inl "GEMINI_API_KEY is not set"
  else
    match new_request_err inp with
    | Some err => inl err
    | None =>
      match do_err inp with
      | Some err => inl err
      | None =>
        match body_decoded inp with
        | inl err => inl err
        | inr out =>
          match gemini.Err out with
          | Some e =>
            inl ("Gemini API error: " +:+ gemini.Message e +:+ " (" +:+ gemini.Status e
                 +:+ ")")
          | None =>
            match gemini.Candidates out with
            | (text :: _) :: _ => inr (strings.TrimSpace text)
            | _ => inl "empty Gemini response"
            end
          end
        end
      end
    end.

(** What func decideNextAction meets besides: the result of parsing the
    trimmed text as JSON (the parser's error text or the value), and the
    text of the type error [json.Unmarshal] reports when the value does not
    fit the struct. *)
Record DecideInput := {
  gemini_call : GeminiInput;
  parsed : string + json;
  type_err : string
}.

(** func decideNextAction *)
Definition decideNextAction (inp : DecideInput) : string + AgentAction :=
  match callGemini (gemini_call inp) with
  | inl err => inl err
  | inr raw =>
    let raw := trim_to_object (strings.TrimSpace raw) in
    let failed (err : string) : string + AgentAction :=
      inl ("failed to parse LLM JSON: " +:+ err +:+ LF +:+ "raw=" +:+ raw) in
    match parsed inp with
    | inl err => failed err
    | inr v =>
      match unmarshal_AgentAction v with
      | None => failed (type_err inp)
      | Some action => inr (finalizeActionFields (normalizeAction action (Some v)))
      end
    end
  end.

(** A reply that wraps its object in prose *)
Definition embedded_middle : string :=
  DQ +:+ "action" +:+ DQ +:+ ":" +:+ DQ +:+ "finish" +:+ DQ +:+ "," +:+ DQ +:+ "summary"
  +:+ DQ +:+ ":" +:+ DQ +:+ "ok" +:+ DQ.

Definition embedded_object : string := "{" +:+ embedded_middle +:+ "}".

Definition chatty_reply : string := "Sure! " +:+ embedded_object +:+ " thanks".

(** *** Sample decisions *)

Definition gemini_ok (out : gemini.Response) : GeminiInput :=
  {| api_key := "key"; new_request_err := None; do_err := None;
     body_decoded := inr out |}.

(** The environment has no GEMINI_API_KEY. *)
Definition no_key : DecideInput :=
  {| gemini_call := {| api_key := ""; new_request_err := None; do_err := None;
                       body_decoded := inl "" |};
     parsed := inl ""; type_err := "" |}.

(** The service answers with its quota error. *)
Definition quota_answer : DecideInput :=
  {| gemini_call :=
       gemini_ok {| gemini.Candidates := [];
                    gemini.Err := Some {| gemini.Message := "You exceeded your current quota";
                                          gemini.Status := "RESOURCE_EXHAUSTED" |} |};
     parsed := inl ""; type_err := "" |}.

(** The model answers in prose that mentions a quota. *)
Definition apology_reply : DecideInput :=
  {| gemini_call :=
       gemini_ok {| gemini.Candidates := [ [ "Sorry: Quota exceeded for this page." ] ];
                    gemini.Err := None |};
     parsed := inl "invalid character 'S' looking for beginning of value";
     type_err := "" |}.

Definition decide_step (di : DecideInput) : StepInput :=
  {| in_decision := decideNextAction di; in_now := 0; in_answer := "";
     in_send := SendError "" |}.

(** The arguments Case 2 of func normalizeAction arrives at: the members
    of args stored over the decoded arguments, then the remaining members
    of the root object stored where their key is free. *)
Definition merged_arguments (arguments m : gmap string json) : gmap string json :=
  merge_root
    match as_object (m !! "args") with
    | Some args => merge_args arguments args
    | None => arguments
    end m.

(** A canonical tool call and a decoded ask_user decision *)
Definition canonical_click : AgentAction :=
  {| Action := "tool"; Tool := "click";
     Arguments := Some {[ "element_id" := JString "5" ]};
     Question := ""; SummaryRaw := None; Results := []; Summary := "" |}.

Definition obs_hh : gmap string json :=
  {[ "url" := JString "https://hh.ru/"; "title" := JString "hh.ru" ]}.

Definition fake_step (task : string) (st : State) : StepInput :=
  {| in_decision := inr (fakeLLM task (observation st)); in_now := 0;
     in_answer := ""; in_send := SendError "" |}.

Definition state_at_hh : State :=
  set_observed (initial_state "open hh.ru") obs_hh (obsSignature obs_hh) 0.

(** ** More vocabulary for the loop *)

(** func isSearchResultsReady without its middle alternative *)
Definition isSearchResultsReady_short `{GoRuntime} (observation : gmap string json) : bool :=
  let uLow := strings.ToLower (string_at observation "url") in
  strings.Contains uLow "/search/vacancy" && strings.Contains uLow "text="
  && (strings.Contains uLow "text=ai" || strings.Contains uLow "ai%20engineer").

Definition fallback_line : string :=
  "⚠️ No results detected, switching to Moscow (area=1) ...".

Definition fallback_navigate : Event :=
  EvSend "navigate" {[ "url" := JString MOSCOW_URL ]}.

Definition is_fallback_line (e : Event) : bool :=
  match e with
  | EvPrint line => String.eqb line fallback_line
  | _ => false
  end.

Definition count_fallbacks (ev : list Event) : nat :=
  length (filter (fun e => is_fallback_line e = true) ev).

Definition is_kill (e : Event) : bool :=
  match e with
  | EvKill => true
  | _ => false
  end.

(** The commands an iteration may send: the tool call the decision asks
    for, the corrective scroll, the fallback navigation. *)
Definition allowed_command (inp : StepInput) (e : Event) : Prop :=
  match e with
  | EvSend tool args =>
    (∃ a, in_decision inp = inr a ∧ Action a = "tool" ∧ Tool a ≠ ""
          ∧ tool = Tool a ∧ args = default ∅ (Arguments a))
    ∨ e = corrective_scroll ∨ e = fallback_navigate
  | _ => True
  end.

(** The decision of the iteration is not a rate-limit failure. *)
Definition not_rate_limited (inp : StepInput) : Prop :=
  ∀ msg, in_decision inp = inl msg → is_rate_limit msg = false.

(** What one rate-limit failure makes the loop do *)
Definition retry_events `{GoRuntime} (st : State) (msg : string) : list Event :=
  [step_banner st; EvPrintWaiting (retry_wait msg); EvSleep (retry_wait msg)].

(** An observation of a page of results *)
Definition obs_results (text : string) : gmap string json :=
  {[ "url" := JString "https://hh.ru/search/vacancy?text=AI%20Engineer";
     "title" := JString "Search"; "visible_text" := JString text ]}.

Definition unknown_action : AgentAction := zero_action.

Definition ask_action : AgentAction :=
  set_Question (set_Action zero_action "ask_user") "Which city?".

Definition ask_step (answer : string) : StepInput :=
  {| in_decision := inr ask_action; in_now := 0; in_answer := answer;
     in_send := SendError "" |}.

Definition start_no_pipe : StartInput :=
  {| stdin_pipe_err := Some "exec: Stdin already set"; stdout_pipe_err := None;
     start_err := None; hello_line := inl ""; hello_decoded := inl "" |}.

(** The worker shows a page of results that has none. *)
Definition resp_nothing : WorkerResp :=
  {| Status := "ok"; Message := "";
     Observation := obs_results "По вашему запросу ничего не найдено" |}.

Definition two_empty_pages : list StepInput :=
  [tool_step "click" 1 (SendResp resp_nothing);
   tool_step "press" 2 (SendResp resp_nothing)].

(** Fifteen decisions in a row, no one the same as the one before it: a
    question, then a decision without discriminator, and so on. *)
Definition fifteen_steps : list StepInput :=
  (concat (replicate 7 [ask_step "Moscow"; decided_step unknown_action])
   ++ [ask_step "Moscow"])%list.

(** The states after the first of three clicks, and after the first of
    three successful tool calls *)
Definition one_click_state : State :=
  next_step (@loop_body basic_runtime (initial_state "click it")
               (tool_step "click" 1 (SendResp resp_ok))).1.2.

Definition one_call_state : State :=
  next_step (@loop_body basic_runtime (initial_state "fill the form")
               (tool_step "navigate" 1 (SendResp resp_ok))).1.2.

(** A page of results whose text grows when lowered *)
Definition resp_growing : WorkerResp :=
  {| Status := "ok"; Message := ""; Observation := obs_results growing_text |}.

(** A decision text that names results twice *)
Definition finish_results_twice : json :=
  JObject [ ("action", JString "finish");
            ("results", JArray [JObject [("job_title", JString "A");
                                         ("company_name", JString "B")]]);
            ("results", JArray [JObject [("job_title", JString "C")]]) ].

(** A failure of the decision service whose retry hint holds no number *)
Definition hint_without_number : string :=
  "Quota exceeded. Please retry in a few seconds.".
(** * Properties *)

(** ** The string helpers *)

Lemma index_from_sign (s sub : string) (i j : Z) :
  (0 <= i)%Z → (0 <= j)%Z →
  (0 <=? strings.index_from i s sub)%Z = (0 <=? strings.index_from j s sub)%Z.
Proof.
  revert i j. induction s as [|c s IH]; intros i j Hi Hj;
    cbn [strings.index_from].
  - destruct (String.prefix sub ""); [|reflexivity].
    apply Z.leb_le in Hi, Hj. now rewrite Hi, Hj.
  - destruct (String.prefix sub (String c s)).
    + apply Z.leb_le in Hi, Hj. now rewrite Hi, Hj.
    + apply IH; lia.
Qed.

Lemma Contains_cons (c : ascii) (s sub : string) :
  strings.Contains (String c s) sub
  = String.prefix sub (String c s) || strings.Contains s sub.
Proof.
  unfold strings.Contains, strings.Index. cbn [strings.index_from].
  destruct (String.prefix sub (String c s)); [reflexivity|].
  cbn [orb]. apply index_from_sign; lia.
Qed.

Lemma string_length_app (a b : string) :
  String.length (a +:+ b) = (String.length a + String.length b)%nat.
Proof. induction a as [|c a IH]; simpl; [reflexivity|now rewrite IH]. Qed.

(** One round of the space-collapsing loop never lengthens the string and
    shortens it when a double space is present. *)
Lemma replace_double_space_length (n : nat) (s : string) :
  (String.length s ≤ n)%nat →
  (String.length (strings.replace_from 0 s "  " " ") ≤ String.length s)%nat
  ∧ (strings.Contains s "  " = true →
     (String.length (strings.replace_from 0 s "  " " ") < String.length s)%nat).
Proof.
  revert s. induction n as [|n IH]; intros s Hn.
  - destruct s; simpl in *; [|lia]. split; [lia|]. intros H. discriminate H.
  - destruct s as [|c s]; [split; [simpl; lia|intros H; discriminate H]|].
    rewrite Contains_cons.
    cbn [strings.replace_from].
    destruct (String.prefix "  " (String c s)) eqn:Hp.
    + destruct s as [|d s].
      { cbn [String.prefix] in Hp. destruct (ascii_dec " " c); discriminate Hp. }
      cbn [strings.replace_from String.length Nat.pred].
      destruct (IH s) as [Hle _]; [simpl in Hn; lia|].
      rewrite string_length_app. cbn [String.length].
      split; [lia|intros _; lia].
    + destruct (IH s) as [Hle Hlt]; [simpl in Hn; lia|].
      simpl. split; [lia|]. intros H. apply Hlt in H. lia.
Qed.

(** The fuel given to the space-collapsing loop is enough: its result
    holds no double space. *)
Lemma collapse_spaces_done (fuel : nat) (s : string) :
  (String.length s ≤ fuel)%nat →
  strings.Contains (collapse_spaces fuel s) "  " = false.
Proof.
  revert s. induction fuel as [|fuel IH]; intros s Hf.
  - destruct s; [reflexivity|simpl in Hf; lia].
  - simpl. destruct (strings.Contains s "  ") eqn:Hc; [|exact Hc].
    apply IH. unfold strings.ReplaceAll.
    destruct (replace_double_space_length (String.length s) s) as [_ Hlt]; [lia|].
    specialize (Hlt Hc). lia.
Qed.

Lemma normalizeSpaces_no_double_space (s : string) :
  strings.Contains (normalizeSpaces s) "  " = false.
Proof. unfold normalizeSpaces. apply collapse_spaces_done. lia. Qed.

(** ** The listing extractor *)

Section Extractor.
Context `{rt : GoRuntime}.

Lemma extract_loop_nodup (want : Z) (lines : list string) :
  ∀ (found : list Listing) (seen : gset string),
    NoDup (map listing_key found) →
    (∀ x, x ∈ found → listing_key x ∈ seen) →
    NoDup (map listing_key (extract_loop want lines found seen)).
Proof.
  induction lines as [|title rest IH]; intros found seen Hnd Hseen; [exact Hnd|].
  cbn [extract_loop].
  destruct (contains_any _ title_badTitle); [now apply IH|].
  destruct (isLikelyTitle title); cbn [negb]; [|now apply IH].
  destruct (String.eqb (find_company (take 6 rest)) ""); [now apply IH|].
  case_decide as Hin; [now apply IH|].
  set (it := {| Title := title; Company := find_company (take 6 rest) |}) in *.
  assert (Hnd' : NoDup (map listing_key (found ++ [it]))).
  { rewrite map_app. apply NoDup_app. split; [exact Hnd|]. split.
    - intros k Hk Hk'. apply list_elem_of_singleton in Hk'. subst k.
      apply list_elem_of_In, in_map_iff in Hk. destruct Hk as (x & Hx & Hxin).
      apply list_elem_of_In, Hseen in Hxin. rewrite Hx in Hxin. exact (Hin Hxin).
    - apply NoDup_singleton. }
  destruct (want <=? _)%Z; [exact Hnd'|].
  apply IH; [exact Hnd'|].
  intros x Hx. apply elem_of_app in Hx. destruct Hx as [Hx|Hx].
  - apply elem_of_union_r. now apply Hseen.
  - apply list_elem_of_singleton in Hx. subst x. apply elem_of_union_l.
    now apply elem_of_singleton.
Qed.

Lemma extract_loop_length (want : Z) (lines : list string) :
  ∀ (found : list Listing) (seen : gset string),
    (Z.of_nat (length found) < want)%Z →
    (Z.of_nat (length (extract_loop want lines found seen)) <= want)%Z.
Proof.
  induction lines as [|title rest IH]; intros found seen Hlen; [simpl; lia|].
  cbn [extract_loop].
  destruct (contains_any _ title_badTitle); [now apply IH|].
  destruct (isLikelyTitle title); cbn [negb]; [|now apply IH].
  destruct (String.eqb (find_company (take 6 rest)) ""); [now apply IH|].
  case_decide as Hin; [now apply IH|].
  destruct (want <=? _)%Z eqn:Hw.
  - rewrite length_app. simpl. lia.
  - apply IH. apply Z.leb_gt in Hw. exact Hw.
Qed.

(** The extractor returns unless [want] is outside the capacities the run
    time accepts or the marker offset lies beyond the end of the text. *)
Lemma extract_returns (visible : string) (want : Z) :
  let text := strings.ReplaceAll visible CRLF LF in
  let idx := strings.Index (strings.ToLower text) "найдено" in
  (0 <= want <= max_Listing_cap)%Z → (idx <= strings.len text)%Z →
  is_Some (ExtractListingsFromVisibleText visible want).
Proof.
  intros text idx [Hw Hc] Hidx. unfold ExtractListingsFromVisibleText.
  fold text. fold idx.
  apply Z.ltb_ge in Hw, Hc. rewrite Hw, Hc. cbn [orb].
  destruct (0 <=? idx)%Z eqn:H0; [|eauto].
  unfold strings.slice_from. rewrite H0.
  apply Z.leb_le in Hidx. rewrite Hidx. cbn [andb]. eauto.
Qed.

(** X27: whenever the extractor returns, no two records of the result
    share the case-insensitive composite key of title and company, and for
    a requested count of at least one the result has at most that many
    records. *)
Theorem extract_bounded_and_deduplicated (visible : string) (want : Z)
    (found : list Listing) :
  ExtractListingsFromVisibleText visible want = Some found →
  ((1 <= want)%Z → (Z.of_nat (length found) <= want)%Z)
  ∧ NoDup (map listing_key found).
Proof.
  unfold ExtractListingsFromVisibleText. intros H.
  destruct (if (0 <=? _)%Z then _ else _) as [text|]; [|discriminate H].
  destruct ((want <? 0)%Z || (max_Listing_cap <? want)%Z); [discriminate H|].
  injection H as <-. split.
  - intros Hw. apply extract_loop_length. simpl. lia.
  - apply extract_loop_nodup; [constructor|]. intros x Hx. inversion Hx.
Qed.

End Extractor.

Lemma extract_bounded_and_deduplicated_witness :
  @ExtractListingsFromVisibleText basic_runtime spec_text 2
  = Some [ {| Title := "AI Engineer"; Company := "Acme Inc" |};
           {| Title := "Data Engineer"; Company := "Beta LLC" |} ]
  ∧ ((1 <= 2)%Z →
     (Z.of_nat (length [ {| Title := "AI Engineer"; Company := "Acme Inc" |};
                         {| Title := "Data Engineer"; Company := "Beta LLC" |} ])
      <= 2)%Z)
  ∧ NoDup (map (@listing_key basic_runtime)
               [ {| Title := "AI Engineer"; Company := "Acme Inc" |};
                 {| Title := "Data Engineer"; Company := "Beta LLC" |} ]).
Proof.
  split; [vm_compute; reflexivity|].
  apply (@extract_bounded_and_deduplicated basic_runtime spec_text 2).
  vm_compute. reflexivity.
Defined.

(** Asked for zero records the extractor returns one: the count is compared
    after a record has been appended. *)
Example extract_zero_wanted :
  @ExtractListingsFromVisibleText basic_runtime spec_text 0
  = Some [ {| Title := "AI Engineer"; Company := "Acme Inc" |} ].
Proof. vm_compute. reflexivity. Qed.

(** The capacity is checked by the run time: a count beyond the largest
    capacity panics, as a negative one does. *)
Example extract_capacity_out_of_range :
  @ExtractListingsFromVisibleText basic_runtime spec_text (2 ^ 44) = None
  ∧ @ExtractListingsFromVisibleText basic_runtime spec_text (-1) = None.
Proof. split; vm_compute; reflexivity. Qed.

(** C4 on the code: the offset of the marker word is looked up in the
    lower-cased text and used to cut the text itself.  Fifteen letters
    U+023A (two bytes each, three when lowered) in front of the marker make
    the offset 45 in a text of 44 bytes, so [visible[idx:]] panics: asked
    for three records the extractor returns no list at all, and a run of
    func main whose worker shows that text on a page of results panics in
    the first step. *)
Theorem marker_offset_beyond_text :
  strings.len growing_text = 44%Z
  ∧ strings.Index (@strings.ToLower basic_runtime growing_text) "найдено" = 45%Z
  ∧ strings.slice_from growing_text 45 = None
  ∧ @ExtractListingsFromVisibleText basic_runtime growing_text 3 = None
  ∧ (@loop_body basic_runtime (initial_state "find jobs")
       (tool_step "click" 1 (SendResp resp_growing))).1.1 = Panic
  ∧ (@main basic_runtime start_ok "find jobs"
       [tool_step "click" 1 (SendResp resp_growing)]).1 = Panicked.
Proof. repeat split; vm_compute; reflexivity. Qed.

(** *** Independence of the lower-case table *)

Section Agreement.
Context (rt1 rt2 : GoRuntime).

Lemma Map_agree (f g : Z → Z) (s : string) :
  (∀ p, In p (utf8.runes s) → f (fst p) = g (fst p)) →
  strings.Map f s = strings.Map g s.
Proof.
  unfold strings.Map. induction (utf8.runes s) as [|p l IH]; intros H; [reflexivity|].
  cbn [fold_right]. rewrite (H p) by now left.
  rewrite IH; [reflexivity|]. intros q Hq. apply H. now right.
Qed.

Lemma ToLower_agree (s : string) :
  (∀ p, In p (utf8.runes s) →
        @unicode_ToLower rt1 (fst p) = @unicode_ToLower rt2 (fst p)) →
  @strings.ToLower rt1 s = @strings.ToLower rt2 s.
Proof.
  intros H. unfold strings.ToLower. destruct (strings.is_ascii s); [reflexivity|].
  now apply Map_agree.
Qed.


Lemma isLikelyTitle_agree (l : string) :
  lowers_alike rt1 rt2 l → @isLikelyTitle rt1 l = @isLikelyTitle rt2 l.
Proof. intros [_ H]. unfold isLikelyTitle. now rewrite H. Qed.

Lemma isLikelyCompany_agree (l : string) :
  lowers_alike rt1 rt2 l → @isLikelyCompany rt1 l = @isLikelyCompany rt2 l.
Proof. intros [_ H]. unfold isLikelyCompany. now rewrite H. Qed.

Lemma find_company_agree (window : list string) :
  Forall (lowers_alike rt1 rt2) window →
  @find_company rt1 window = @find_company rt2 window
  ∧ (@find_company rt2 window = "" ∨ lowers_alike rt1 rt2 (@find_company rt2 window)).
Proof.
  induction 1 as [|l window Hl _ IH]; [split; [reflexivity|now left]|].
  cbn [find_company]. rewrite (isLikelyCompany_agree l Hl).
  destruct (@isLikelyCompany rt2 l); [split; [reflexivity|now right]|exact IH].
Qed.

Lemma extract_loop_agree (want : Z) (lines : list string) :
  Forall (lowers_alike rt1 rt2) lines →
  ∀ found seen,
    @extract_loop rt1 want lines found seen = @extract_loop rt2 want lines found seen.
Proof.
  induction 1 as [|title rest Ht Hrest IH]; intros found seen; [reflexivity|].
  cbn [extract_loop].
  destruct (find_company_agree (take 6 rest)) as [Hc Hlow].
  { now apply Forall_take. }
  rewrite (isLikelyTitle_agree title Ht), Hc. destruct Ht as [Ht _]. rewrite Ht.
  destruct (contains_any _ title_badTitle); [apply IH|].
  destruct (@isLikelyTitle rt2 title); cbn [negb]; [|apply IH].
  destruct (String.eqb (@find_company rt2 (take 6 rest)) "") eqn:He; [apply IH|].
  destruct Hlow as [Hz|[Hl _]].
  { rewrite Hz in He. discriminate He. }
  rewrite Hl. case_decide; [apply IH|].
  destruct (want <=? _)%Z; [reflexivity|apply IH].
Qed.

Lemma ExtractListings_agree (visible : string) (want : Z) :
  let text := strings.ReplaceAll visible CRLF LF in
  let idx := strings.Index (@strings.ToLower rt2 text) "найдено" in
  @strings.ToLower rt1 text = @strings.ToLower rt2 text →
  (∀ v, (if (0 <=? idx)%Z then strings.slice_from text idx else Some text) = Some v →
        Forall (lowers_alike rt1 rt2) (clean_lines (strings.Split v LF))) →
  @ExtractListingsFromVisibleText rt1 visible want
  = @ExtractListingsFromVisibleText rt2 visible want.
Proof.
  intros text idx Hlow Hlines. unfold ExtractListingsFromVisibleText.
  fold text. rewrite Hlow. fold idx.
  destruct (if (0 <=? idx)%Z then _ else _) as [v|]; [|reflexivity].
  destruct ((want <? 0)%Z || (max_Listing_cap <? want)%Z); [reflexivity|].
  f_equal. apply extract_loop_agree. now apply Hlines.
Qed.

End Agreement.

Section SpecExample.
Context `{rt : GoRuntime}.
Hypothesis table_basic :
  ∀ r, in_basic_range r = true → unicode_ToLower r = basic_ToLower r.

Lemma ToLower_basic (s : string) :
  runes_in_basic_range s = true →
  @strings.ToLower rt s = @strings.ToLower basic_runtime s.
Proof.
  intros H. apply ToLower_agree. intros p Hp. apply table_basic.
  unfold runes_in_basic_range in H. rewrite forallb_forall in H. now apply H.
Qed.

Lemma lowers_alike_basic (l : string) :
  runes_in_basic_range l = true →
  runes_in_basic_range (normalizeSpaces l) = true →
  lowers_alike rt basic_runtime l.
Proof. intros H1 H2. split; now apply ToLower_basic. Qed.

Lemma extract_spec_text_basic (want : Z) :
  ExtractListingsFromVisibleText spec_text want
  = @ExtractListingsFromVisibleText basic_runtime spec_text want.
Proof.
  apply ExtractListings_agree.
  - apply ToLower_basic. vm_compute. reflexivity.
  - intros v Hv. vm_compute in Hv. injection Hv as <-.
    match goal with |- Forall _ ?l => let l' := eval vm_compute in l in change l with l' end.
    repeat (apply Forall_cons; split;
            [apply lowers_alike_basic; vm_compute; reflexivity|]).
    apply Forall_nil. exact I.
Qed.

(** C3: on the text of the specification's example, asked for two records
    the extractor returns the two pairs in the order of the text, and asked
    for one it returns the first pair only. *)
Theorem extractor_example_in_order :
  ExtractListingsFromVisibleText spec_text 2
  = Some [ {| Title := "AI Engineer"; Company := "Acme Inc" |};
           {| Title := "Data Engineer"; Company := "Beta LLC" |} ]
  ∧ ExtractListingsFromVisibleText spec_text 1
    = Some [ {| Title := "AI Engineer"; Company := "Acme Inc" |} ].
Proof.
  rewrite !extract_spec_text_basic. split; vm_compute; reflexivity.
Qed.

End SpecExample.

Lemma basic_table_basic :
  ∀ r, in_basic_range r = true → @unicode_ToLower basic_runtime r = basic_ToLower r.
Proof. reflexivity. Qed.

Lemma extractor_example_in_order_witness :
  @ExtractListingsFromVisibleText basic_runtime spec_text 2
  = Some [ {| Title := "AI Engineer"; Company := "Acme Inc" |};
           {| Title := "Data Engineer"; Company := "Beta LLC" |} ]
  ∧ @ExtractListingsFromVisibleText basic_runtime spec_text 1
    = Some [ {| Title := "AI Engineer"; Company := "Acme Inc" |} ].
Proof. exact (@extractor_example_in_order basic_runtime basic_table_basic). Defined.

(** ** The decision normaliser *)

Lemma merge_args_lookup (arguments args : gmap string json) (k : string) :
  merge_args arguments args !! k
  = match args !! k with
    | Some v => Some v
    | None => arguments !! k
    end.
Proof.
  unfold merge_args. revert k.
  apply (map_fold_weak_ind
           (fun r (m : gmap string json) =>
              ∀ k, r !! k = match m !! k with Some v => Some v | None => arguments !! k end)).
  - intros k. now rewrite lookup_empty.
  - intros i x m' r Hi IH k. destruct (decide (i = k)) as [->|Hne].
    + now rewrite !lookup_insert_eq.
    + rewrite !lookup_insert_ne by exact Hne. apply IH.
Qed.

Lemma merge_root_lookup (arguments m : gmap string json) (k : string) :
  merge_root arguments m !! k
  = match arguments !! k with
    | Some v => Some v
    | None => if is_reserved_key k then None else m !! k
    end.
Proof.
  unfold merge_root. revert k.
  apply (map_fold_weak_ind
           (fun r (m : gmap string json) =>
              ∀ k, r !! k = match arguments !! k with
                            | Some v => Some v
                            | None => if is_reserved_key k then None else m !! k
                            end)).
  - intros k. rewrite lookup_empty. destruct (arguments !! k); [reflexivity|].
    now destruct (is_reserved_key k).
  - intros i x m' r Hi IH k.
    destruct (is_reserved_key i) eqn:Hres.
    + rewrite IH. destruct (arguments !! k); [reflexivity|].
      destruct (decide (i = k)) as [->|Hne]; [now rewrite Hres|].
      now rewrite lookup_insert_ne.
    + destruct (r !! i) eqn:Hr.
      * rewrite IH. destruct (decide (i = k)) as [->|Hne].
        -- rewrite IH, Hi, Hres in Hr. rewrite lookup_insert_eq, Hi, Hres.
           destruct (arguments !! k); [reflexivity|discriminate Hr].
        -- now rewrite lookup_insert_ne.
      * destruct (decide (i = k)) as [->|Hne].
        -- rewrite !lookup_insert_eq. rewrite IH, Hi, Hres in Hr.
           destruct (arguments !! k); [discriminate Hr|]. now rewrite Hres.
        -- rewrite !lookup_insert_ne by exact Hne. apply IH.
Qed.

Lemma is_toolName_not_empty (name : string) : is_toolName name = true → name ≠ "".
Proof. intros H ->. discriminate H. Qed.

Lemma tool_is_not_a_toolName : is_toolName "tool" = false.
Proof. reflexivity. Qed.





(** *** The completion payload *)

Lemma decode_JobItem_members_shaped (members : list (string * json)) :
  ∀ it,
    forallb (fun kv =>
               if key_matches "job_title" (fst kv) || key_matches "company_name" (fst kv)
               then match snd kv with JString _ => true | _ => false end
               else true) members = true →
    ∃ it', fold_left decode_JobItem_member members (Some it) = Some it'.
Proof.
  induction members as [|[k v] members IH]; intros it H; [now exists it|].
  cbn [forallb fst snd] in H. apply andb_true_iff in H. destruct H as [Hkv H].
  cbn [fold_left]. unfold decode_JobItem_member at 2. cbn [fst snd].
  destruct (key_matches "job_title" k).
  - destruct v; try discriminate Hkv. cbn [decode_string_field]. now apply IH.
  - destruct (key_matches "company_name" k).
    + destruct v; try discriminate Hkv. cbn [decode_string_field]. now apply IH.
    + now apply IH.
Qed.

Lemma decode_JobItems_shaped (items : list json) :
  forallb record_shaped items = true → is_Some (decode_JobItems items).
Proof.
  induction items as [|v items IH]; intros H; [now eexists|].
  cbn [forallb] in H. apply andb_true_iff in H. destruct H as [Hv H].
  destruct (IH H) as [arr Harr]. cbn [decode_JobItems]. rewrite Harr.
  destruct v; try discriminate Hv. cbn [decode_JobItem].
  destruct (decode_JobItem_members_shaped members
              {| JobTitle := ""; CompanyName := "" |} Hv) as [it Hit].
  rewrite Hit. now eexists.
Qed.

Lemma decode_JobItems_length (items : list json) :
  ∀ arr, decode_JobItems items = Some arr → length arr = length items.
Proof.
  induction items as [|v items IH]; intros arr H; cbn [decode_JobItems] in H.
  - now injection H as <-.
  - destruct (decode_JobItem v); [|discriminate H].
    destruct (decode_JobItems items) as [its|]; [|discriminate H].
    injection H as <-. cbn [length]. now rewrite (IH its).
Qed.

Lemma finalize_array (a : AgentAction) (items : list json) (arr : list JobItem) :
  SummaryRaw a = Some (JArray items) → decode_JobItems items = Some arr →
  finalizeActionFields a
  = set_Summary (if (length (Results a) =? 0)%nat then set_Results a arr else a)
                ("Found " +:+ itoa (Z.of_nat (length items)) +:+ " jobs.").
Proof.
  intros Hraw Harr. unfold finalizeActionFields. rewrite Hraw.
  cbn [unmarshal_string unmarshal_JobItems]. rewrite Harr.
  now rewrite (decode_JobItems_length items arr Harr).
Qed.

(** C5 (as amended): a JSON string is the summary verbatim; JSON null
    leaves the summary empty; an array of record-shaped objects (any array
    whose elements all decode as job items) gives "Found N jobs." with N the
    length of the array, and fills the records only when none were supplied;
    every other payload gives "Done.".  An array of two record-shaped
    objects without supplied records gives "Found 2 jobs." and two records. *)
Theorem finalize_summary_coercion (a : AgentAction) (raw : json) :
  SummaryRaw a = Some raw →
  (∀ s, raw = JString s → finalizeActionFields a = set_Summary a s)
  ∧ (raw = JNull → finalizeActionFields a = set_Summary a "")
  ∧ (∀ items, raw = JArray items →
       (forallb record_shaped items = true → is_Some (decode_JobItems items))
       ∧ ∀ arr, decode_JobItems items = Some arr →
           length arr = length items
           ∧ finalizeActionFields a
             = set_Summary
                 (if (length (Results a) =? 0)%nat then set_Results a arr else a)
                 ("Found " +:+ itoa (Z.of_nat (length items)) +:+ " jobs."))
  ∧ (unmarshal_string raw = None → unmarshal_JobItems raw = None →
     finalizeActionFields a = set_Summary a "Done.")
  ∧ (∀ o1 o2, raw = JArray [o1; o2] →
       record_shaped o1 = true → record_shaped o2 = true → Results a = [] →
       Summary (finalizeActionFields a) = "Found 2 jobs."
       ∧ length (Results (finalizeActionFields a)) = 2%nat).
Proof.
  intros Hraw.
  split; [intros s ->; unfold finalizeActionFields; now rewrite Hraw|].
  split; [intros ->; unfold finalizeActionFields; now rewrite Hraw|].
  split.
  { intros items ->. split; [apply decode_JobItems_shaped|].
    intros arr Harr. split; [now apply decode_JobItems_length|].
    now apply finalize_array. }
  split.
  { intros Hs Hj. unfold finalizeActionFields. now rewrite Hraw, Hs, Hj. }
  intros o1 o2 -> Ho1 Ho2 Hres.
  destruct (decode_JobItems_shaped [o1; o2]) as [arr Harr].
  { cbn [forallb]. now rewrite Ho1, Ho2. }
  rewrite (finalize_array a _ arr Hraw Harr), Hres.
  split; [reflexivity|]. cbn. apply (decode_JobItems_length _ _ Harr).
Qed.

(** ** The control loop *)

Lemma itoa_inj (z1 z2 : Z) : itoa z1 = itoa z2 → z1 = z2.
Proof.
  unfold itoa. intros H. apply DecimalZ.to_int_inj.
  assert (Hn : ∀ z, Z.to_int z ≠ Decimal.Pos Decimal.Nil
                    ∧ Z.to_int z ≠ Decimal.Neg Decimal.Nil).
  { intros [|p|p]; split; cbn; try discriminate;
      intros [= Hp]; exact (Unsigned.to_uint_nonnil p Hp). }
  destruct (Hn z1) as [Hp1 Hm1]. destruct (Hn z2) as [Hp2 Hm2].
  pose proof (NilZero.isi _ Hp1 Hm1) as E1.
  pose proof (NilZero.isi _ Hp2 Hm2) as E2.
  rewrite H in E1. rewrite E1 in E2. now injection E2.
Qed.

Lemma string_app_inj_l (p s1 s2 : string) : p +:+ s1 = p +:+ s2 → s1 = s2.
Proof. induction p as [|c p IH]; cbn; [easy|]. intros [= H]. now apply IH. Qed.

(** The keys of two scroll calls differ when the clock readings do. *)
Lemma scroll_keys_differ (a1 a2 : AgentAction) (now1 now2 : Z) :
  Action a1 = "tool" → Tool a1 = "scroll" →
  Action a2 = "tool" → Tool a2 = "scroll" →
  now1 ≠ now2 → action_key a1 now1 ≠ action_key a2 now2.
Proof.
  intros A1 T1 A2 T2 Hne. unfold action_key. rewrite A1, T1, A2, T2. cbn.
  intros [= H]. apply Hne, itoa_inj. exact H.
Qed.

Lemma tool_key (a : AgentAction) (now : Z) :
  Action a = "tool" → Tool a ≠ "scroll" → action_key a now = "tool:" +:+ Tool a.
Proof.
  intros A T. unfold action_key. rewrite A. cbn.
  apply String.eqb_neq in T. now rewrite T.
Qed.

(** A printed integer starts with a digit or a minus sign. *)
Lemma itoa_first (z : Z) :
  ∃ c s, itoa z = String c s ∧ Ascii.eqb c "226"%char = false.
Proof.
  assert (Hu : ∀ d, d ≠ Decimal.Nil →
                    ∃ c s, NilZero.string_of_uint d = String c s
                           ∧ Ascii.eqb c "226"%char = false).
  { intros d Hd. destruct d; try contradiction; cbn; eauto. }
  unfold itoa. destruct z as [|p|p]; cbn.
  - eauto.
  - apply Hu, Unsigned.to_uint_nonnil.
  - eauto.
Qed.

Lemma numbered_line_quiet (z : Z) (rest : string) :
  is_repeated_line (EvPrint (itoa z +:+ rest)) = false.
Proof.
  destruct (itoa_first z) as (c & s & -> & Hc).
  unfold is_repeated_line, repeated_action_line.
  change (String c s +:+ rest) with (String c (s +:+ rest)).
  cbn [String.eqb]. now rewrite Hc.
Qed.

Lemma imap_quiet {A} (l : list A) :
  ∀ f : nat → A → Event,
    (∀ i x, is_repeated_line (f i x) = false) →
    existsb is_repeated_line (imap f l) = false.
Proof.
  induction l as [|x l IH]; intros f Hf; [reflexivity|].
  cbn. rewrite Hf. apply IH. intros i y. apply Hf.
Qed.

Lemma print_listings_quiet (listings : list Listing) :
  existsb is_repeated_line (print_listings listings) = false.
Proof. apply imap_quiet. intros i x. apply numbered_line_quiet. Qed.

Lemma print_results_quiet (results : list JobItem) :
  existsb is_repeated_line (print_results results) = false.
Proof. apply imap_quiet. intros i x. apply numbered_line_quiet. Qed.

Lemma print_listings_prints (listings : list Listing) :
  Forall (fun e => ∃ line, e = EvPrint line) (print_listings listings).
Proof.
  apply Forall_forall. intros e He. unfold print_listings in He.
  apply elem_of_lookup_imap_1 in He. destruct He as (i & x & -> & _). eauto.
Qed.

(** *** Offsets *)

Lemma prefix_length (p : string) :
  ∀ s, String.prefix p s = true → (String.length p ≤ String.length s)%nat.
Proof.
  induction p as [|c p IH]; intros s H; [cbn; lia|].
  destruct s as [|d s]; cbn [String.prefix] in H; [discriminate H|].
  destruct (ascii_dec c d); [|discriminate H].
  apply IH in H. cbn [String.length]. lia.
Qed.

(** An occurrence that [strings.Index] finds lies within the text. *)
Lemma index_from_bound (sub : string) :
  ∀ s i,
    strings.index_from i s sub = (-1)%Z
    ∨ (i <= strings.index_from i s sub
       ∧ strings.index_from i s sub - i + strings.len sub <= strings.len s)%Z.
Proof.
  unfold strings.len.
  induction s as [|c s IH]; intros i; cbn [strings.index_from];
    destruct (String.prefix sub _) eqn:Hp.
  - right. apply prefix_length in Hp. lia.
  - now left.
  - right. apply prefix_length in Hp. lia.
  - destruct (IH (i + 1)%Z) as [E|[H1 H2]]; [now left|right].
    cbn [String.length]. lia.
Qed.

Lemma Index_bound (s sub : string) :
  (0 <= strings.Index s sub)%Z →
  (strings.Index s sub + strings.len sub <= strings.len s)%Z.
Proof.
  unfold strings.Index. intros H.
  destruct (index_from_bound sub s 0) as [E|[_ Hb]]; lia.
Qed.

Section Loop.
Context `{rt : GoRuntime}.

(** *** What an iteration leaves alone *)

Lemma post_process_frame (st st' : State) (c : Control) (ev : list Event) :
  post_process st = (c, st', ev) →
  step st' = step st ∧ task st' = task st ∧ observation st' = observation st
  ∧ lastAction st' = lastAction st ∧ sameActionCount st' = sameActionCount st
  ∧ lastObsSig st' = lastObsSig st ∧ stagnantCount st' = stagnantCount st.
Proof.
  unfold post_process. intros H.
  repeat case_match; simplify_eq; cbn; repeat split; reflexivity.
Qed.

Lemma dispatch_frame (st st' : State) (a : AgentAction) (inp : StepInput)
    (c : Control) (ev : list Event) :
  dispatch st a inp = (c, st', ev) →
  step st' = step st
  ∧ lastAction st' = lastAction st ∧ sameActionCount st' = sameActionCount st.
Proof.
  unfold dispatch, dispatch_tool. intros H.
  repeat case_match; simplify_eq; cbn; try (repeat split; reflexivity);
    match goal with
    | Hp : post_process _ = _ |- _ =>
      apply post_process_frame in Hp; cbn in Hp; intuition congruence
    end.
Qed.

(** After a decision the loop protection holds the key of that decision
    and its streak, whatever the dispatch does. *)
Lemma loop_body_records (st st' : State) (inp : StepInput) (a : AgentAction)
    (c : Control) (ev : list Event) :
  in_decision inp = inr a → loop_body st inp = (c, st', ev) →
  lastAction st' = action_key a (in_now inp)
  ∧ sameActionCount st' = repeat_count st a (in_now inp)
  ∧ step st' = step st.
Proof.
  intros Hd. unfold loop_body. rewrite Hd. fold (repeat_count st a (in_now inp)).
  destruct (2 <=? repeat_count st a (in_now inp))%Z.
  - intros [= <- <- <-]. cbn. auto.
  - destruct (dispatch _ a inp) as [[c0 st0] ev0] eqn:Hdis.
    intros [= <- <- <-]. apply dispatch_frame in Hdis. cbn in Hdis.
    intuition congruence.
Qed.

Lemma loop_body_tripped (st : State) (inp : StepInput) (a : AgentAction) :
  in_decision inp = inr a → (2 <= repeat_count st a (in_now inp))%Z →
  loop_body st inp
  = (Break, recorded st inp a,
     [step_banner st; EvPrintAction a; EvPrint repeated_action_line]).
Proof.
  intros Hd Hc. unfold loop_body. rewrite Hd.
  fold (repeat_count st a (in_now inp)).
  apply Z.leb_le in Hc. now rewrite Hc.
Qed.

Lemma loop_body_dispatched (st : State) (inp : StepInput) (a : AgentAction) :
  in_decision inp = inr a → (repeat_count st a (in_now inp) < 2)%Z →
  loop_body st inp
  = let '(c, st', ev) := dispatch (recorded st inp a) a inp in
    (c, st', step_banner st :: EvPrintAction a :: ev).
Proof.
  intros Hd Hc. unfold loop_body. rewrite Hd.
  fold (repeat_count st a (in_now inp)).
  apply Z.leb_gt in Hc. now rewrite Hc.
Qed.

(** *** No other line is the loop protection's *)

Lemma post_process_quiet (st st' : State) (c : Control) (ev : list Event) :
  post_process st = (c, st', ev) →
  c ≠ Break ∧ existsb is_repeated_line ev = false.
Proof.
  unfold post_process. intros H.
  repeat case_match; simplify_eq; (split; [discriminate|]);
    rewrite ?existsb_app; cbn [existsb is_repeated_line orb];
    rewrite ?print_listings_quiet; reflexivity.
Qed.

Lemma dispatch_tool_quiet (st st' : State) (a : AgentAction) (inp : StepInput)
    (c : Control) (ev : list Event) :
  dispatch_tool st a inp = (c, st', ev) →
  c ≠ Break ∧ existsb is_repeated_line ev = false.
Proof.
  unfold dispatch_tool. intros H.
  repeat case_match; simplify_eq; try (split; [discriminate|reflexivity]).
  all: match goal with
       | Hp : post_process _ = _ |- _ =>
         apply post_process_quiet in Hp; destruct Hp as [Hnb Hq];
           split; [exact Hnb|exact Hq]
       end.
Qed.

(** A scroll call whose key differs from the last one passes the loop
    protection. *)
Lemma scroll_step_passes (st : State) (inp : StepInput) (a : AgentAction) :
  in_decision inp = inr a → Action a = "tool" → Tool a = "scroll" →
  lastAction st ≠ action_key a (in_now inp) →
  ∃ c st' ev,
    loop_body st inp = (c, st', ev) ∧ c ≠ Break
    ∧ lastAction st' = action_key a (in_now inp)
    ∧ existsb is_repeated_line ev = false.
Proof.
  intros Hd Ha Ht Hkey.
  assert (Hc : repeat_count st a (in_now inp) = 0%Z).
  { unfold repeat_count. destruct (String.eqb_spec (action_key a (in_now inp))
                                                    (lastAction st)); congruence. }
  destruct (loop_body st inp) as [[c st'] ev] eqn:Hb.
  exists c, st', ev. split; [reflexivity|].
  destruct (loop_body_records _ _ _ _ _ _ Hd Hb) as (Hl & _ & _).
  rewrite (loop_body_dispatched st inp a Hd) in Hb by lia.
  unfold dispatch in Hb. rewrite Ha in Hb. cbn [String.eqb Ascii.eqb Bool.eqb] in Hb.
  destruct (dispatch_tool _ a inp) as [[c0 st0] ev0] eqn:Hdis.
  injection Hb as <- <- <-.
  apply dispatch_tool_quiet in Hdis. destruct Hdis as [Hnb Hq].
  split; [exact Hnb|]. split; [exact Hl|].
  cbn [existsb]. rewrite Hq. reflexivity.
Qed.

Lemma run_loop_scrolls_quiet (inputs : list StepInput) :
  ∀ st,
    Forall is_scroll_call inputs →
    distinct_readings (map in_now inputs) →
    (∀ inp a, head inputs = Some inp → in_decision inp = inr a →
              lastAction st ≠ action_key a (in_now inp)) →
    existsb is_repeated_line (run_loop st inputs).2 = false.
Proof.
  induction inputs as [|inp rest IH]; intros st Hall Hclock Hfirst.
  - cbn [run_loop]. now destruct (step st <=? MaxSteps)%Z.
  - cbn [run_loop]. destruct (step st <=? MaxSteps)%Z; [|reflexivity].
    apply Forall_cons in Hall. destruct Hall as [(a & Hd & Ha & Ht) Hall].
    destruct (scroll_step_passes st inp a Hd Ha Ht) as (c & st' & ev & Hb & Hnb & Hl & Hq).
    { now apply Hfirst. }
    rewrite Hb. destruct c; try contradiction; cbn [snd]; try exact Hq.
    specialize (IH (set_step st' (step st' + 1)) Hall).
    destruct (run_loop (set_step st' (step st' + 1)) rest) as [[o st''] ev'].
    cbn [snd] in IH |- *. rewrite existsb_app, Hq. cbn [orb].
    apply IH.
    + destruct rest; [exact I|]. cbn in Hclock. tauto.
    + intros inp2 a2 Hh Hd2. cbn [set_step lastAction]. rewrite Hl.
      destruct rest as [|inp2' rest']; [discriminate Hh|].
      cbn in Hh. injection Hh as ->.
      apply Forall_cons in Hall. destruct Hall as [(a2' & Hd2' & Ha2 & Ht2) _].
      rewrite Hd2 in Hd2'. injection Hd2' as <-.
      apply scroll_keys_differ; try assumption. cbn in Hclock. tauto.
Qed.

(** C1: the loop protection.  Of three iterations in a row that decide on
    a tool call with the same tool, other than scroll, the first of which
    follows another decision, the first and the second pass the protection
    (their streaks are 0 and 1, the tool case runs, the loop is not left and
    the repeated-action line is not printed) and the third leaves the loop:
    it prints the repeated-action line and sends nothing to the worker.  A
    script of scroll calls, of any length, never prints that line, as long as
    successive clock readings differ. *)
Theorem repeat_guard :
  (∀ (st s1 s2 : State) (i1 i2 i3 : StepInput) (a1 a2 a3 : AgentAction)
     (tool : string) (c1 c2 : Control) (e1 e2 : list Event),
      in_decision i1 = inr a1 → in_decision i2 = inr a2 → in_decision i3 = inr a3 →
      Action a1 = "tool" → Action a2 = "tool" → Action a3 = "tool" →
      Tool a1 = tool → Tool a2 = tool → Tool a3 = tool → tool ≠ "scroll" →
      lastAction st ≠ "tool:" +:+ tool →
      loop_body st i1 = (c1, s1, e1) →
      loop_body (next_step s1) i2 = (c2, s2, e2) →
      (sameActionCount s1 = 0%Z
       ∧ loop_body st i1
         = (let '(c, s, ev) := dispatch_tool (recorded st i1 a1) a1 i1 in
            (c, s, step_banner st :: EvPrintAction a1 :: ev))
       ∧ c1 ≠ Break ∧ existsb is_repeated_line e1 = false)
      ∧ (sameActionCount s2 = 1%Z
         ∧ loop_body (next_step s1) i2
           = (let '(c, s, ev) :=
                dispatch_tool (recorded (next_step s1) i2 a2) a2 i2 in
              (c, s, step_banner (next_step s1) :: EvPrintAction a2 :: ev))
         ∧ c2 ≠ Break ∧ existsb is_repeated_line e2 = false)
      ∧ loop_body (next_step s2) i3
        = (Break, recorded (next_step s2) i3 a3,
           [step_banner (next_step s2); EvPrintAction a3; EvPrint repeated_action_line])
      ∧ (∀ rest, (step (next_step s2) <= MaxSteps)%Z →
           run_loop (next_step s2) (i3 :: rest)
           = (Stopped, recorded (next_step s2) i3 a3,
              [step_banner (next_step s2); EvPrintAction a3;
               EvPrint repeated_action_line;
               EvPrint "⚠️ Stopped: max steps reached or agent halted."]))
      ∧ (c1 = Continue → c2 = Continue →
         ∀ rest, (step st + 2 <= MaxSteps)%Z →
           run_loop st (i1 :: i2 :: i3 :: rest)
           = (Stopped, recorded (next_step s2) i3 a3,
              (e1 ++ e2
               ++ [step_banner (next_step s2); EvPrintAction a3;
                   EvPrint repeated_action_line;
                   EvPrint "⚠️ Stopped: max steps reached or agent halted."])%list)))
  ∧ (∀ (st : State) (inputs : list StepInput),
      Forall is_scroll_call inputs →
      distinct_readings (map in_now inputs) →
      (∀ inp a, head inputs = Some inp → in_decision inp = inr a →
                lastAction st ≠ action_key a (in_now inp)) →
      existsb is_repeated_line (run_loop st inputs).2 = false).
Proof.
  split; [|intros st inputs; apply run_loop_scrolls_quiet].
  intros st s1 s2 i1 i2 i3 a1 a2 a3 tool c1 c2 e1 e2
         D1 D2 D3 A1 A2 A3 T1 T2 T3 Hns Hfresh B1 B2.
  assert (K : ∀ a now, Action a = "tool" → Tool a = tool →
                       action_key a now = "tool:" +:+ tool).
  { intros a now Ha Ht. rewrite tool_key; congruence. }
  assert (Hban : ∀ s, is_repeated_line (step_banner s) = false) by reflexivity.
  assert (Hpass : ∀ s i a c s' e,
             in_decision i = inr a → Action a = "tool" →
             (repeat_count s a (in_now i) < 2)%Z →
             loop_body s i = (c, s', e) →
             loop_body s i
             = (let '(c, s', ev) := dispatch_tool (recorded s i a) a i in
                (c, s', step_banner s :: EvPrintAction a :: ev))
             ∧ c ≠ Break ∧ existsb is_repeated_line e = false).
  { intros s i a c s' e Hd Ha Hc Hb.
    assert (Hf : loop_body s i
                 = (let '(c, s', ev) := dispatch_tool (recorded s i a) a i in
                    (c, s', step_banner s :: EvPrintAction a :: ev))).
    { rewrite (loop_body_dispatched s i a Hd Hc). unfold dispatch.
      rewrite Ha. reflexivity. }
    split; [exact Hf|]. rewrite Hf in Hb.
    destruct (dispatch_tool (recorded s i a) a i) as [[c0 s0] ev0] eqn:Hdt.
    injection Hb as <- <- <-. apply dispatch_tool_quiet in Hdt.
    destruct Hdt as [Hnb Hq]. split; [exact Hnb|].
    cbn [existsb]. rewrite Hban. exact Hq. }
  assert (R1 : repeat_count st a1 (in_now i1) = 0%Z).
  { unfold repeat_count. rewrite K by assumption.
    destruct (String.eqb_spec ("tool:" +:+ tool) (lastAction st)) as [E|_];
      [now contradiction Hfresh|reflexivity]. }
  destruct (loop_body_records _ _ _ _ _ _ D1 B1) as (L1 & C1 & S1).
  destruct (loop_body_records _ _ _ _ _ _ D2 B2) as (L2 & C2 & S2).
  rewrite K in L1, L2 by assumption.
  assert (R2 : repeat_count (next_step s1) a2 (in_now i2) = 1%Z).
  { unfold repeat_count. cbn [next_step set_step lastAction sameActionCount].
    rewrite K, L1, String.eqb_refl, C1, R1 by assumption. reflexivity. }
  assert (B3 : loop_body (next_step s2) i3
               = (Break, recorded (next_step s2) i3 a3,
                  [step_banner (next_step s2); EvPrintAction a3;
                   EvPrint repeated_action_line])).
  { apply loop_body_tripped; [exact D3|].
    unfold repeat_count. cbn [next_step set_step lastAction sameActionCount].
    rewrite K, L2, String.eqb_refl, C2, R2 by assumption. lia. }
  assert (Hrun : ∀ rest, (step (next_step s2) <= MaxSteps)%Z →
             run_loop (next_step s2) (i3 :: rest)
             = (Stopped, recorded (next_step s2) i3 a3,
                [step_banner (next_step s2); EvPrintAction a3;
                 EvPrint repeated_action_line;
                 EvPrint "⚠️ Stopped: max steps reached or agent halted."])).
  { intros rest Hstep. cbn [run_loop]. apply Z.leb_le in Hstep.
    now rewrite Hstep, B3. }
  split; [|split; [|split; [exact B3|split; [exact Hrun|]]]].
  - split; [now rewrite C1|]. apply (Hpass st i1 a1 c1 s1 e1); try assumption.
    rewrite R1. lia.
  - split; [now rewrite C2|]. apply (Hpass (next_step s1) i2 a2 c2 s2 e2); try assumption.
    rewrite R2. lia.
  - intros -> -> rest Hstep.
    assert (H1 : (step st <=? MaxSteps)%Z = true) by (apply Z.leb_le; lia).
    assert (H2 : (step (next_step s1) <=? MaxSteps)%Z = true).
    { apply Z.leb_le. cbn [next_step set_step step]. lia. }
    assert (H3 : (step (next_step s2) <= MaxSteps)%Z).
    { cbn [next_step set_step step]. rewrite S2. cbn [next_step set_step step]. lia. }
    change (run_loop st (i1 :: i2 :: i3 :: rest))
      with (if (step st <=? MaxSteps)%Z
            then let '(c, st', ev) := loop_body st i1 in
                 match c with
                 | Continue =>
                   let '(o, st'', ev') := run_loop (next_step st') (i2 :: i3 :: rest) in
                   (o, st'', (ev ++ ev')%list)
                 | Break =>
                   (Stopped, st',
                    (ev ++ [EvPrint "⚠️ Stopped: max steps reached or agent halted."])%list)
                 | Return => (Returned, st', ev)
                 | Panic => (Panicked, st', ev)
                 end
            else (Stopped, st, [EvPrint "⚠️ Stopped: max steps reached or agent halted."])).
    rewrite H1, B1.
    change (run_loop (next_step s1) (i2 :: i3 :: rest))
      with (if (step (next_step s1) <=? MaxSteps)%Z
            then let '(c, st', ev) := loop_body (next_step s1) i2 in
                 match c with
                 | Continue =>
                   let '(o, st'', ev') := run_loop (next_step st') (i3 :: rest) in
                   (o, st'', (ev ++ ev')%list)
                 | Break =>
                   (Stopped, st',
                    (ev ++ [EvPrint "⚠️ Stopped: max steps reached or agent halted."])%list)
                 | Return => (Returned, st', ev)
                 | Panic => (Panicked, st', ev)
                 end
            else (Stopped, next_step s1,
                  [EvPrint "⚠️ Stopped: max steps reached or agent halted."])).
    rewrite H2, B2, (Hrun rest H3). reflexivity.
Qed.

(** Along a run neither streak is ever negative. *)
Lemma loop_body_streaks (st st' : State) (inp : StepInput) (c : Control)
    (ev : list Event) :
  (0 <= sameActionCount st)%Z → (0 <= stagnantCount st)%Z →
  loop_body st inp = (c, st', ev) →
  (0 <= sameActionCount st')%Z ∧ (0 <= stagnantCount st')%Z.
Proof.
  intros H1 H2. unfold loop_body, dispatch, dispatch_tool.
  intros H.
  repeat case_match; simplify_eq; cbn; try (split; lia);
    match goal with
    | Hp : post_process _ = _ |- _ =>
      apply post_process_frame in Hp; cbn in Hp;
        destruct Hp as (_ & _ & _ & _ & -> & _ & ->); split; lia
    end.
Qed.

(** *** Tool calls *)

Lemma loop_body_tool (st : State) (inp : StepInput) (a : AgentAction) :
  dispatches_tool st inp a →
  loop_body st inp
  = let '(c, st', ev) := dispatch_tool (recorded st inp a) a inp in
    (c, st', step_banner st :: EvPrintAction a :: ev).
Proof.
  intros (Hd & Ha & _ & Hc). rewrite (loop_body_dispatched st inp a Hd Hc).
  unfold dispatch. rewrite Ha. reflexivity.
Qed.


(** *** The stagnation check *)

Lemma successful_tool_call (st : State) (inp : StepInput) (a : AgentAction)
    (resp : WorkerResp) :
  tool_call_succeeds st inp a resp →
  let sig := obsSignature (Observation resp) in
  let seen := set_observed (recorded st inp a) (Observation resp) sig
                           (stagnant_count st sig) in
  let sent := EvSend (Tool a) (default ∅ (Arguments a)) in
  loop_body st inp
  = if (2 <=? stagnant_count st sig)%Z
    then (Continue, seen,
          [step_banner st; EvPrintAction a; sent; corrective_scroll;
           EvSleep (800 * Millisecond)])
    else let '(c, st', ev) := post_process seen in
         (c, st', step_banner st :: EvPrintAction a :: sent :: ev).
Proof.
  intros (Hdis & Hs & Hok). pose proof Hdis as (_ & _ & Ht & _).
  apply String.eqb_neq in Ht, Hok. cbv zeta.
  rewrite (loop_body_tool st inp a Hdis). unfold dispatch_tool.
  rewrite Ht, Hs, Hok. unfold stagnant_count.
  cbn [recorded set_repeat lastObsSig stagnantCount].
  destruct (2 <=? _)%Z; [reflexivity|].
  destruct (post_process _) as [[c st'] ev]. reflexivity.
Qed.

(** After a successful tool call the stagnation check holds the fingerprint
    of the new observation and its streak. *)
Lemma successful_tool_call_records (st st' : State) (inp : StepInput)
    (a : AgentAction) (resp : WorkerResp) (c : Control) (ev : list Event) :
  tool_call_succeeds st inp a resp → loop_body st inp = (c, st', ev) →
  lastObsSig st' = obsSignature (Observation resp)
  ∧ stagnantCount st' = stagnant_count st (obsSignature (Observation resp)).
Proof.
  intros Hok. rewrite (successful_tool_call st inp a resp Hok). cbv zeta.
  destruct (2 <=? _)%Z.
  - intros [= <- <- <-]. split; reflexivity.
  - destruct (post_process _) as [[c0 st0] ev0] eqn:Hp. intros [= <- <- <-].
    apply post_process_frame in Hp. cbn in Hp. intuition congruence.
Qed.

(** What post-processing does to the outside: it prints, it sends at most
    the fallback navigation, and it sleeps three seconds. *)
Lemma post_process_commands (st st' : State) (c : Control) (ev : list Event) :
  post_process st = (c, st', ev) →
  Forall (fun e => match e with
                   | EvSend _ _ => e = fallback_navigate
                   | EvSleep n => n = (3 * Second)%Z
                   | EvPrint _ => True
                   | _ => False
                   end) ev.
Proof.
  assert (Hl : ∀ listings,
             Forall (fun e => match e with
                              | EvSend _ _ => e = fallback_navigate
                              | EvSleep n => n = (3 * Second)%Z
                              | EvPrint _ => True
                              | _ => False
                              end) (print_listings listings)).
  { intros listings. eapply Forall_impl; [apply print_listings_prints|].
    intros e [line ->]. exact I. }
  unfold post_process. intros H.
  repeat case_match; simplify_eq;
    repeat first [ apply Forall_app; split
                 | apply Forall_cons; split
                 | apply Forall_nil
                 | apply Hl
                 | exact I
                 | reflexivity ].
Qed.

(** A successful tool call whose streak of equal fingerprints is below two
    goes through post-processing, which sends no corrective scroll and does
    not make the pause that follows one. *)
Lemma below_threshold_no_scroll (st : State) (inp : StepInput) (a : AgentAction)
    (resp : WorkerResp) :
  tool_call_succeeds st inp a resp →
  (stagnant_count st (obsSignature (Observation resp)) < 2)%Z →
  ∃ c st' ev,
    post_process (set_observed (recorded st inp a) (Observation resp)
                               (obsSignature (Observation resp))
                               (stagnant_count st (obsSignature (Observation resp))))
    = (c, st', ev)
    ∧ loop_body st inp
      = (c, st', step_banner st :: EvPrintAction a
                   :: EvSend (Tool a) (default ∅ (Arguments a)) :: ev)
    ∧ Forall (fun e => e ≠ corrective_scroll ∧ e ≠ EvSleep (800 * Millisecond)) ev.
Proof.
  intros Hok Hn. rewrite (successful_tool_call st inp a resp Hok). cbv zeta.
  apply Z.leb_gt in Hn. rewrite Hn.
  destruct (post_process _) as [[c st'] ev] eqn:Hp.
  exists c, st', ev. split; [reflexivity|]. split; [reflexivity|].
  apply post_process_commands in Hp.
  eapply Forall_impl; [exact Hp|]. intros e He.
  destruct e; try contradiction; split; try discriminate.
  - rewrite He. discriminate.
  - rewrite He. discriminate.
Qed.

(** C2 (as amended): when a successful tool call brings the streak of
    equal fingerprints to two, as the third of three successful tool calls
    in a row with one fingerprint does, the loop sends exactly one
    corrective scroll, runs no further post-processing (the collection flags
    are untouched, the extractor is not called) and continues.  Below a
    streak of two nothing of this happens: the call is post-processed as
    usual, without corrective scroll; in particular the second of two calls
    in a row with one fingerprint, the first of which changed the
    fingerprint, has a streak of one.  The fingerprint is made of url, title
    and the first 300 bytes of the visible text. *)
Theorem stagnation_guard :
  (∀ (st : State) (inp : StepInput) (a : AgentAction) (resp : WorkerResp),
      tool_call_succeeds st inp a resp →
      (2 <= stagnant_count st (obsSignature (Observation resp)))%Z →
      loop_body st inp
      = (Continue,
         set_observed (recorded st inp a) (Observation resp)
                      (obsSignature (Observation resp))
                      (stagnant_count st (obsSignature (Observation resp))),
         [step_banner st; EvPrintAction a;
          EvSend (Tool a) (default ∅ (Arguments a)); corrective_scroll;
          EvSleep (800 * Millisecond)]))
  ∧ (∀ (st s1 s2 : State) (i1 i2 i3 : StepInput) (a1 a2 a3 : AgentAction)
       (r1 r2 r3 : WorkerResp) (e1 e2 : list Event),
      tool_call_succeeds st i1 a1 r1 →
      tool_call_succeeds (next_step s1) i2 a2 r2 →
      tool_call_succeeds (next_step s2) i3 a3 r3 →
      obsSignature (Observation r1) = obsSignature (Observation r2) →
      obsSignature (Observation r2) = obsSignature (Observation r3) →
      (0 <= stagnantCount st)%Z →
      loop_body st i1 = (Continue, s1, e1) →
      loop_body (next_step s1) i2 = (Continue, s2, e2) →
      ∃ s3,
        loop_body (next_step s2) i3
        = (Continue, s3,
           [step_banner (next_step s2); EvPrintAction a3;
            EvSend (Tool a3) (default ∅ (Arguments a3)); corrective_scroll;
            EvSleep (800 * Millisecond)])
        ∧ searchSubmitted s3 = searchSubmitted s2
        ∧ printedListings s3 = printedListings s2
        ∧ switchedToMoscow s3 = switchedToMoscow s2)
  ∧ (∀ (st : State) (inp : StepInput) (a : AgentAction) (resp : WorkerResp),
      tool_call_succeeds st inp a resp →
      (stagnant_count st (obsSignature (Observation resp)) < 2)%Z →
      ∃ c st' ev,
        post_process (set_observed (recorded st inp a) (Observation resp)
                                   (obsSignature (Observation resp))
                                   (stagnant_count st (obsSignature (Observation resp))))
        = (c, st', ev)
        ∧ loop_body st inp
          = (c, st', step_banner st :: EvPrintAction a
                       :: EvSend (Tool a) (default ∅ (Arguments a)) :: ev)
        ∧ Forall (fun e => e ≠ corrective_scroll ∧ e ≠ EvSleep (800 * Millisecond)) ev)
  ∧ (∀ (st s1 s2 : State) (i1 i2 i3 : StepInput) (a1 a2 a3 : AgentAction)
       (r1 r2 r3 : WorkerResp) (c1 c2 : Control) (e1 e2 : list Event),
      tool_call_succeeds st i1 a1 r1 →
      lastObsSig st ≠ obsSignature (Observation r1) →
      loop_body st i1 = (c1, s1, e1) →
      tool_call_succeeds (next_step s1) i2 a2 r2 →
      obsSignature (Observation r2) = obsSignature (Observation r1) →
      loop_body (next_step s1) i2 = (c2, s2, e2) →
      stagnantCount s1 = 0%Z
      ∧ stagnantCount s2 = 1%Z
      ∧ (∃ ev, e2 = step_banner (next_step s1) :: EvPrintAction a2
                      :: EvSend (Tool a2) (default ∅ (Arguments a2)) :: ev
               ∧ Forall (fun e => e ≠ corrective_scroll
                                  ∧ e ≠ EvSleep (800 * Millisecond)) ev)
      ∧ (tool_call_succeeds (next_step s2) i3 a3 r3 →
         obsSignature (Observation r3) = obsSignature (Observation r1) →
         loop_body (next_step s2) i3
         = (Continue,
            set_observed (recorded (next_step s2) i3 a3) (Observation r3)
                         (obsSignature (Observation r3)) 2,
            [step_banner (next_step s2); EvPrintAction a3;
             EvSend (Tool a3) (default ∅ (Arguments a3)); corrective_scroll;
             EvSleep (800 * Millisecond)]))).
Proof.
  assert (Part1 : ∀ (st : State) (inp : StepInput) (a : AgentAction) (resp : WorkerResp),
             tool_call_succeeds st inp a resp →
             (2 <= stagnant_count st (obsSignature (Observation resp)))%Z →
             loop_body st inp
             = (Continue,
                set_observed (recorded st inp a) (Observation resp)
                             (obsSignature (Observation resp))
                             (stagnant_count st (obsSignature (Observation resp))),
                [step_banner st; EvPrintAction a;
                 EvSend (Tool a) (default ∅ (Arguments a)); corrective_scroll;
                 EvSleep (800 * Millisecond)])).
  { intros st inp a resp Hok Hn.
    rewrite (successful_tool_call st inp a resp Hok). cbv zeta.
    apply Z.leb_le in Hn. now rewrite Hn. }
  split; [exact Part1|]. split; [|split; [exact below_threshold_no_scroll|]].
  - intros st s1 s2 i1 i2 i3 a1 a2 a3 r1 r2 r3 e1 e2 O1 O2 O3 E12 E23 H0 B1 B2.
    destruct (successful_tool_call_records _ _ _ _ _ _ _ O1 B1) as [L1 C1].
    destruct (successful_tool_call_records _ _ _ _ _ _ _ O2 B2) as [L2 C2].
    assert (H1 : (0 <= stagnantCount s1)%Z).
    { rewrite C1. unfold stagnant_count. destruct (String.eqb _ _); lia. }
    assert (H2 : (1 <= stagnantCount s2)%Z).
    { rewrite C2. unfold stagnant_count.
      cbn [next_step set_step lastObsSig stagnantCount].
      rewrite L1, E12, String.eqb_refl. lia. }
    assert (H3 : (2 <= stagnant_count (next_step s2) (obsSignature (Observation r3)))%Z).
    { unfold stagnant_count. cbn [next_step set_step lastObsSig stagnantCount].
      rewrite L2, E23, String.eqb_refl. lia. }
    rewrite (Part1 _ i3 a3 r3 O3 H3).
    eexists. split; [reflexivity|]. repeat split.
  - intros st s1 s2 i1 i2 i3 a1 a2 a3 r1 r2 r3 c1 c2 e1 e2 O1 Hfresh B1 O2 E21 B2.
    destruct (successful_tool_call_records _ _ _ _ _ _ _ O1 B1) as [L1 C1].
    destruct (successful_tool_call_records _ _ _ _ _ _ _ O2 B2) as [L2 C2].
    assert (R1 : stagnant_count st (obsSignature (Observation r1)) = 0%Z).
    { unfold stagnant_count.
      destruct (String.eqb_spec (obsSignature (Observation r1)) (lastObsSig st));
        [now contradiction Hfresh|reflexivity]. }
    assert (R2 : stagnant_count (next_step s1) (obsSignature (Observation r2)) = 1%Z).
    { unfold stagnant_count. cbn [next_step set_step lastObsSig stagnantCount].
      rewrite L1, E21, String.eqb_refl, C1, R1. reflexivity. }
    split; [now rewrite C1|]. split; [now rewrite C2|]. split.
    + destruct (below_threshold_no_scroll (next_step s1) i2 a2 r2 O2)
        as (c & st' & ev & _ & Hb & Hq); [rewrite R2; lia|].
      rewrite Hb in B2. injection B2 as <- <- <-. exists ev. split; [reflexivity|exact Hq].
    + intros O3 E31.
      assert (R3 : stagnant_count (next_step s2) (obsSignature (Observation r3)) = 2%Z).
      { unfold stagnant_count. cbn [next_step set_step lastObsSig stagnantCount].
        rewrite L2, E31, E21, String.eqb_refl, C2, R2. reflexivity. }
      rewrite (Part1 _ i3 a3 r3 O3) by (rewrite R3; lia). now rewrite R3.
Qed.

(** *** Failures of the decision service *)

Lemma set_step_back (st : State) : next_step (set_step st (step st - 1)) = st.
Proof.
  destruct st. unfold next_step, set_step. cbn. f_equal. lia.
Qed.

(** Any decision the loop acts on leaves the step index to the loop
    header. *)
Lemma loop_body_step (st st' : State) (inp : StepInput) (c : Control)
    (ev : list Event) :
  loop_body st inp = (c, st', ev) →
  (∃ msg, in_decision inp = inl msg ∧ is_rate_limit msg = true
          ∧ step st' = (step st - 1)%Z)
  ∨ ((∀ msg, in_decision inp = inl msg → is_rate_limit msg = false)
     ∧ step st' = step st).
Proof.
  destruct (in_decision inp) as [msg|a] eqn:Hd.
  - unfold loop_body. rewrite Hd. destruct (is_rate_limit msg) eqn:Hr.
    + intros [= <- <- <-]. left. exists msg. auto.
    + intros [= <- <- <-]. right. split; [|reflexivity]. now intros ? [= <-].
  - intros Hb. right. split; [intros ? [=]|].
    now destruct (loop_body_records _ _ _ _ _ _ Hd Hb) as (_ & _ & ?).
Qed.

(** C9: a failure of the decision service whose text carries one of the
    rate-limit marks makes the loop wait and run the iteration again with
    the same step index: the waiting time is 60 seconds unless a retry hint
    is parsed, and then the hinted seconds, cut to an integer, plus two.  No
    hint is parsed when the words Please retry in are missing, when no s
    follows them at a positive offset, or when what stands before that s is
    no number; the text behind the words can always be taken.  No other
    iteration that ends with continue keeps the step index, and any other
    failure of the decision service leaves the loop. *)
Theorem rate_limit_retry (st : State) (inp : StepInput) :
  (∀ msg, in_decision inp = inl msg → is_rate_limit msg = true →
     loop_body st inp
     = (Continue, set_step st (step st - 1),
        [step_banner st; EvPrintWaiting (retry_wait msg); EvSleep (retry_wait msg)])
     ∧ next_step (set_step st (step st - 1)) = st
     ∧ ((strings.Index msg "Please retry in " < 0)%Z → retry_wait msg = (60 * Second)%Z)
     ∧ (retry_wait msg = (60 * Second)%Z
        ∨ ∃ seconds, retry_wait msg = wrap64 (wrap64 (seconds + 2) * Second))
     ∧ (∀ tail seconds,
          (0 <= strings.Index msg "Please retry in ")%Z →
          strings.slice_from msg (strings.Index msg "Please retry in " + 16) = Some tail →
          (0 < strings.Index tail "s")%Z →
          strconv_ParseFloat_int
            (strings.TrimSpace (strings.slice_to tail (strings.Index tail "s")))
          = Some seconds →
          retry_wait msg = wrap64 (wrap64 (seconds + 2) * Second))
     ∧ ((0 <= strings.Index msg "Please retry in ")%Z →
        ∃ tail,
          strings.slice_from msg (strings.Index msg "Please retry in " + 16) = Some tail
          ∧ ((strings.Index tail "s" <= 0)%Z → retry_wait msg = (60 * Second)%Z)
          ∧ (strconv_ParseFloat_int
               (strings.TrimSpace (strings.slice_to tail (strings.Index tail "s")))
             = None →
             retry_wait msg = (60 * Second)%Z))
     ∧ (∀ rest, (step st <= MaxSteps)%Z →
          run_loop st (inp :: rest)
          = let '(o, st', ev) := run_loop st rest in
            (o, st',
             ([step_banner st; EvPrintWaiting (retry_wait msg);
               EvSleep (retry_wait msg)] ++ ev)%list)))
  ∧ (∀ msg, in_decision inp = inl msg → is_rate_limit msg = false →
       loop_body st inp = (Break, st, [step_banner st; EvPrint ("LLM error: " +:+ msg)])
       ∧ ∀ rest, (step st <= MaxSteps)%Z → (run_loop st (inp :: rest)).1.1 = Stopped)
  ∧ (∀ st' ev, loop_body st inp = (Continue, st', ev) →
       (∀ msg, in_decision inp = inl msg → is_rate_limit msg = false) →
       step (next_step st') = (step st + 1)%Z).
Proof.
  split; [|split].
  - intros msg Hd Hr.
    assert (Hb : loop_body st inp
                 = (Continue, set_step st (step st - 1),
                    [step_banner st; EvPrintWaiting (retry_wait msg);
                     EvSleep (retry_wait msg)])).
    { unfold loop_body. now rewrite Hd, Hr. }
    split; [exact Hb|]. split; [apply set_step_back|].
    split; [|split; [|split; [|split]]].
    + intros Hi. unfold retry_wait. apply Z.leb_gt in Hi. now rewrite Hi.
    + unfold retry_wait. repeat case_match; eauto.
    + intros tail seconds Hi Ht Hs Hp. unfold retry_wait.
      apply Z.leb_le in Hi. rewrite Hi.
      change (strings.len "Please retry in ") with 16%Z. rewrite Ht.
      apply Z.ltb_lt in Hs. now rewrite Hs, Hp.
    + intros Hi. pose proof (Index_bound _ _ Hi) as Hlen.
      change (strings.len "Please retry in ") with 16%Z in Hlen.
      assert (Hsl : is_Some (strings.slice_from msg
                               (strings.Index msg "Please retry in " + 16))).
      { unfold strings.slice_from.
        replace (0 <=? strings.Index msg "Please retry in " + 16)%Z with true
          by (symmetry; apply Z.leb_le; lia).
        replace (strings.Index msg "Please retry in " + 16 <=? strings.len msg)%Z
          with true by (symmetry; apply Z.leb_le; lia).
        cbn [andb]. eauto. }
      destruct Hsl as [tail Ht]. exists tail. split; [exact Ht|].
      unfold retry_wait. apply Z.leb_le in Hi. rewrite Hi.
      change (strings.len "Please retry in ") with 16%Z. rewrite Ht. split.
      * intros Hs. apply Z.ltb_ge in Hs. now rewrite Hs.
      * intros Hp. rewrite Hp. now destruct (0 <? _)%Z.
    + intros rest Hstep. cbn [run_loop]. apply Z.leb_le in Hstep.
      rewrite Hstep, Hb.
      change (set_step (set_step st (step st - 1))
                       (step (set_step st (step st - 1)) + 1))
        with (next_step (set_step st (step st - 1))).
      rewrite set_step_back. reflexivity.
  - intros msg Hd Hr.
    assert (Hb : loop_body st inp
                 = (Break, st, [step_banner st; EvPrint ("LLM error: " +:+ msg)])).
    { unfold loop_body. now rewrite Hd, Hr. }
    split; [exact Hb|]. intros rest Hstep. cbn [run_loop].
    apply Z.leb_le in Hstep. now rewrite Hstep, Hb.
  - intros st' ev Hb Hno. cbn [next_step set_step step].
    destruct (loop_body_step _ _ _ _ _ Hb) as [(msg & Hd & Hr & _)|[_ Hs]].
    + rewrite (Hno msg Hd) in Hr. discriminate Hr.
    + now rewrite Hs.
Qed.

(** *** Finishing *)

Lemma finish_step (st : State) (inp : StepInput) (a : AgentAction) :
  in_decision inp = inr a → Action a = "finish" → lastAction st ≠ "finish" →
  loop_body st inp
  = (Return, recorded st inp a,
     step_banner st :: EvPrintAction a :: EvPrint ("✅ DONE: " +:+ Summary a)
       :: print_results (Results a)).
Proof.
  intros Hd Ha Hl.
  assert (Hk : action_key a (in_now inp) = "finish").
  { unfold action_key. now rewrite Ha. }
  assert (Hc : repeat_count st a (in_now inp) = 0%Z).
  { unfold repeat_count. rewrite Hk.
    destruct (String.eqb_spec "finish" (lastAction st)); congruence. }
  rewrite (loop_body_dispatched st inp a Hd) by lia.
  unfold dispatch. now rewrite Ha.
Qed.

End Loop.

(** ** The decision pipeline without a summary *)

Lemma decode_members_failed (members : list (string * json)) :
  fold_left decode_action_member members None = None.
Proof. induction members as [|kv members IH]; [reflexivity|exact IH]. Qed.

Lemma decode_members_summary (members : list (string * json)) :
  ∀ a0 spare0 a spare,
    Forall (fun kv => key_matches "summary" (fst kv) = false) members →
    fold_left decode_action_member members (Some (a0, spare0)) = Some (a, spare) →
    SummaryRaw a = SummaryRaw a0 ∧ Summary a = Summary a0.
Proof.
  induction members as [|[k v] members IH]; intros a0 spare0 a spare Hno H.
  - cbn in H. injection H as <- <-. auto.
  - apply Forall_cons in Hno. destruct Hno as [Hk Hno]. cbn [fst] in Hk.
    cbn [fold_left] in H.
    destruct (decode_action_member (Some (a0, spare0)) (k, v)) as [[a1 spare1]|] eqn:Hstep.
    + destruct (IH a1 spare1 a spare Hno H) as [E1 E2]. rewrite E1, E2.
      unfold decode_action_member in Hstep. cbn [fst snd] in Hstep.
      rewrite Hk in Hstep.
      repeat case_match; simplify_eq; try (split; reflexivity);
        match goal with
        | Ho : option_map _ ?x = Some _ |- _ =>
          destruct x; cbn in Ho; simplify_eq; split; reflexivity
        end.
    + rewrite decode_members_failed in H. discriminate H.
Qed.

Lemma normalizeAction_summary (a : AgentAction) (raw : option json) :
  SummaryRaw (normalizeAction a raw) = SummaryRaw a
  ∧ Summary (normalizeAction a raw) = Summary a
  ∧ Results (normalizeAction a raw) = Results a.
Proof.
  unfold normalizeAction. repeat case_match; cbn; repeat split; reflexivity.
Qed.

Section Finish.
Context `{rt : GoRuntime}.

(** C10: without a summary member finalisation returns the action as it
    is, so a finish decision decoded from such a text has the empty summary
    and the success line is printed with nothing after its prefix; the
    summary "Done." comes out of finalisation only for a payload that is
    present and is that very string, or is neither a string nor an array of
    record-shaped objects. *)
Theorem missing_summary_prints_empty :
  (∀ a, SummaryRaw a = None → finalizeActionFields a = a)
  ∧ (∀ members a,
       Forall (fun kv => key_matches "summary" (fst kv) = false) members →
       decideNextAction_decoded (JObject members) = Some a →
       SummaryRaw a = None ∧ Summary a = ""
       ∧ ∀ st inp,
           in_decision inp = inr a → Action a = "finish" →
           lastAction st ≠ "finish" →
           loop_body st inp
           = (Return, recorded st inp a,
              step_banner st :: EvPrintAction a :: EvPrint "✅ DONE: "
                :: print_results (Results a)))
  ∧ (∀ a, Summary a = "" → Summary (finalizeActionFields a) = "Done." →
       ∃ raw, SummaryRaw a = Some raw
              ∧ (raw = JString "Done."
                 ∨ ((∀ s, raw ≠ JString s)
                    ∧ ∀ items, raw = JArray items →
                               forallb record_shaped items = false))).
Proof.
  split; [|split].
  - intros a H. unfold finalizeActionFields. now rewrite H.
  - intros members a Hno H. unfold decideNextAction_decoded in H.
    destruct (unmarshal_AgentAction (JObject members)) as [a0|] eqn:Hdec;
      [|discriminate H].
    injection H as <-. cbn [unmarshal_AgentAction] in Hdec.
    destruct (fold_left decode_action_member members (Some (zero_action, [])))
      as [[a1 spare]|] eqn:Hfold; [|discriminate Hdec].
    cbn in Hdec. injection Hdec as ->.
    destruct (decode_members_summary members zero_action [] a0 spare Hno Hfold)
      as [R0 S0].
    cbn [zero_action SummaryRaw Summary] in R0, S0.
    destruct (normalizeAction_summary a0 (Some (JObject members))) as (R1 & S1 & _).
    assert (Hfin : finalizeActionFields (normalizeAction a0 (Some (JObject members)))
                   = normalizeAction a0 (Some (JObject members))).
    { unfold finalizeActionFields. now rewrite R1, R0. }
    rewrite Hfin. split; [congruence|]. split; [congruence|].
    intros st inp Hd Ha Hl. rewrite (finish_step st inp _ Hd Ha Hl).
    now rewrite S1, S0.
  - intros a Hs Hdone. unfold finalizeActionFields in Hdone.
    destruct (SummaryRaw a) as [raw|]; [|rewrite Hs in Hdone; discriminate Hdone].
    exists raw. split; [reflexivity|].
    destruct raw as [|b|lit|s|items|members]; cbn in Hdone;
      try (right; split; [intros ? [=]|intros ? [=]]; fail).
    + left. now f_equal.
    + right. split; [intros ? [=]|]. intros items' [= <-].
      destruct (decode_JobItems items) as [arr|] eqn:Harr.
      * cbn in Hdone. discriminate Hdone.
      * destruct (forallb record_shaped items) eqn:Hshape; [|reflexivity].
        destruct (decode_JobItems_shaped items Hshape) as [arr Harr'].
        rewrite Harr in Harr'. discriminate Harr'.
Qed.

End Finish.

(** ** Starting the worker *)

(** When the worker process has been started and its first line cannot be
    read, does not decode, or reports a status other than ok, func main
    panics having done nothing but start the process: no command has been
    sent and the process has not been killed. *)
Lemma failed_handshake_panics `{rt : GoRuntime} (start : StartInput)
    (task_line : string) (inputs : list StepInput) :
  stdin_pipe_err start = None → stdout_pipe_err start = None →
  start_err start = None →
  ((∃ err, hello_line start = inl err)
   ∨ (∃ err, hello_decoded start = inl err)
   ∨ (∃ hello, hello_decoded start = inr hello ∧ Status hello ≠ "ok")) →
  main start task_line inputs = (Panicked, [EvSpawn]).
Proof.
  intros H1 H2 H3 H. unfold main, StartPyWorker. rewrite H1, H2, H3.
  destruct (hello_line start) as [err|line]; [reflexivity|].
  destruct H as [[err H]|[[err H]|(hello & H & Hs)]]; [discriminate H|..];
    rewrite H; [reflexivity|].
  apply String.eqb_neq in Hs. now rewrite Hs.
Qed.

(** ** The theorems at sample conversations *)

Lemma finalize_summary_coercion_witness :
  Summary (finalizeActionFields summary_two_jobs) = "Found 2 jobs."
  ∧ length (Results (finalizeActionFields summary_two_jobs)) = 2%nat.
Proof.
  refine (proj2 (proj2 (proj2 (proj2
            (finalize_summary_coercion summary_two_jobs _ eq_refl)))) _ _ eq_refl _ _ _);
    reflexivity.
Defined.

(** C5 as stated fails: a summary member that is JSON null is neither a
    string nor an array, and the summary stays empty instead of "Done.". *)
Lemma summary_null_counterexample :
  ∃ a, decideNextAction_decoded finish_null = Some a
       ∧ SummaryRaw a = Some JNull
       ∧ (∀ s, JNull ≠ JString s) ∧ (∀ items, JNull ≠ JArray items)
       ∧ Summary a = "" ∧ Summary a ≠ "Done.".
Proof.
  eexists. split; [vm_compute; reflexivity|].
  repeat split; try discriminate; intros; discriminate.
Qed.

Lemma repeat_guard_witness :
  ((@loop_body basic_runtime (initial_state "click it")
      (tool_step "click" 1 (SendResp resp_ok))).1.1 = Continue
   ∧ sameActionCount one_click_state = 0%Z)
  ∧ ((@loop_body basic_runtime one_click_state
        (tool_step "click" 2 (SendResp resp_ok))).1.1 = Continue
     ∧ sameActionCount three_clicks_state = 1%Z)
  ∧ @loop_body basic_runtime three_clicks_state (tool_step "click" 3 (SendResp resp_ok))
    = (Break,
       recorded three_clicks_state (tool_step "click" 3 (SendResp resp_ok))
                (tool_action "click"),
       [step_banner three_clicks_state; EvPrintAction (tool_action "click");
        EvPrint repeated_action_line])
  ∧ (@run_loop basic_runtime (initial_state "click it")
       [tool_step "click" 1 (SendResp resp_ok);
        tool_step "click" 2 (SendResp resp_ok);
        tool_step "click" 3 (SendResp resp_ok)]).1.1 = Stopped
  ∧ existsb is_repeated_line
      (@run_loop basic_runtime (initial_state "scroll down")
                 [tool_step "scroll" 1 (SendResp resp_ok);
                  tool_step "scroll" 2 (SendResp resp_ok);
                  tool_step "scroll" 3 (SendResp resp_ok);
                  tool_step "scroll" 4 (SendResp resp_ok)]).2 = false.
Proof.
  destruct (proj1 (@repeat_guard basic_runtime)
              (initial_state "click it")
              (@loop_body basic_runtime (initial_state "click it")
                          (tool_step "click" 1 (SendResp resp_ok))).1.2
              (@loop_body basic_runtime one_click_state
                          (tool_step "click" 2 (SendResp resp_ok))).1.2
              (tool_step "click" 1 (SendResp resp_ok))
              (tool_step "click" 2 (SendResp resp_ok))
              (tool_step "click" 3 (SendResp resp_ok))
              (tool_action "click") (tool_action "click") (tool_action "click")
              "click" Continue Continue
              (@loop_body basic_runtime (initial_state "click it")
                          (tool_step "click" 1 (SendResp resp_ok))).2
              (@loop_body basic_runtime one_click_state
                          (tool_step "click" 2 (SendResp resp_ok))).2
              eq_refl eq_refl eq_refl eq_refl eq_refl eq_refl eq_refl eq_refl eq_refl
              ltac:(discriminate) ltac:(vm_compute; discriminate)
              ltac:(vm_compute; reflexivity) ltac:(vm_compute; reflexivity))
    as ((C1 & _) & (C2 & _) & B3 & _ & Hrun).
  split; [split; [vm_compute; reflexivity|exact C1]|].
  split; [split; [vm_compute; reflexivity|exact C2]|].
  split; [exact B3|]. split.
  - rewrite (Hrun eq_refl eq_refl [] ltac:(vm_compute; discriminate)). reflexivity.
  - apply (proj2 (@repeat_guard basic_runtime)).
    + repeat (apply Forall_cons; split; [eexists; repeat split|]). apply Forall_nil. exact I.
    + cbn. repeat split; discriminate.
    + intros inp a [= <-] [= <-]. vm_compute. discriminate.
Defined.

(** The fingerprint reads bytes, not characters: two texts that agree on
    their first 300 bytes and differ in their 151st character have one
    fingerprint. *)
Lemma fingerprint_counts_bytes :
  obsSignature {[ "visible_text" := JString (long_cyrillic +:+ "a") ]}
  = obsSignature {[ "visible_text" := JString (long_cyrillic +:+ "b") ]}
  ∧ utf8.RuneCountInString long_cyrillic = 150%Z
  ∧ strings.len long_cyrillic = 300%Z.
Proof. repeat split; vm_compute; reflexivity. Qed.

Lemma stagnation_guard_witness :
  stagnantCount one_call_state = 0%Z
  ∧ stagnantCount three_calls_state = 1%Z
  ∧ (∃ ev, (@loop_body basic_runtime one_call_state
              (tool_step "click" 2 (SendResp resp_ok))).2
           = step_banner one_call_state :: EvPrintAction (tool_action "click")
               :: EvSend "click" ∅ :: ev
           ∧ Forall (fun e => e ≠ corrective_scroll
                              ∧ e ≠ EvSleep (800 * Millisecond)) ev)
  ∧ @loop_body basic_runtime three_calls_state (tool_step "type" 3 (SendResp resp_ok))
    = (Continue,
       set_observed (recorded three_calls_state (tool_step "type" 3 (SendResp resp_ok))
                              (tool_action "type"))
                    obs_example (obsSignature obs_example) 2,
       [step_banner three_calls_state; EvPrintAction (tool_action "type");
        EvSend "type" ∅; corrective_scroll; EvSleep (800 * Millisecond)]).
Proof.
  assert (Hok : ∀ st tool now,
             (@repeat_count st (tool_action tool) now < 2)%Z → tool ≠ "" →
             tool_call_succeeds st (tool_step tool now (SendResp resp_ok))
                                (tool_action tool) resp_ok).
  { intros st tool now Hc Ht. repeat split; [exact Ht|exact Hc|discriminate]. }
  destruct (proj2 (proj2 (proj2 (@stagnation_guard basic_runtime)))
              (initial_state "fill the form")
              (@loop_body basic_runtime (initial_state "fill the form")
                          (tool_step "navigate" 1 (SendResp resp_ok))).1.2
              (@loop_body basic_runtime one_call_state
                          (tool_step "click" 2 (SendResp resp_ok))).1.2
              (tool_step "navigate" 1 (SendResp resp_ok))
              (tool_step "click" 2 (SendResp resp_ok))
              (tool_step "type" 3 (SendResp resp_ok))
              (tool_action "navigate") (tool_action "click") (tool_action "type")
              resp_ok resp_ok resp_ok
              (@loop_body basic_runtime (initial_state "fill the form")
                          (tool_step "navigate" 1 (SendResp resp_ok))).1.1
              (@loop_body basic_runtime one_call_state
                          (tool_step "click" 2 (SendResp resp_ok))).1.1
              (@loop_body basic_runtime (initial_state "fill the form")
                          (tool_step "navigate" 1 (SendResp resp_ok))).2
              (@loop_body basic_runtime one_call_state
                          (tool_step "click" 2 (SendResp resp_ok))).2
              ltac:(apply Hok; [vm_compute; reflexivity|discriminate])
              ltac:(vm_compute; discriminate)
              ltac:(vm_compute; reflexivity)
              ltac:(apply Hok; [vm_compute; reflexivity|discriminate])
              eq_refl
              ltac:(vm_compute; reflexivity))
    as (C1 & C2 & Hq & H3).
  split; [exact C1|]. split; [exact C2|]. split; [exact Hq|].
  apply H3; [|reflexivity].
  apply Hok; [vm_compute; reflexivity|discriminate].
Defined.

(** C2 as stated fails: two successful tool calls in a row with one
    fingerprint bring the streak to one only, and no corrective scroll is
    sent. *)
Lemma stagnation_after_two_counterexample :
  obsSignature (Observation resp_ok) = obsSignature (Observation resp_ok)
  ∧ (@run_loop basic_runtime (initial_state "fill the form")
               [tool_step "navigate" 1 (SendResp resp_ok);
                tool_step "click" 2 (SendResp resp_ok)]).1.1 = Pending
  ∧ count_sends "navigate"
      (@run_loop basic_runtime (initial_state "fill the form")
                 [tool_step "navigate" 1 (SendResp resp_ok);
                  tool_step "click" 2 (SendResp resp_ok)]).2 = 1%nat
  ∧ count_sends "click"
      (@run_loop basic_runtime (initial_state "fill the form")
                 [tool_step "navigate" 1 (SendResp resp_ok);
                  tool_step "click" 2 (SendResp resp_ok)]).2 = 1%nat
  ∧ count_sends "scroll"
      (@run_loop basic_runtime (initial_state "fill the form")
                 [tool_step "navigate" 1 (SendResp resp_ok);
                  tool_step "click" 2 (SendResp resp_ok)]).2 = 0%nat
  ∧ stagnantCount
      (@run_loop basic_runtime (initial_state "fill the form")
                 [tool_step "navigate" 1 (SendResp resp_ok);
                  tool_step "click" 2 (SendResp resp_ok)]).1.2 = 1%Z.
Proof. repeat split; vm_compute; reflexivity. Qed.


Lemma rate_limit_retry_witness :
  @loop_body basic_runtime (initial_state "find jobs") (error_step quota_message)
  = (Continue, set_step (initial_state "find jobs") 0,
     [step_banner (initial_state "find jobs");
      EvPrintWaiting (@retry_wait basic_runtime quota_message);
      EvSleep (@retry_wait basic_runtime quota_message)])
  ∧ @retry_wait basic_runtime quota_message = (58 * Second)%Z
  ∧ @retry_wait basic_runtime hint_without_number = (60 * Second)%Z.
Proof.
  split; [|split].
  - refine (proj1 (proj1 (@rate_limit_retry basic_runtime (initial_state "find jobs")
                            (error_step quota_message)) quota_message eq_refl _)).
    vm_compute. reflexivity.
  - vm_compute. reflexivity.
  - destruct (proj1 (@rate_limit_retry basic_runtime (initial_state "find jobs")
                       (error_step hint_without_number))
                hint_without_number eq_refl ltac:(vm_compute; reflexivity))
      as (_ & _ & _ & _ & _ & Hhint & _).
    destruct Hhint as (tail & Ht & _ & Hnone); [vm_compute; discriminate|].
    apply Hnone. vm_compute in Ht. injection Ht as <-. vm_compute. reflexivity.
Defined.

Lemma missing_summary_prints_empty_witness :
  @loop_body basic_runtime (initial_state "find jobs") (decided_step bare_finish)
  = (Return,
     recorded (initial_state "find jobs") (decided_step bare_finish) bare_finish,
     [step_banner (initial_state "find jobs"); EvPrintAction bare_finish;
      EvPrint "✅ DONE: "]).
Proof.
  refine (proj2 (proj2 (proj1 (proj2 (@missing_summary_prints_empty basic_runtime))
                          [ ("action", JString "finish") ] bare_finish _ _))
                (initial_state "find jobs") (decided_step bare_finish)
                eq_refl eq_refl _).
  - apply Forall_cons. split; [reflexivity|]. apply Forall_nil. exact I.
  - vm_compute. reflexivity.
  - discriminate.
Defined.

(** The whole pipeline on the texts of the two finish decisions *)
Example decided_two_jobs :
  ∃ a, decideNextAction_decoded finish_two_jobs = Some a
       ∧ Summary a = "Found 2 jobs." ∧ length (Results a) = 2%nat.
Proof. eexists. split; [vm_compute; reflexivity|]. split; reflexivity. Qed.

(** A results member that comes twice is decoded into the records that
    are there: a field the second record does not name keeps the value of
    the first. *)
Example decided_results_twice :
  decideNextAction_decoded finish_results_twice
  = Some (set_Results bare_finish [ {| JobTitle := "C"; CompanyName := "B" |} ]).
Proof. vm_compute. reflexivity. Qed.

Example decided_bare_finish : decideNextAction_decoded finish_bare = Some bare_finish.
Proof. vm_compute. reflexivity. Qed.

(** A whole run: the worker starts, the decision service asks for the same
    click three times.  Two clicks reach the worker, the third trips the loop
    protection, and the deferred stop sends exit and kills the process. *)
Example main_three_clicks :
  (@main basic_runtime start_ok "click it"
         [tool_step "click" 1 (SendResp resp_ok);
          tool_step "click" 2 (SendResp resp_ok);
          tool_step "click" 3 (SendResp resp_ok)]).1 = Stopped
  ∧ count_sends "click"
      (@main basic_runtime start_ok "click it"
             [tool_step "click" 1 (SendResp resp_ok);
              tool_step "click" 2 (SendResp resp_ok);
              tool_step "click" 3 (SendResp resp_ok)]).2 = 2%nat
  ∧ existsb is_repeated_line
      (@main basic_runtime start_ok "click it"
             [tool_step "click" 1 (SendResp resp_ok);
              tool_step "click" 2 (SendResp resp_ok);
              tool_step "click" 3 (SendResp resp_ok)]).2 = true
  ∧ last (@main basic_runtime start_ok "click it"
                [tool_step "click" 1 (SendResp resp_ok);
                 tool_step "click" 2 (SendResp resp_ok);
                 tool_step "click" 3 (SendResp resp_ok)]).2 = Some EvKill.
Proof. repeat split; vm_compute; reflexivity. Qed.

(** C7 on the code: the worker answers its start with status error.  Func
    main panics with the error of StartPyWorker; the process was started, no
    command was sent to it, and it was not killed. *)
Theorem refused_handshake_leaves_worker :
  StartPyWorker start_refused = (Some "worker did not start: no browser", [EvSpawn])
  ∧ @main basic_runtime start_refused "find jobs" [] = (Panicked, [EvSpawn])
  ∧ existsb (fun e => match e with EvKill | EvSend _ _ => true | _ => false end)
            [EvSpawn] = false.
Proof. repeat split. Qed.


(** * Further properties *)

(** ** More on the listing extractor *)

Section ExtractorMore.
Context `{rt : GoRuntime}.

Lemma extract_unfold (visible : string) (want : Z) :
  ExtractListingsFromVisibleText visible want
  = match extractor_lines visible with
    | None => None
    | Some lines =>
      if (want <? 0)%Z || (max_Listing_cap <? want)%Z then None
      else Some (extract_loop want lines [] ∅)
    end.
Proof.
  unfold ExtractListingsFromVisibleText, extractor_lines.
  destruct (if (0 <=? _)%Z then _ else _); reflexivity.
Qed.

Lemma find_company_found (window : list string) :
  find_company window = "" 
  ∨ (In (find_company window) window ∧ isLikelyCompany (find_company window) = true).
Proof.
  induction window as [|l window IH]; [now left|].
  cbn [find_company]. destruct (isLikelyCompany l) eqn:Hl.
  - right. split; [now left|exact Hl].
  - destruct IH as [IH|[IH1 IH2]]; [now left|right]. split; [now right|exact IH2].
Qed.

Lemma extract_loop_classified (want : Z) (lines : list string) :
  ∀ found seen,
    Forall classified found → Forall classified (extract_loop want lines found seen).
Proof.
  induction lines as [|title rest IH]; intros found seen Hf; [exact Hf|].
  cbn [extract_loop].
  destruct (contains_any _ title_badTitle); [now apply IH|].
  destruct (isLikelyTitle title) eqn:Ht; cbn [negb]; [|now apply IH].
  destruct (String.eqb_spec (find_company (take 6 rest)) "") as [He|He]; [now apply IH|].
  case_decide; [now apply IH|].
  assert (Hf' : Forall classified
                  (found ++ [ {| Title := title;
                                 Company := find_company (take 6 rest) |} ])%list).
  { apply Forall_app. split; [exact Hf|]. apply Forall_singleton. split; [exact Ht|].
    destruct (find_company_found (take 6 rest)) as [Hz|[_ Hc]]; [contradiction|exact Hc]. }
  destruct (want <=? _)%Z; [exact Hf'|now apply IH].
Qed.

Lemma extract_loop_paired (want : Z) (lines : list string) :
  ∀ done found seen,
    Forall (paired_in (done ++ lines)%list) found →
    sublist (map Title found) done →
    Forall (paired_in (done ++ lines)%list) (extract_loop want lines found seen)
    ∧ sublist (map Title (extract_loop want lines found seen)) (done ++ lines)%list.
Proof.
  induction lines as [|title rest IH]; intros done found seen Hf Hs.
  - cbn [extract_loop]. split; [exact Hf|]. now apply sublist_inserts_r.
  - assert (Hskip : Forall (paired_in (done ++ title :: rest)%list)
                      (extract_loop want rest found seen)
                    ∧ sublist (map Title (extract_loop want rest found seen))
                              (done ++ title :: rest)%list).
    { replace (done ++ title :: rest)%list with ((done ++ [title]) ++ rest)%list in *
        by now rewrite <- app_assoc.
      apply IH; [exact Hf|]. now apply sublist_inserts_r. }
    cbn [extract_loop].
    destruct (contains_any _ title_badTitle); [exact Hskip|].
    destruct (isLikelyTitle title); cbn [negb]; [|exact Hskip].
    destruct (String.eqb_spec (find_company (take 6 rest)) "") as [He|He]; [exact Hskip|].
    case_decide; [exact Hskip|]. clear Hskip.
    set (rec := {| Title := title; Company := find_company (take 6 rest) |}).
    assert (Hf' : Forall (paired_in (done ++ title :: rest)%list) (found ++ [rec])%list).
    { apply Forall_app. split; [exact Hf|]. apply Forall_singleton.
      exists done, rest. split; [reflexivity|].
      destruct (find_company_found (take 6 rest)) as [Hz|[Hin _]]; [contradiction|exact Hin]. }
    assert (Hs' : sublist (map Title (found ++ [rec])%list) (done ++ [title])%list).
    { rewrite map_app. apply sublist_app; [exact Hs|reflexivity]. }
    destruct (want <=? _)%Z.
    + split; [exact Hf'|].
      replace (done ++ title :: rest)%list with ((done ++ [title]) ++ rest)%list
        by now rewrite <- app_assoc.
      now apply sublist_inserts_r.
    + replace (done ++ title :: rest)%list with ((done ++ [title]) ++ rest)%list in *
        by now rewrite <- app_assoc.
      now apply IH.
Qed.

Lemma extract_loop_extends (want : Z) (lines : list string) :
  ∀ found seen, ∃ more, extract_loop want lines found seen = (found ++ more)%list.
Proof.
  induction lines as [|title rest IH]; intros found seen.
  - exists []. cbn. now rewrite app_nil_r.
  - cbn [extract_loop].
    destruct (contains_any _ title_badTitle); [apply IH|].
    destruct (isLikelyTitle title); cbn [negb]; [|apply IH].
    destruct (String.eqb (find_company (take 6 rest)) ""); [apply IH|].
    case_decide; [apply IH|].
    destruct (want <=? _)%Z.
    + eexists. reflexivity.
    + destruct (IH (found ++ [ {| Title := title;
                                  Company := find_company (take 6 rest) |} ])%list
                   ({[ strings.ToLower title +:+ "|"
                       +:+ strings.ToLower (find_company (take 6 rest)) ]} ∪ seen))
        as [more Hm].
      rewrite Hm. rewrite <- app_assoc. eexists. reflexivity.
Qed.

Lemma extract_loop_take (n m : Z) (lines : list string) :
  (n <= m)%Z →
  ∀ found seen,
    (Z.of_nat (length found) < n)%Z →
    extract_loop n lines found seen
    = take (Z.to_nat n) (extract_loop m lines found seen).
Proof.
  intros Hnm. induction lines as [|title rest IH]; intros found seen Hlen.
  - cbn [extract_loop]. rewrite take_ge; [reflexivity|lia].
  - cbn [extract_loop].
    destruct (contains_any _ title_badTitle); [now apply IH|].
    destruct (isLikelyTitle title); cbn [negb]; [|now apply IH].
    destruct (String.eqb (find_company (take 6 rest)) ""); [now apply IH|].
    case_decide; [now apply IH|].
    set (found' := (found ++ [ {| Title := title;
                                  Company := find_company (take 6 rest) |} ])%list).
    assert (Hl : length found' = S (length found)).
    { unfold found'. rewrite length_app. cbn. lia. }
    destruct (n <=? Z.of_nat (length found'))%Z eqn:Hn.
    + apply Z.leb_le in Hn.
      assert (Hexact : Z.to_nat n = length found') by lia.
      destruct (m <=? Z.of_nat (length found'))%Z.
      * rewrite take_ge; [reflexivity|lia].
      * destruct (extract_loop_extends m rest found'
                    ({[ strings.ToLower title +:+ "|"
                        +:+ strings.ToLower (find_company (take 6 rest)) ]} ∪ seen))
          as [more Hm].
        rewrite Hm, Hexact. now rewrite take_app_length.
    + apply Z.leb_gt in Hn.
      destruct (m <=? Z.of_nat (length found'))%Z eqn:Hm; [apply Z.leb_le in Hm; lia|].
      apply IH. lia.
Qed.

Lemma clean_lines_clean (linesRaw : list string) :
  Forall clean_line (clean_lines linesRaw).
Proof.
  induction linesRaw as [|l rest IH]; [constructor|].
  cbn [clean_lines].
  destruct (String.eqb_spec (normalizeSpaces l) "") as [He|He]; [exact IH|].
  destruct (120 <? _)%Z eqn:Hlen; [exact IH|].
  constructor; [|exact IH].
  split; [exact He|]. split; [apply Z.ltb_ge in Hlen; exact Hlen|].
  apply normalizeSpaces_no_double_space.
Qed.

Lemma paired_in_lines (lines : list string) (rec : Listing) :
  paired_in lines rec → In (Title rec) lines ∧ In (Company rec) lines.
Proof.
  intros (pre & post & -> & Hc). split.
  - apply in_app_iff. right. now left.
  - apply in_app_iff. right. right.
    apply list_elem_of_In. apply list_elem_of_In in Hc.
    exact (subseteq_take 6 post _ Hc).
Qed.

(** X1: whatever the extractor returns has been classified: the title of
    every record passes isLikelyTitle and its company passes
    isLikelyCompany. *)
Theorem extracted_records_are_classified (visible : string) (want : Z)
    (found : list Listing) :
  ExtractListingsFromVisibleText visible want = Some found →
  Forall classified found.
Proof.
  rewrite extract_unfold. destruct (extractor_lines visible) as [lines|]; [|discriminate].
  destruct ((want <? 0)%Z || (max_Listing_cap <? want)%Z); [discriminate|].
  intros [= <-].
  apply extract_loop_classified. constructor.
Qed.

(** X2: every record is read off the cleaned lines of the text: its title
    is one of them, its company is one of the six lines that follow that
    title, and the titles come in the order of the text. *)
Theorem extracted_records_follow_the_text (visible : string) (want : Z)
    (found : list Listing) :
  ExtractListingsFromVisibleText visible want = Some found →
  ∃ lines, extractor_lines visible = Some lines
           ∧ Forall (paired_in lines) found
           ∧ sublist (map Title found) lines.
Proof.
  rewrite extract_unfold. destruct (extractor_lines visible) as [lines|]; [|discriminate].
  destruct ((want <? 0)%Z || (max_Listing_cap <? want)%Z); [discriminate|].
  intros [= <-].
  exists lines. split; [reflexivity|].
  apply (extract_loop_paired want lines [] [] ∅); [constructor|]. cbn. constructor.
Qed.

(** X3: asking for fewer records gives a prefix: whenever the extractor
    returns for a count m, it returns for every count n with 1 <= n <= m as
    well, and its result for n is the first n records of its result for
    m. *)
Theorem extract_fewer_is_prefix (visible : string) (n m : Z) (found : list Listing) :
  (1 <= n)%Z → (n <= m)%Z →
  ExtractListingsFromVisibleText visible m = Some found →
  ExtractListingsFromVisibleText visible n = Some (take (Z.to_nat n) found).
Proof.
  intros Hn Hnm. rewrite !extract_unfold.
  destruct (extractor_lines visible) as [lines|]; [|discriminate].
  destruct ((m <? 0)%Z || (max_Listing_cap <? m)%Z) eqn:Hm; [discriminate|].
  intros [= <-]. apply orb_false_elim in Hm. destruct Hm as [_ Hm].
  apply Z.ltb_ge in Hm.
  assert (Hn0 : (n <? 0)%Z = false) by (apply Z.ltb_ge; lia).
  assert (Hn1 : (max_Listing_cap <? n)%Z = false) by (apply Z.ltb_ge; lia).
  rewrite Hn0, Hn1. cbn [orb]. f_equal.
  apply extract_loop_take; [exact Hnm|]. cbn. lia.
Qed.

(** X4: both fields of every returned record are cleaned lines: not
    empty, at most 120 code points long, and without two spaces in a row. *)
Theorem extracted_fields_are_clean (visible : string) (want : Z)
    (found : list Listing) :
  ExtractListingsFromVisibleText visible want = Some found →
  Forall (fun rec => clean_line (Title rec) ∧ clean_line (Company rec)) found.
Proof.
  rewrite extract_unfold.
  destruct (extractor_lines visible) as [lines|] eqn:Hlines; [|discriminate].
  destruct ((want <? 0)%Z || (max_Listing_cap <? want)%Z); [discriminate|].
  intros [= <-].
  assert (Hclean : Forall clean_line lines).
  { unfold extractor_lines in Hlines.
    destruct (if (0 <=? _)%Z then _ else _); [|discriminate Hlines].
    injection Hlines as <-. apply clean_lines_clean. }
  destruct (extract_loop_paired want lines [] [] ∅) as [Hp _]; [constructor|constructor|].
  cbn [app] in Hp. rewrite Forall_forall in Hclean.
  eapply Forall_impl; [exact Hp|]. intros rec Hrec.
  destruct (paired_in_lines _ _ Hrec) as [Ht Hc].
  split; apply Hclean; apply list_elem_of_In; assumption.
Qed.

(** X5: the loop over mustHaveRole in isLikelyTitle never rejects a line:
    a line that mentions engineer or its Russian form already contains the
    first entries of that vocabulary, and a line that mentions neither was
    rejected before; developer, scientist and the other roles alone do not
    make a title. *)
Theorem isLikelyTitle_roles_redundant (s : string) :
  isLikelyTitle s = isLikelyTitle_without_roles s.
Proof.
  unfold isLikelyTitle, isLikelyTitle_without_roles.
  destruct (String.eqb (normalizeSpaces s) ""); [reflexivity|].
  destruct (contains_any _ title_badTitle); [reflexivity|].
  destruct (strings.Contains _ "engineer") eqn:H1.
  - cbn [orb negb]. unfold contains_any at 1, mustHaveRole. cbn [existsb].
    rewrite H1. reflexivity.
  - destruct (strings.Contains _ "инженер") eqn:H2; [|reflexivity].
    cbn [orb negb]. unfold contains_any at 1, mustHaveRole. cbn [existsb].
    rewrite H1, H2. reflexivity.
Qed.

End ExtractorMore.

Lemma extracted_records_are_classified_witness :
  Forall (@classified basic_runtime)
         [ {| Title := "AI Engineer"; Company := "Acme Inc" |};
           {| Title := "Data Engineer"; Company := "Beta LLC" |} ].
Proof.
  apply (@extracted_records_are_classified basic_runtime spec_text 2).
  vm_compute. reflexivity.
Defined.

Lemma extracted_records_follow_the_text_witness :
  ∃ lines, @extractor_lines basic_runtime spec_text = Some lines
           ∧ Forall (paired_in lines)
                    [ {| Title := "AI Engineer"; Company := "Acme Inc" |};
                      {| Title := "Data Engineer"; Company := "Beta LLC" |} ]
           ∧ sublist [ "AI Engineer"; "Data Engineer" ] lines.
Proof.
  apply (@extracted_records_follow_the_text basic_runtime spec_text 2).
  vm_compute. reflexivity.
Defined.

Lemma extract_fewer_is_prefix_witness :
  @ExtractListingsFromVisibleText basic_runtime spec_text 1
  = Some (take 1 [ {| Title := "AI Engineer"; Company := "Acme Inc" |};
                   {| Title := "Data Engineer"; Company := "Beta LLC" |} ]).
Proof.
  apply (@extract_fewer_is_prefix basic_runtime spec_text 1 2); [lia|lia|].
  vm_compute. reflexivity.
Defined.

Lemma extracted_fields_are_clean_witness :
  Forall (fun rec => clean_line (Title rec) ∧ clean_line (Company rec))
         [ {| Title := "AI Engineer"; Company := "Acme Inc" |};
           {| Title := "Data Engineer"; Company := "Beta LLC" |} ].
Proof.
  apply (@extracted_fields_are_clean basic_runtime spec_text 2).
  vm_compute. reflexivity.
Defined.

(** ** More on strings *)

Lemma string_app_cons (c : ascii) (a s : string) :
  String c a +:+ s = String c (a +:+ s).
Proof. reflexivity. Qed.

Lemma string_app_nil_l (s : string) : "" +:+ s = s.
Proof. reflexivity. Qed.

Lemma string_app_assoc (a b c : string) : (a +:+ b) +:+ c = a +:+ (b +:+ c).
Proof.
  induction a as [|x a IH]; [reflexivity|].
  rewrite !string_app_cons. now rewrite IH.
Qed.

Lemma string_app_nil_r (a : string) : a +:+ "" = a.
Proof.
  induction a as [|x a IH]; [reflexivity|]. rewrite string_app_cons. now rewrite IH.
Qed.

Lemma prefix_app (p s : string) : String.prefix p (p +:+ s) = true.
Proof.
  induction p as [|c p IH].
  - rewrite string_app_nil_l. now destruct s.
  - rewrite string_app_cons. cbn [String.prefix].
    destruct (ascii_dec c c); [exact IH|contradiction].
Qed.

Lemma prefix_inv (p s : string) : String.prefix p s = true → ∃ t, s = p +:+ t.
Proof.
  revert s. induction p as [|c p IH]; intros s H.
  - now exists s.
  - destruct s as [|d s]; cbn [String.prefix] in H; [discriminate H|].
    destruct (ascii_dec c d) as [->|]; [|discriminate H].
    destruct (IH s H) as [t ->]. now exists t.
Qed.

Lemma prefix_app_r (p s t : string) :
  String.prefix p s = true → String.prefix p (s +:+ t) = true.
Proof.
  intros H. destruct (prefix_inv p s H) as [u ->].
  rewrite string_app_assoc. apply prefix_app.
Qed.

Lemma Contains_of_prefix (s sub : string) :
  String.prefix sub s = true → strings.Contains s sub = true.
Proof.
  intros H. unfold strings.Contains, strings.Index.
  destruct s; cbn [strings.index_from]; now rewrite H.
Qed.

Lemma Contains_nil (sub : string) :
  strings.Contains "" sub = String.prefix sub "".
Proof.
  unfold strings.Contains, strings.Index. cbn [strings.index_from].
  now destruct (String.prefix sub "").
Qed.

(** [strings.Contains] holds exactly of the texts that have the word
    somewhere inside. *)
Lemma Contains_intro (a sub b : string) :
  strings.Contains (a +:+ sub +:+ b) sub = true.
Proof.
  induction a as [|c a IH].
  - rewrite string_app_nil_l. apply Contains_of_prefix, prefix_app.
  - rewrite string_app_cons, Contains_cons, IH. apply orb_true_r.
Qed.

Lemma Contains_elim (s sub : string) :
  strings.Contains s sub = true → ∃ a b, s = a +:+ sub +:+ b.
Proof.
  induction s as [|c s IH]; intros H.
  - rewrite Contains_nil in H. destruct (prefix_inv _ _ H) as [t Ht].
    exists "", t. exact Ht.
  - rewrite Contains_cons in H. apply orb_true_iff in H. destruct H as [H|H].
    + destruct (prefix_inv _ _ H) as [t Ht]. exists "", t. exact Ht.
    + destruct (IH H) as (a & b & ->). now exists (String c a), b.
Qed.

Lemma Contains_app_l (s x y : string) :
  strings.Contains s (x +:+ y) = true → strings.Contains s x = true.
Proof.
  intros H. destruct (Contains_elim _ _ H) as (a & b & ->).
  rewrite string_app_assoc. apply Contains_intro.
Qed.

Lemma Contains_app_r (s x y : string) :
  strings.Contains s (x +:+ y) = true → strings.Contains s y = true.
Proof.
  intros H. destruct (Contains_elim _ _ H) as (a & b & ->).
  rewrite string_app_assoc, <- (string_app_assoc a x). apply Contains_intro.
Qed.

Lemma Contains_extend (s sub a b : string) :
  strings.Contains s sub = true → strings.Contains (a +:+ s +:+ b) sub = true.
Proof.
  intros H. destruct (Contains_elim _ _ H) as (p & q & ->).
  rewrite !string_app_assoc, <- (string_app_assoc a p). apply Contains_intro.
Qed.

Lemma prefix_char (c d : ascii) (s : string) :
  String.prefix (String c "") (String d s) = if ascii_dec c d then true else false.
Proof. cbn [String.prefix]. destruct (ascii_dec c d); [now destruct s|reflexivity]. Qed.

Lemma index_from_shift (s sub : string) (i : Z) :
  strings.index_from i s sub = (-1)%Z
  ∨ strings.index_from i s sub = (i + strings.index_from 0 s sub)%Z
    ∧ (0 <= strings.index_from 0 s sub)%Z.
Proof.
  revert i. induction s as [|c s IH]; intros i; cbn [strings.index_from].
  - destruct (String.prefix sub ""); cbv iota; [right; lia|now left].
  - destruct (String.prefix sub (String c s)); cbv iota; [right; lia|].
    destruct (IH (i + 1)%Z) as [H|[H H0]]; [now left|].
    destruct (IH (0 + 1)%Z) as [H'|[H' _]]; [|right; lia].
    pose proof (index_from_sign s sub 0 (0 + 1)) as Hs.
    rewrite H' in Hs. apply Z.leb_le in H0. rewrite H0 in Hs.
    discriminate Hs; lia.
Qed.

(** In front of a character the text lacks, the first index of that
    character is the length of the text. *)
Lemma Index_first_char (c : ascii) (a r : string) :
  strings.Contains a (String c "") = false →
  strings.Index (a +:+ String c r) (String c "") = strings.len a.
Proof.
  unfold strings.Index, strings.len.
  induction a as [|d a IH]; intros H.
  - rewrite string_app_nil_l. cbn [strings.index_from String.prefix String.length].
    destruct (ascii_dec c c); [|contradiction]. now destruct r.
  - rewrite Contains_cons in H. apply orb_false_iff in H. destruct H as [Hp H].
    change (String d a +:+ String c r) with (String d (a +:+ String c r)).
    cbn [strings.index_from].
    assert (Hp' : String.prefix (String c "") (String d (a +:+ String c r)) = false).
    { rewrite prefix_char in Hp |- *. exact Hp. }
    rewrite Hp'.
    destruct (index_from_shift (a +:+ String c r) (String c "") (0 + 1)) as [E|[E _]].
    + specialize (IH H). fold (strings.Index (a +:+ String c r) (String c "")) in IH.
      unfold strings.Index in IH.
      destruct (index_from_shift (a +:+ String c r) (String c "") (0 + 1)) as [E'|[E' E0]];
        [|rewrite E', IH; cbn [String.length]; lia].
      exfalso.
      assert (Hc : strings.Contains (a +:+ String c r) (String c "") = true).
      { change (String c r) with (String c "" +:+ r). apply Contains_intro. }
      unfold strings.Contains, strings.Index in Hc.
      rewrite (index_from_sign _ _ 0 (0 + 1)) in Hc by lia.
      rewrite E' in Hc. discriminate Hc.
    + rewrite E, (IH H). cbn [String.length]. lia.
Qed.

Lemma last_index_cons (c d : ascii) (s : string) (i acc : Z) :
  last_index_from i acc (String d s) (String c "")
  = last_index_from (i + 1) (if ascii_dec c d then i else acc) s (String c "").
Proof.
  cbn [last_index_from]. rewrite prefix_char. now destruct (ascii_dec c d).
Qed.

Lemma last_index_char (c : ascii) (s : string) :
  ∀ i acc,
    (strings.Contains s (String c "") = false
     ∧ last_index_from i acc s (String c "") = acc)
    ∨ (∃ pre post, s = pre +:+ String c post
                   ∧ last_index_from i acc s (String c "") = (i + strings.len pre)%Z
                   ∧ strings.Contains post (String c "") = false).
Proof.
  induction s as [|d s IH]; intros i acc.
  - left. split; reflexivity.
  - rewrite last_index_cons, Contains_cons, prefix_char.
    destruct (ascii_dec c d) as [->|Hne].
    + destruct (IH (i + 1)%Z i) as [[Hn Hr]|(pre & post & -> & Hr & Hn)].
      * right. exists "", s. split; [reflexivity|]. split; [|exact Hn].
        rewrite Hr. unfold strings.len. cbn. lia.
      * right. exists (String d pre), post. split; [reflexivity|].
        split; [|exact Hn]. rewrite Hr. unfold strings.len. cbn [String.length]. lia.
    + destruct (IH (i + 1)%Z acc) as [[Hn Hr]|(pre & post & -> & Hr & Hn)].
      * left. split; [exact Hn|exact Hr].
      * right. exists (String d pre), post. split; [reflexivity|].
        split; [|exact Hn]. rewrite Hr. unfold strings.len. cbn [String.length]. lia.
Qed.

(** Behind the last occurrence of a character: the last index is where it
    stands. *)
Lemma LastIndex_last_char (c : ascii) (p b : string) :
  strings.Contains b (String c "") = false →
  LastIndex (p +:+ String c b) (String c "") = strings.len p.
Proof.
  intros Hb. unfold LastIndex.
  assert (G : ∀ i acc, last_index_from i acc (p +:+ String c b) (String c "")
                       = (i + strings.len p)%Z).
  { induction p as [|d p IH]; intros i acc.
    - rewrite string_app_nil_l, last_index_cons.
      destruct (ascii_dec c c); [|contradiction].
      destruct (last_index_char c b (i + 1)%Z i) as [[_ Hr]|(pre & post & -> & _ & _)].
      + rewrite Hr. unfold strings.len. cbn. lia.
      + exfalso. change (String c post) with (String c "" +:+ post) in Hb.
        rewrite Contains_intro in Hb. discriminate Hb.
    - rewrite string_app_cons, last_index_cons, IH.
      unfold strings.len. cbn [String.length]. lia. }
  rewrite G. lia.
Qed.

Lemma substring_middle (a x b : string) :
  substring (String.length a) (String.length x) (a +:+ x +:+ b) = x.
Proof.
  induction a as [|c a IH]; cbn [String.length].
  - rewrite string_app_nil_l.
    induction x as [|d x IHx]; cbn [String.length].
    + rewrite string_app_nil_l. now destruct b.
    + rewrite string_app_cons. cbn [substring]. now rewrite IHx.
  - rewrite string_app_cons. cbn [substring]. exact IH.
Qed.

(** ** The trimming of the raw decision text *)

Lemma first_char_split (c : ascii) (s : string) :
  strings.Contains s (String c "") = true →
  ∃ a r, s = a +:+ String c r ∧ strings.Contains a (String c "") = false.
Proof.
  induction s as [|d s IH]; intros H; [discriminate H|].
  rewrite Contains_cons, prefix_char in H.
  destruct (ascii_dec c d) as [->|Hne].
  - exists "", s. split; reflexivity.
  - cbn [orb] in H. destruct (IH H) as (a & r & -> & Ha).
    exists (String d a), r. split; [reflexivity|].
    rewrite Contains_cons, prefix_char, Ha.
    now destruct (ascii_dec c d).
Qed.

Lemma string_app_split (a x p y : string) :
  a +:+ x = p +:+ y → (String.length a ≤ String.length p)%nat →
  ∃ m, p = a +:+ m ∧ x = m +:+ y.
Proof.
  revert p. induction a as [|c a IH]; intros p H Hl.
  - exists p. split; [reflexivity|exact H].
  - destruct p as [|d p]; [cbn in Hl; lia|].
    rewrite !string_app_cons in H. injection H as <- H.
    destruct (IH p H) as (m & -> & ->); [cbn in Hl; lia|].
    exists m. split; reflexivity.
Qed.

Lemma Contains_char_app (c : ascii) (a b : string) :
  strings.Contains (a +:+ b) (String c "") = false →
  strings.Contains a (String c "") = false ∧ strings.Contains b (String c "") = false.
Proof.
  intros H. split.
  - destruct (strings.Contains a (String c "")) eqn:Ha; [|reflexivity].
    rewrite <- H. symmetry.
    rewrite <- (string_app_nil_l (a +:+ b)). now apply Contains_extend.
  - destruct (strings.Contains b (String c "")) eqn:Hb; [|reflexivity].
    rewrite <- H. symmetry.
    rewrite <- (string_app_nil_r b) at 1. now apply Contains_extend.
Qed.

(** The part between the first opening and the last closing brace *)
Lemma trim_between (raw a m b : string) :
  HasPrefix raw "{" = false →
  raw = a +:+ "{" +:+ m +:+ "}" +:+ b →
  strings.Contains a "{" = false → strings.Contains b "}" = false →
  trim_to_object raw = "{" +:+ m +:+ "}".
Proof.
  intros Hp -> Ha Hb. unfold trim_to_object. rewrite Hp.
  assert (Hi : strings.Index (a +:+ "{" +:+ m +:+ "}" +:+ b) "{" = strings.len a).
  { apply (Index_first_char "{"%char a (m +:+ "}" +:+ b) Ha). }
  assert (Hj : LastIndex (a +:+ "{" +:+ m +:+ "}" +:+ b) "}"
               = strings.len (a +:+ "{" +:+ m)).
  { rewrite <- (string_app_assoc a "{" (m +:+ "}" +:+ b)).
    rewrite <- (string_app_assoc (a +:+ "{") m ("}" +:+ b)).
    rewrite (string_app_assoc a "{" m).
    apply (LastIndex_last_char "}"%char (a +:+ "{" +:+ m) b Hb). }
  assert (H1 : (0 <=? strings.len a)%Z = true).
  { apply Z.leb_le. unfold strings.len. lia. }
  assert (H2 : (strings.len a <? strings.len (a +:+ "{" +:+ m))%Z = true).
  { apply Z.ltb_lt. unfold strings.len. rewrite !string_length_app.
    cbn [String.length]. lia. }
  rewrite Hi, Hj, H1, H2. unfold slice.
  replace (Z.to_nat (strings.len a)) with (String.length a)
    by (unfold strings.len; lia).
  replace (Z.to_nat (strings.len (a +:+ "{" +:+ m) + 1 - strings.len a))
    with (String.length ("{" +:+ m +:+ "}"))
    by (unfold strings.len; rewrite !string_length_app; cbn [String.length]; lia).
  replace (a +:+ "{" +:+ m +:+ "}" +:+ b) with (a +:+ ("{" +:+ m +:+ "}") +:+ b)
    by (now rewrite !string_app_assoc).
  apply substring_middle.
Qed.

Lemma trim_unchanged (raw : string) :
  HasPrefix raw "{" = true
  ∨ strings.Contains raw "{" = false
  ∨ (LastIndex raw "}" <= strings.Index raw "{")%Z →
  trim_to_object raw = raw.
Proof.
  unfold trim_to_object, strings.Contains. intros [H|[H|H]].
  - now rewrite H.
  - destruct (HasPrefix raw "{"); [reflexivity|]. now rewrite H.
  - destruct (HasPrefix raw "{"); [reflexivity|].
    destruct (0 <=? _)%Z; [|reflexivity].
    apply Z.ltb_ge in H. now rewrite H.
Qed.

(** X6: the trimming of func decideNextAction.  A text that starts with
    an opening brace is left as it is, whatever follows.  Any other text
    that holds an opening brace with a closing brace somewhere behind it is
    cut down to the part from its first opening brace to its last closing
    brace; a text without such a pair is left as it is. *)
Theorem trim_to_object_spec (raw : string) :
  (HasPrefix raw "{" = true → trim_to_object raw = raw)
  ∧ (HasPrefix raw "{" = false →
     (∃ a m b, raw = a +:+ "{" +:+ m +:+ "}" +:+ b) →
     ∃ a m b, raw = a +:+ "{" +:+ m +:+ "}" +:+ b
              ∧ strings.Contains a "{" = false ∧ strings.Contains b "}" = false
              ∧ trim_to_object raw = "{" +:+ m +:+ "}")
  ∧ (HasPrefix raw "{" = false →
     ¬ (∃ a m b, raw = a +:+ "{" +:+ m +:+ "}" +:+ b) →
     trim_to_object raw = raw).
Proof.
  split; [intros H; apply trim_unchanged; now left|]. split.
  - intros Hp (a0 & m0 & b0 & Hraw).
    assert (Hc : strings.Contains raw "{" = true).
    { rewrite Hraw. apply Contains_intro. }
    destruct (first_char_split "{"%char raw Hc) as (a & r & Ha & Hfree).
    assert (Hla : (String.length a ≤ String.length a0)%nat).
    { destruct (Nat.le_gt_cases (String.length a) (String.length a0)) as [Hle|Hgt];
        [exact Hle|exfalso].
      rewrite Ha in Hraw. symmetry in Hraw.
      destruct (string_app_split a0 _ a _ Hraw) as (x & -> & Hx); [lia|].
      destruct x as [|c x]; [rewrite string_app_nil_r in Hgt; lia|].
      rewrite string_app_cons in Hx. injection Hx as <- _.
      change (String "{" x) with ("{" +:+ x) in Hfree.
      rewrite Contains_intro in Hfree. discriminate Hfree. }
    destruct (last_index_char "}"%char r 0 (-1))
      as [[Hn _]|(pre & post & Hr & _ & Hpost)].
    + exfalso. rewrite Ha in Hraw.
      destruct (string_app_split a _ a0 _ Hraw Hla) as (x & -> & Hx).
      destruct x as [|c x].
      * rewrite string_app_nil_l in Hx. change ("{" +:+ m0 +:+ "}" +:+ b0)
          with (String "{" (m0 +:+ "}" +:+ b0)) in Hx.
        injection Hx as Hx. rewrite Hx in Hn.
        rewrite (Contains_intro m0 "}" b0) in Hn. discriminate Hn.
      * rewrite string_app_cons in Hx. injection Hx as _ Hx. rewrite Hx in Hn.
        rewrite <- (string_app_assoc x "{"), <- (string_app_assoc (x +:+ "{") m0) in Hn.
        rewrite Contains_intro in Hn. discriminate Hn.
    + exists a, pre, post. subst r.
      split; [exact Ha|]. split; [exact Hfree|]. split; [exact Hpost|].
      apply (trim_between raw a pre post Hp Ha Hfree Hpost).
  - intros Hp Hno. apply trim_unchanged.
    destruct (strings.Contains raw "{") eqn:Hc; [|now right; left].
    right; right.
    destruct (first_char_split "{"%char raw Hc) as (a & r & Ha & Hfree).
    destruct (last_index_char "}"%char r 0 (-1))
      as [[Hn _]|(pre & post & Hr & _ & _)].
    + rewrite Ha, (Index_first_char "{"%char a r Hfree).
      destruct (last_index_char "}"%char (a +:+ String "{" r) 0 (-1))
        as [[_ Hl]|(pre & post & Hs & Hl & Hpost)].
      * unfold LastIndex. rewrite Hl. unfold strings.len. lia.
      * unfold LastIndex. rewrite Hl. unfold strings.len.
        destruct (Nat.le_gt_cases (String.length pre) (String.length a)) as [Hle|Hgt];
          [lia|exfalso].
        destruct (string_app_split a _ pre _ Hs) as (x & -> & Hx); [lia|].
        destruct x as [|c x]; [rewrite string_app_nil_r in Hgt; lia|].
        rewrite string_app_cons in Hx. injection Hx as _ Hx. rewrite Hx in Hn.
        change (String "}" post) with ("}" +:+ post) in Hn.
        rewrite Contains_intro in Hn. discriminate Hn.
    + exfalso. apply Hno. exists a, pre, post. rewrite Ha, Hr. reflexivity.
Qed.

Lemma trim_to_object_spec_witness :
  trim_to_object chatty_reply = embedded_object.
Proof.
  destruct (proj1 (proj2 (trim_to_object_spec chatty_reply))) as (a & m & b & Hraw & Ha & Hb & Ht).
  - reflexivity.
  - exists "Sure! ", embedded_middle, " thanks". reflexivity.
  - rewrite Ht. clear Ht.
    assert (Hm : "{" +:+ m +:+ "}" = trim_to_object chatty_reply).
    { symmetry. apply (trim_between chatty_reply a m b eq_refl Hraw Ha Hb). }
    rewrite Hm. vm_compute. reflexivity.
Defined.

(** ** Failures of func decideNextAction in the loop *)

Lemma is_rate_limit_extend (a s b : string) :
  is_rate_limit s = true → is_rate_limit (a +:+ s +:+ b) = true.
Proof.
  unfold is_rate_limit. intros H.
  apply orb_true_iff in H. destruct H as [H|H].
  - apply orb_true_iff in H. destruct H as [H|H].
    + now rewrite (Contains_extend _ _ a b H).
    + rewrite (Contains_extend _ _ a b H). now rewrite orb_true_r.
  - rewrite (Contains_extend _ _ a b H). now rewrite orb_true_r.
Qed.

Section DecisionErrors.
Context `{rt : GoRuntime}.

Lemma fatal_error_step (st : State) (inp : StepInput) (msg : string) :
  in_decision inp = inl msg → is_rate_limit msg = false →
  loop_body st inp = (Break, st, [step_banner st; EvPrint ("LLM error: " +:+ msg)]).
Proof. intros Hd Hr. unfold loop_body. now rewrite Hd, Hr. Qed.

Lemma retried_error_step (st : State) (inp : StepInput) (msg : string) :
  in_decision inp = inl msg → is_rate_limit msg = true →
  loop_body st inp
  = (Continue, set_step st (step st - 1),
     [step_banner st; EvPrintWaiting (retry_wait msg); EvSleep (retry_wait msg)]).
Proof. intros Hd Hr. unfold loop_body. now rewrite Hd, Hr. Qed.

(** X7: without GEMINI_API_KEY, and likewise when the service answers
    without a candidate or with a first candidate without parts, the
    iteration leaves the loop with the error line; nothing is sent to the
    worker and no retry is made. *)
Theorem missing_key_or_empty_reply_is_fatal (st : State) (inp : StepInput)
    (di : DecideInput) :
  in_decision inp = decideNextAction di →
  (api_key (gemini_call di) = ""
   ∨ (api_key (gemini_call di) ≠ "" ∧ new_request_err (gemini_call di) = None
      ∧ do_err (gemini_call di) = None
      ∧ ∃ out, body_decoded (gemini_call di) = inr out ∧ gemini.Err out = None
               ∧ (gemini.Candidates out = []
                  ∨ ∃ others, gemini.Candidates out = [] :: others))) →
  ∃ msg,
    (msg = "GEMINI_API_KEY is not set" ∨ msg = "empty Gemini response")
    ∧ loop_body st inp
      = (Break, st, [step_banner st; EvPrint ("LLM error: " +:+ msg)]).
Proof.
  intros Hd H.
  assert (Hmsg : ∃ msg, (msg = "GEMINI_API_KEY is not set"
                         ∨ msg = "empty Gemini response")
                        ∧ decideNextAction di = inl msg).
  { unfold decideNextAction, callGemini.
    destruct H as [H|(Hk & H1 & H2 & out & Ho & He & Hc)].
    - rewrite H. eexists. split; [left; reflexivity|reflexivity].
    - apply String.eqb_neq in Hk. rewrite Hk, H1, H2, Ho, He.
      destruct Hc as [Hc|[others Hc]]; rewrite Hc;
        (eexists; split; [right; reflexivity|reflexivity]). }
  destruct Hmsg as (msg & Hm & Hdec). exists msg. split; [exact Hm|].
  apply fatal_error_step; [congruence|].
  destruct Hm as [->| ->]; reflexivity.
Qed.

(** X8: an error member in the service's answer whose status is
    RESOURCE_EXHAUSTED, or whose message carries a rate-limit mark, is
    taken for a rate limit whatever else it says: the loop waits and runs
    the step again. *)
Theorem quota_error_is_retried (st : State) (inp : StepInput) (di : DecideInput)
    (out : gemini.Response) (e : gemini.Error) :
  in_decision inp = decideNextAction di →
  api_key (gemini_call di) ≠ "" → new_request_err (gemini_call di) = None →
  do_err (gemini_call di) = None →
  body_decoded (gemini_call di) = inr out → gemini.Err out = Some e →
  (gemini.Status e = "RESOURCE_EXHAUSTED" ∨ is_rate_limit (gemini.Message e) = true) →
  ∃ msg,
    decideNextAction di = inl msg
    ∧ loop_body st inp
      = (Continue, set_step st (step st - 1),
         [step_banner st; EvPrintWaiting (retry_wait msg); EvSleep (retry_wait msg)]).
Proof.
  intros Hd Hk H1 H2 Ho He Hmark.
  assert (Hdec : decideNextAction di
                 = inl ("Gemini API error: " +:+ gemini.Message e +:+ " ("
                        +:+ gemini.Status e +:+ ")")).
  { unfold decideNextAction, callGemini. apply String.eqb_neq in Hk.
    now rewrite Hk, H1, H2, Ho, He. }
  eexists. split; [exact Hdec|]. apply retried_error_step; [congruence|].
  destruct Hmark as [Hs|Hm].
  - rewrite Hs.
    rewrite <- (string_app_assoc "Gemini API error: "),
            <- (string_app_assoc ("Gemini API error: " +:+ gemini.Message e)).
    apply is_rate_limit_extend. reflexivity.
  - now apply is_rate_limit_extend.
Qed.

(** X9: a reply that does not parse is a fatal error in general, but its
    error text quotes the reply: when the text handed to the decoder, or
    the decoder's own message, carries a rate-limit mark, the failure is
    taken for a rate limit and the step is run again. *)
Theorem unparsable_reply_with_mark_is_retried (st : State) (inp : StepInput)
    (di : DecideInput) (text err : string) :
  in_decision inp = decideNextAction di →
  callGemini (gemini_call di) = inr text → parsed di = inl err →
  (is_rate_limit (trim_to_object (strings.TrimSpace text)) = true
   ∨ is_rate_limit err = true) →
  ∃ msg,
    decideNextAction di = inl msg
    ∧ loop_body st inp
      = (Continue, set_step st (step st - 1),
         [step_banner st; EvPrintWaiting (retry_wait msg); EvSleep (retry_wait msg)]).
Proof.
  intros Hd Hc Hp Hmark.
  assert (Hdec : decideNextAction di
                 = inl ("failed to parse LLM JSON: " +:+ err +:+ LF +:+ "raw="
                        +:+ trim_to_object (strings.TrimSpace text))).
  { unfold decideNextAction. now rewrite Hc, Hp. }
  eexists. split; [exact Hdec|]. apply retried_error_step; [congruence|].
  destruct Hmark as [Hm|Hm].
  - rewrite <- (string_app_nil_r (trim_to_object _)).
    rewrite <- (string_app_assoc err), <- (string_app_assoc (err +:+ LF)),
            <- (string_app_assoc "failed to parse LLM JSON: ").
    now apply is_rate_limit_extend.
  - now apply is_rate_limit_extend.
Qed.

End DecisionErrors.

Lemma missing_key_or_empty_reply_is_fatal_witness :
  ∃ msg,
    (msg = "GEMINI_API_KEY is not set" ∨ msg = "empty Gemini response")
    ∧ @loop_body basic_runtime (initial_state "find jobs") (decide_step no_key)
      = (Break, initial_state "find jobs",
         [step_banner (initial_state "find jobs"); EvPrint ("LLM error: " +:+ msg)]).
Proof.
  apply (@missing_key_or_empty_reply_is_fatal basic_runtime
           (initial_state "find jobs") (decide_step no_key) no_key eq_refl).
  left. reflexivity.
Defined.

Lemma quota_error_is_retried_witness :
  ∃ msg,
    decideNextAction quota_answer = inl msg
    ∧ @loop_body basic_runtime (initial_state "find jobs") (decide_step quota_answer)
      = (Continue, set_step (initial_state "find jobs") 0,
         [step_banner (initial_state "find jobs");
          EvPrintWaiting (@retry_wait basic_runtime msg);
          EvSleep (@retry_wait basic_runtime msg)]).
Proof.
  refine (@quota_error_is_retried basic_runtime (initial_state "find jobs")
            (decide_step quota_answer) quota_answer _ _ eq_refl _ eq_refl eq_refl
            eq_refl eq_refl _).
  - discriminate.
  - left. reflexivity.
Defined.

Lemma unparsable_reply_with_mark_is_retried_witness :
  ∃ msg,
    decideNextAction apology_reply = inl msg
    ∧ @loop_body basic_runtime (initial_state "find jobs") (decide_step apology_reply)
      = (Continue, set_step (initial_state "find jobs") 0,
         [step_banner (initial_state "find jobs");
          EvPrintWaiting (@retry_wait basic_runtime msg);
          EvSleep (@retry_wait basic_runtime msg)]).
Proof.
  refine (@unparsable_reply_with_mark_is_retried basic_runtime
            (initial_state "find jobs") (decide_step apology_reply) apology_reply
            _ _ eq_refl _ eq_refl _).
  - vm_compute. reflexivity.
  - left. vm_compute. reflexivity.
Defined.

(** ** More on the decision normaliser *)

Lemma normalize_implicit_tool (a : AgentAction) (raw : option json) :
  is_toolName (Action a) = true →
  normalizeAction a raw
  = set_Action (if String.eqb (Tool a) "" then set_Tool a (Action a) else a) "tool".
Proof.
  intros H. unfold normalizeAction. rewrite H.
  pose proof (is_toolName_not_empty _ H) as Hne.
  destruct (String.eqb (Tool a) "") eqn:Ht; cbn.
  - apply String.eqb_neq in Hne. now rewrite Hne.
  - now rewrite Ht.
Qed.

Lemma normalize_fixed (a : AgentAction) (raw : option json) :
  is_toolName (Action a) = false → (Action a ≠ "tool" ∨ Tool a ≠ "") →
  normalizeAction a raw = a.
Proof.
  intros H Hc. unfold normalizeAction. rewrite H.
  destruct (String.eqb_spec (Action a) "tool") as [Ha|Ha]; [|reflexivity].
  destruct (String.eqb_spec (Tool a) "") as [Ht|Ht]; [|reflexivity].
  destruct Hc; contradiction.
Qed.

Lemma normalize_not_an_object (a : AgentAction) (raw : option json) :
  raw ≫= unmarshal_map = None → is_toolName (Action a) = false →
  normalizeAction a raw = a.
Proof.
  intros Hm H. unfold normalizeAction. rewrite H, Hm.
  now destruct (String.eqb (Action a) "tool" && String.eqb (Tool a) "").
Qed.

Lemma normalize_recovering (a : AgentAction) (raw : option json)
    (m : gmap string json) :
  Action a = "tool" → Tool a = "" → raw ≫= unmarshal_map = Some m →
  normalizeAction a raw
  = {| Action := "tool"; Tool := recovered_tool m;
       Arguments := Some (merged_arguments (default ∅ (Arguments a)) m);
       Question := Question a; SummaryRaw := SummaryRaw a; Results := Results a;
       Summary := Summary a |}.
Proof.
  intros Ha Ht Hm. unfold normalizeAction.
  rewrite Ha, tool_is_not_a_toolName. cbv iota zeta. rewrite Ha, Ht.
  change (String.eqb "tool" "tool" && String.eqb "" "") with true. cbv iota.
  rewrite Hm. unfold recovered_tool, merged_arguments.
  destruct a as [act tool args q sraw res sum]. cbn in Ha, Ht. subst act tool.
  destruct (as_string (m !! "tool")) as [t|]; cbn [default];
    cbn [set_Tool Tool Action Arguments Question SummaryRaw Results Summary].
  - unfold id. destruct (String.eqb_spec t "") as [->|Hne].
    + destruct (as_string (m !! "action")) as [t'|]; [|reflexivity].
      now destruct (is_toolName t').
    + reflexivity.
  - unfold id. change (String.eqb "" "") with true. cbv iota.
    destruct (as_string (m !! "action")) as [t'|]; [|reflexivity].
    now destruct (is_toolName t').
Qed.

Lemma merged_arguments_lookup (arguments m : gmap string json) (k : string) :
  merged_arguments arguments m !! k
  = match default ∅ (as_object (m !! "args")) !! k with
    | Some v => Some v
    | None =>
      match arguments !! k with
      | Some v => Some v
      | None => if is_reserved_key k then None else m !! k
      end
    end.
Proof.
  unfold merged_arguments. rewrite merge_root_lookup.
  destruct (as_object (m !! "args")) as [args|]; cbn [default].
  - rewrite merge_args_lookup. unfold id. now destruct (args !! k).
  - now rewrite lookup_empty.
Qed.

Lemma merged_arguments_again (arguments m : gmap string json) :
  merged_arguments (merged_arguments arguments m) m = merged_arguments arguments m.
Proof.
  apply map_eq. intros k. rewrite !merged_arguments_lookup.
  destruct (default ∅ (as_object (m !! "args")) !! k); [reflexivity|].
  destruct (arguments !! k); [reflexivity|].
  now destruct (if is_reserved_key k then None else m !! k).
Qed.

(** X10: normalising twice is normalising once. *)
Theorem normalizeAction_idempotent (a : AgentAction) (raw : option json) :
  normalizeAction (normalizeAction a raw) raw = normalizeAction a raw.
Proof.
  destruct (is_toolName (Action a)) eqn:Htn.
  - rewrite (normalize_implicit_tool a raw Htn).
    apply normalize_fixed; [reflexivity|]. right.
    pose proof (is_toolName_not_empty _ Htn) as Hne.
    destruct (String.eqb_spec (Tool a) ""); cbn; assumption.
  - destruct (String.eqb_spec (Action a) "tool") as [Ha|Ha];
      [|rewrite !(normalize_fixed a raw Htn); auto].
    destruct (String.eqb_spec (Tool a) "") as [Ht|Ht];
      [|rewrite !(normalize_fixed a raw Htn); auto].
    destruct (raw ≫= unmarshal_map) as [m|] eqn:Hm;
      [|rewrite !(normalize_not_an_object a raw Hm Htn); reflexivity].
    rewrite (normalize_recovering a raw m Ha Ht Hm).
    destruct (String.eqb_spec (recovered_tool m) "") as [Hr|Hr].
    + set (R := {| Action := "tool"; Tool := recovered_tool m;
                   Arguments := Some (merged_arguments (default ∅ (Arguments a)) m);
                   Question := Question a; SummaryRaw := SummaryRaw a;
                   Results := Results a; Summary := Summary a |}).
      rewrite (normalize_recovering R raw m eq_refl Hr Hm). unfold R.
      cbn [default Arguments Question SummaryRaw Results Summary].
      unfold id. now rewrite merged_arguments_again.
    + apply normalize_fixed; [reflexivity|]. right. exact Hr.
Qed.

(** X11: after normalisation the discriminator is never a tool name.  A
    decision whose discriminator is a tool name becomes a tool call of that
    name (of the tool field, when one was given) with the arguments it was
    decoded with; any other discriminator is kept. *)
Theorem normalized_discriminator (a : AgentAction) (raw : option json) :
  is_toolName (Action (normalizeAction a raw)) = false
  ∧ (is_toolName (Action a) = true →
     Action (normalizeAction a raw) = "tool"
     ∧ Tool (normalizeAction a raw)
       = (if String.eqb (Tool a) "" then Action a else Tool a)
     ∧ Arguments (normalizeAction a raw) = Arguments a)
  ∧ (is_toolName (Action a) = false →
     Action (normalizeAction a raw) = Action a).
Proof.
  destruct (is_toolName (Action a)) eqn:Htn.
  - rewrite (normalize_implicit_tool a raw Htn).
    split; [reflexivity|]. split; [|discriminate]. intros _.
    destruct (String.eqb (Tool a) ""); repeat split.
  - assert (Hact : Action (normalizeAction a raw) = Action a).
    { destruct (String.eqb_spec (Action a) "tool") as [Ha|Ha];
        [|now rewrite (normalize_fixed a raw Htn); auto].
      destruct (String.eqb_spec (Tool a) "") as [Ht|Ht];
        [|now rewrite (normalize_fixed a raw Htn); auto].
      destruct (raw ≫= unmarshal_map) as [m|] eqn:Hm;
        [|now rewrite (normalize_not_an_object a raw Hm Htn)].
      rewrite (normalize_recovering a raw m Ha Ht Hm). now rewrite Ha. }
    split; [now rewrite Hact|]. split; [discriminate|]. intros _. exact Hact.
Qed.

(** X12: a decision in canonical form comes out of the normaliser as it
    went in: a tool call that names its tool, and any decision whose
    discriminator is neither tool nor a tool name (finish, ask_user,
    anything unknown). *)
Theorem canonical_action_unchanged (a : AgentAction) (raw : option json) :
  is_toolName (Action a) = false → (Action a ≠ "tool" ∨ Tool a ≠ "") →
  normalizeAction a raw = a.
Proof. apply normalize_fixed. Qed.

Lemma canonical_action_unchanged_witness :
  normalizeAction canonical_click (Some click_with_args) = canonical_click.
Proof.
  apply (canonical_action_unchanged canonical_click (Some click_with_args));
    [reflexivity|]. right. discriminate.
Defined.

(** *** More on the completion payload *)

(** X13: finalisation touches the summary and, at most, an empty list of
    records: discriminator, tool, arguments, question and raw summary are
    kept, records that were supplied are kept, and finalising again changes
    nothing. *)
Theorem finalize_frame_and_idempotent (a : AgentAction) :
  finalizeActionFields (finalizeActionFields a) = finalizeActionFields a
  ∧ Action (finalizeActionFields a) = Action a
  ∧ Tool (finalizeActionFields a) = Tool a
  ∧ Arguments (finalizeActionFields a) = Arguments a
  ∧ Question (finalizeActionFields a) = Question a
  ∧ SummaryRaw (finalizeActionFields a) = SummaryRaw a
  ∧ (Results a ≠ [] → Results (finalizeActionFields a) = Results a).
Proof.
  destruct a as [act tool args q sraw res sum]. unfold finalizeActionFields.
  cbn [SummaryRaw]. destruct sraw as [raw|]; [|repeat split; reflexivity].
  destruct (unmarshal_string raw) as [s|] eqn:Hs.
  { cbn. rewrite Hs. repeat split; reflexivity. }
  destruct (unmarshal_JobItems raw) as [arr|] eqn:Hj.
  - cbn [Results]. destruct res as [|r res]; cbn.
    + rewrite Hs, Hj. cbn. destruct arr; cbn; repeat split; try reflexivity;
        intros H; now contradiction H.
    + rewrite Hs, Hj. cbn. repeat split; reflexivity.
  - cbn. rewrite Hs, Hj. repeat split; reflexivity.
Qed.

(** *** func fakeLLM *)

Section FakeLLM.
Context `{rt : GoRuntime}.

(** X14: the decisions of fakeLLM are canonical: normaliser and finaliser
    leave them as they are.  While the observation has no url (none, one
    that is not a string, or the empty one) the decision is the navigation,
    and with a url it is the finish that main answers with the line DONE:
    Opened hh.ru successfully and its return. *)
Theorem fakeLLM_decisions (task : string) (obs : gmap string json) (raw : option json) :
  finalizeActionFields (normalizeAction (fakeLLM task obs) raw) = fakeLLM task obs
  ∧ (string_at obs "url" = "" →
     Action (fakeLLM task obs) = "tool" ∧ Tool (fakeLLM task obs) = "navigate"
     ∧ Arguments (fakeLLM task obs) = Some {[ "url" := JString "https://hh.ru" ]})
  ∧ (string_at obs "url" ≠ "" →
     ∀ st inp,
       in_decision inp = inr (fakeLLM task obs) → lastAction st ≠ "finish" →
       loop_body st inp
       = (Return, recorded st inp (fakeLLM task obs),
          [step_banner st; EvPrintAction (fakeLLM task obs);
           EvPrint "✅ DONE: Opened hh.ru successfully"])).
Proof.
  unfold fakeLLM. destruct (String.eqb_spec (string_at obs "url") "") as [Hu|Hu].
  - split; [|split; [intros _; repeat split|contradiction]].
    rewrite normalize_fixed; [reflexivity|reflexivity|]. right. discriminate.
  - split; [|split; [contradiction|]].
    + rewrite normalize_fixed; [reflexivity|reflexivity|]. left. discriminate.
    + intros _ st inp Hd Hl. now rewrite (finish_step st inp _ Hd eq_refl Hl).
Qed.

End FakeLLM.

Lemma fakeLLM_decisions_witness :
  @loop_body basic_runtime state_at_hh (fake_step "open hh.ru" state_at_hh)
  = (Return,
     recorded state_at_hh (fake_step "open hh.ru" state_at_hh)
              (fakeLLM "open hh.ru" obs_hh),
     [step_banner state_at_hh; EvPrintAction (fakeLLM "open hh.ru" obs_hh);
      EvPrint "✅ DONE: Opened hh.ru successfully"]).
Proof.
  refine (proj2 (proj2 (@fakeLLM_decisions basic_runtime "open hh.ru" obs_hh None))
            _ state_at_hh (fake_step "open hh.ru" state_at_hh) eq_refl _).
  - vm_compute. discriminate.
  - discriminate.
Defined.

(** ** Fingerprints and the results page *)

Lemma substring_prefix (p r : string) :
  substring 0 (String.length p) (p +:+ r) = p.
Proof. exact (substring_middle "" p r). Qed.

Lemma substring_length_le (n m : nat) (s : string) :
  (String.length (substring n m s) ≤ m)%nat.
Proof.
  revert n m. induction s as [|c s IH]; intros n m.
  - destruct n, m; cbn; lia.
  - destruct n as [|n]; cbn [substring].
    + destruct m as [|m]; cbn [String.length]; [lia|].
      specialize (IH 0%nat m). lia.
    + apply IH.
Qed.

Lemma obsSignature_not_empty (obs : gmap string json) : obsSignature obs ≠ "".
Proof.
  unfold obsSignature. intros H.
  apply (f_equal String.length) in H. rewrite !string_length_app in H.
  cbn [String.length] in H. lia.
Qed.

Section Fingerprint.
Context `{rt : GoRuntime}.

(** X15: the fingerprint is the url, a bar, the title, a bar and the first
    300 bytes of the visible text (all of it when it has no more), and reads
    nothing else: a text of at most 300 bytes is taken whole, a longer one is
    cut after its 300th byte, and observations that agree on url, title and
    the first 300 bytes of the text have one fingerprint, however they
    differ beyond.  For every observation the fingerprint is at most 302
    bytes longer than url and title together. *)
Theorem fingerprint_reads_300_bytes :
  (∀ obs : gmap string json,
      obsSignature obs
      = string_at obs "url" +:+ "|" +:+ string_at obs "title" +:+ "|"
        +:+ substring 0 300 (string_at obs "visible_text"))
  ∧ (∀ obs : gmap string json,
      (strings.len (obsSignature obs)
       <= strings.len (string_at obs "url") + strings.len (string_at obs "title") + 302)%Z)
  ∧ (∀ obs : gmap string json,
      (strings.len (string_at obs "visible_text") <= 300)%Z →
      obsSignature obs
      = string_at obs "url" +:+ "|" +:+ string_at obs "title" +:+ "|"
        +:+ string_at obs "visible_text")
  ∧ (∀ (obs : gmap string json) (head rest : string),
      string_at obs "visible_text" = head +:+ rest → String.length head = 300%nat →
      obsSignature obs
      = string_at obs "url" +:+ "|" +:+ string_at obs "title" +:+ "|" +:+ head)
  ∧ (∀ obs1 obs2 : gmap string json,
      string_at obs1 "url" = string_at obs2 "url" →
      string_at obs1 "title" = string_at obs2 "title" →
      substring 0 300 (string_at obs1 "visible_text")
      = substring 0 300 (string_at obs2 "visible_text") →
      obsSignature obs1 = obsSignature obs2).
Proof.
  assert (Hall : ∀ s n, (String.length s ≤ n)%nat → substring 0 n s = s).
  { induction s as [|c s IH]; intros n Hn; [now destruct n|].
    destruct n as [|n]; cbn [String.length] in Hn; [lia|].
    cbn [substring]. f_equal. apply IH. lia. }
  assert (Hsig : ∀ obs : gmap string json,
             obsSignature obs
             = string_at obs "url" +:+ "|" +:+ string_at obs "title" +:+ "|"
               +:+ substring 0 300 (string_at obs "visible_text")).
  { intros obs. unfold obsSignature, strings.len, strings.slice_to.
    destruct (300 <? _)%Z eqn:Hc; [reflexivity|].
    apply Z.ltb_ge in Hc. rewrite Hall by lia. reflexivity. }
  split; [exact Hsig|]. split; [|split; [|split]].
  - intros obs. rewrite Hsig. unfold strings.len. rewrite !string_length_app.
    pose proof (substring_length_le 0 300 (string_at obs "visible_text")).
    cbn [String.length]. lia.
  - intros obs Hl. rewrite Hsig. unfold strings.len in Hl. rewrite Hall by lia.
    reflexivity.
  - intros obs head rest Hvt Hl. rewrite Hsig, Hvt, <- Hl. now rewrite substring_prefix.
  - intros obs1 obs2 Hu Ht Hh. now rewrite !Hsig, Hu, Ht, Hh.
Qed.

(** X16: a fingerprint is never the empty string, so the first successful
    tool call of a run (the stored fingerprint is still empty) never counts
    as stagnant: its streak is 0 and it goes through post-processing. *)
Theorem first_observation_is_fresh (st : State) (inp : StepInput) (a : AgentAction)
    (resp : WorkerResp) :
  lastObsSig st = "" → tool_call_succeeds st inp a resp →
  stagnant_count st (obsSignature (Observation resp)) = 0%Z
  ∧ loop_body st inp
    = let '(c, st', ev) :=
        post_process (set_observed (recorded st inp a) (Observation resp)
                                   (obsSignature (Observation resp)) 0) in
      (c, st', step_banner st :: EvPrintAction a
                 :: EvSend (Tool a) (default ∅ (Arguments a)) :: ev).
Proof.
  intros Hl Hok.
  assert (Hc : stagnant_count st (obsSignature (Observation resp)) = 0%Z).
  { unfold stagnant_count. rewrite Hl.
    destruct (String.eqb_spec (obsSignature (Observation resp)) "") as [E|E];
      [|reflexivity].
    now destruct (obsSignature_not_empty _ E). }
  split; [exact Hc|].
  rewrite (successful_tool_call st inp a resp Hok). cbv zeta. rewrite Hc. reflexivity.
Qed.

(** X17: in func isSearchResultsReady the alternative text=ai%20engineer
    adds nothing, since a url that holds it holds text=ai; and an
    observation without a url is never a results page. *)
Theorem isSearchResultsReady_simplified (obs : gmap string json) :
  isSearchResultsReady obs = isSearchResultsReady_short obs
  ∧ (string_at obs "url" = "" → isSearchResultsReady obs = false).
Proof.
  assert (E : isSearchResultsReady obs = isSearchResultsReady_short obs).
  { unfold isSearchResultsReady, isSearchResultsReady_short.
    set (uLow := strings.ToLower (string_at obs "url")).
    destruct (strings.Contains uLow "/search/vacancy"); [|reflexivity].
    destruct (strings.Contains uLow "text="); [|reflexivity].
    destruct (strings.Contains uLow "text=ai") eqn:H3; [reflexivity|].
    destruct (strings.Contains uLow "text=ai%20engineer") eqn:H4.
    - change "text=ai%20engineer" with ("text=ai" +:+ "%20engineer") in H4.
      apply Contains_app_l in H4. rewrite H4 in H3. discriminate H3.
    - cbn. now destruct (strings.Contains uLow "ai%20engineer"). }
  split; [exact E|]. intros Hu. unfold isSearchResultsReady. rewrite Hu. reflexivity.
Qed.

End Fingerprint.

Lemma fingerprint_reads_300_bytes_witness :
  obsSignature {[ "visible_text" := JString (long_cyrillic +:+ "a") ]}
  = obsSignature {[ "visible_text" := JString (long_cyrillic +:+ "b") ]}
  ∧ obsSignature obs_example = "https://example.org|Example|hello".
Proof.
  split.
  - apply (proj2 (proj2 (proj2 (proj2 fingerprint_reads_300_bytes)))
             {[ "visible_text" := JString (long_cyrillic +:+ "a") ]}
             {[ "visible_text" := JString (long_cyrillic +:+ "b") ]});
      vm_compute; reflexivity.
  - apply (proj1 (proj2 (proj2 fingerprint_reads_300_bytes)) obs_example).
    vm_compute. discriminate.
Defined.

Lemma first_observation_is_fresh_witness :
  stagnant_count (initial_state "fill the form") (obsSignature (Observation resp_ok))
  = 0%Z.
Proof.
  refine (proj1 (@first_observation_is_fresh basic_runtime
                   (initial_state "fill the form")
                   (tool_step "navigate" 1 (SendResp resp_ok))
                   (tool_action "navigate") resp_ok eq_refl _)).
  split; [|split; [reflexivity|discriminate]].
  split; [reflexivity|]. split; [reflexivity|]. split; [discriminate|].
  vm_compute. reflexivity.
Defined.

(** ** What one iteration changes *)

Section Iteration.
Context `{rt : GoRuntime}.

Lemma dispatched_tool (st : State) (inp : StepInput) (a : AgentAction) :
  in_decision inp = inr a → (repeat_count st a (in_now inp) < 2)%Z →
  Action a = "tool" → Tool a ≠ "" → dispatches_tool st inp a.
Proof. intros. repeat split; assumption. Qed.

(** X18: an iteration stores a new observation exactly when a tool call
    was sent and answered without error.  Then the observation is the one
    of the answer, the stored fingerprint is its fingerprint and the
    stagnation streak is the one computed against the previous
    fingerprint.  In every other iteration (a failure of the decision
    service, a tripped loop protection, finish, ask_user, an unknown
    decision, a tool call without a name, a failed tool call) all three are
    as they were. *)
Theorem observation_changes_only_on_success (st st' : State) (inp : StepInput)
    (c : Control) (ev : list Event) :
  loop_body st inp = (c, st', ev) →
  (∀ a resp,
      tool_call_succeeds st inp a resp →
      observation st' = Observation resp
      ∧ lastObsSig st' = obsSignature (Observation resp)
      ∧ stagnantCount st' = stagnant_count st (obsSignature (Observation resp)))
  ∧ ((∀ a resp, ¬ tool_call_succeeds st inp a resp) →
     observation st' = observation st ∧ lastObsSig st' = lastObsSig st
     ∧ stagnantCount st' = stagnantCount st).
Proof.
  intros Hb. split.
  - intros a resp Hok. rewrite (successful_tool_call st inp a resp Hok) in Hb.
    cbv zeta in Hb. destruct (2 <=? _)%Z.
    + injection Hb as <- <- <-. repeat split.
    + destruct (post_process _) as [[c0 st0] ev0] eqn:Hp.
      injection Hb as <- <- <-. apply post_process_frame in Hp. cbn in Hp.
      intuition congruence.
  - intros Hno. revert Hb.
    destruct (in_decision inp) as [msg|a] eqn:Hd.
    + unfold loop_body. rewrite Hd.
      destruct (is_rate_limit msg); intros [= <- <- <-]; repeat split.
    + destruct (Z.lt_ge_cases (repeat_count st a (in_now inp)) 2) as [Hc|Hc].
      * rewrite (loop_body_dispatched st inp a Hd Hc). unfold dispatch.
        destruct (String.eqb (Action a) "finish");
          [intros [= <- <- <-]; repeat split|].
        destruct (String.eqb (Action a) "ask_user");
          [intros [= <- <- <-]; repeat split|].
        destruct (String.eqb_spec (Action a) "tool") as [Ha|Ha];
          [|intros [= <- <- <-]; repeat split].
        unfold dispatch_tool.
        destruct (String.eqb_spec (Tool a) "") as [Ht|Ht];
          [intros [= <- <- <-]; repeat split|].
        destruct (in_send inp) as [err|resp] eqn:Hs;
          [intros [= <- <- <-]; repeat split|].
        destruct (String.eqb_spec (Status resp) "error") as [He|He];
          [intros [= <- <- <-]; repeat split|].
        exfalso. apply (Hno a resp).
        split; [now apply dispatched_tool|]. split; assumption.
      * rewrite (loop_body_tripped st inp a Hd Hc). intros [= <- <- <-].
        repeat split.
Qed.

(** X19: the task text is only ever added to: an iteration leaves it as it
    is, except for an ask_user decision, which prints the question, reads
    one line, appends it behind the words User answer, sends nothing to the
    worker and uses up a step like any other.  Every ask_user decision that
    passes the loop protection does so. *)
Theorem task_changes_only_on_ask_user (st st' : State) (inp : StepInput)
    (c : Control) (ev : list Event) :
  loop_body st inp = (c, st', ev) →
  (task st' = task st
   ∨ (∃ a, in_decision inp = inr a ∧ Action a = "ask_user"
           ∧ c = Continue ∧ step st' = step st
           ∧ task st' = task st +:+ LF +:+ "User answer: " +:+ in_answer inp
           ∧ ev = [step_banner st; EvPrintAction a;
                   EvPrint ("? " +:+ Question a); EvReadAnswer]))
  ∧ (∀ a, in_decision inp = inr a → Action a = "ask_user" →
          (repeat_count st a (in_now inp) < 2)%Z →
          c = Continue ∧ step st' = step st
          ∧ task st' = task st +:+ LF +:+ "User answer: " +:+ in_answer inp
          ∧ ev = [step_banner st; EvPrintAction a;
                  EvPrint ("? " +:+ Question a); EvReadAnswer]).
Proof.
  intros Hb. split.
  - revert Hb. destruct (in_decision inp) as [msg|a] eqn:Hd.
    + unfold loop_body. rewrite Hd.
      destruct (is_rate_limit msg); intros [= <- <- <-]; now left.
    + destruct (Z.lt_ge_cases (repeat_count st a (in_now inp)) 2) as [Hc|Hc].
      * rewrite (loop_body_dispatched st inp a Hd Hc). unfold dispatch.
        destruct (String.eqb (Action a) "finish"); [intros [= <- <- <-]; now left|].
        destruct (String.eqb_spec (Action a) "ask_user") as [Ha|Ha].
        { intros [= <- <- <-]. right. exists a. repeat split. exact Ha. }
        destruct (String.eqb (Action a) "tool"); [|intros [= <- <- <-]; now left].
        unfold dispatch_tool.
        destruct (String.eqb (Tool a) ""); [intros [= <- <- <-]; now left|].
        destruct (in_send inp) as [err|resp]; [intros [= <- <- <-]; now left|].
        destruct (String.eqb (Status resp) "error"); [intros [= <- <- <-]; now left|].
        destruct (2 <=? _)%Z; [intros [= <- <- <-]; now left|].
        destruct (post_process _) as [[c0 st0] ev0] eqn:Hp.
        intros [= <- <- <-]. apply post_process_frame in Hp. cbn in Hp. left.
        intuition congruence.
      * rewrite (loop_body_tripped st inp a Hd Hc). intros [= <- <- <-]. now left.
  - intros a Hd Ha Hc. rewrite (loop_body_dispatched st inp a Hd Hc) in Hb.
    unfold dispatch in Hb. rewrite Ha in Hb. cbn [String.eqb Ascii.eqb Bool.eqb] in Hb.
    injection Hb as <- <- <-. repeat split.
Qed.

(** X20: whatever an iteration sends to the worker is the tool call the
    decision asks for, under the tool name and with the arguments of the
    decision (an empty map for nil), the corrective scroll, or the fallback
    navigation.  The tool name is not checked against the list of known
    tools: any name that is not empty is sent. *)
Theorem iteration_sends_allowed_commands (st st' : State) (inp : StepInput)
    (c : Control) (ev : list Event) :
  loop_body st inp = (c, st', ev) → Forall (allowed_command inp) ev.
Proof.
  destruct (in_decision inp) as [msg|a] eqn:Hd.
  - unfold loop_body. rewrite Hd.
    destruct (is_rate_limit msg); intros [= <- <- <-]; repeat constructor.
  - destruct (Z.lt_ge_cases (repeat_count st a (in_now inp)) 2) as [Hc|Hc].
    + rewrite (loop_body_dispatched st inp a Hd Hc). unfold dispatch.
      destruct (String.eqb (Action a) "finish").
      { intros [= <- <- <-]. repeat (apply Forall_cons; split; [exact I|]).
        apply Forall_forall. intros e He. unfold print_results in He.
        apply elem_of_lookup_imap_1 in He. destruct He as (i & x & -> & _). exact I. }
      destruct (String.eqb (Action a) "ask_user");
        [intros [= <- <- <-]; repeat constructor|].
      destruct (String.eqb_spec (Action a) "tool") as [Ha|Ha];
        [|intros [= <- <- <-]; repeat constructor].
      unfold dispatch_tool.
      destruct (String.eqb_spec (Tool a) "") as [Ht|Ht];
        [intros [= <- <- <-]; repeat constructor|].
      assert (Hsent : allowed_command inp (EvSend (Tool a) (default ∅ (Arguments a)))).
      { left. exists a. repeat split; assumption. }
      destruct (in_send inp) as [err|resp];
        [intros [= <- <- <-]; repeat (apply Forall_cons; split; try exact I);
         [exact Hsent|apply Forall_nil; exact I]|].
      destruct (String.eqb (Status resp) "error");
        [intros [= <- <- <-]; repeat (apply Forall_cons; split; try exact I);
         [exact Hsent|apply Forall_nil; exact I]|].
      destruct (2 <=? _)%Z.
      * intros [= <- <- <-]. repeat (apply Forall_cons; split; try exact I).
        -- exact Hsent.
        -- right; left. reflexivity.
        -- apply Forall_nil. exact I.
      * destruct (post_process _) as [[c0 st0] ev0] eqn:Hp.
        intros [= <- <- <-]. repeat (apply Forall_cons; split; try exact I).
        -- exact Hsent.
        -- apply post_process_commands in Hp.
           eapply Forall_impl; [exact Hp|]. intros e He.
           destruct e; try exact I. right; right. exact He.
    + rewrite (loop_body_tripped st inp a Hd Hc). intros [= <- <- <-].
      repeat constructor.
Qed.

(** X21: the loop protection compares with the empty key a run starts
    with, so a decision whose discriminator is empty counts as a repetition
    at once: at the start of a run the second such decision in a row leaves
    the loop, not the third. *)
Theorem empty_discriminator_trips_on_second (st : State) (i1 i2 : StepInput)
    (a1 a2 : AgentAction) :
  lastAction st = "" → sameActionCount st = 0%Z →
  in_decision i1 = inr a1 → in_decision i2 = inr a2 →
  Action a1 = "" → Action a2 = "" →
  loop_body st i1
  = (Continue, recorded st i1 a1,
     [step_banner st; EvPrintAction a1; EvPrint "Unknown action from LLM: "])
  ∧ sameActionCount (recorded st i1 a1) = 1%Z
  ∧ loop_body (next_step (recorded st i1 a1)) i2
    = (Break, recorded (next_step (recorded st i1 a1)) i2 a2,
       [step_banner (next_step (recorded st i1 a1)); EvPrintAction a2;
        EvPrint repeated_action_line]).
Proof.
  intros Hl Hc D1 D2 A1 A2.
  assert (K : ∀ a now, Action a = "" → action_key a now = "").
  { intros a now Ha. unfold action_key. now rewrite Ha. }
  assert (C1 : repeat_count st a1 (in_now i1) = 1%Z).
  { unfold repeat_count. rewrite K, Hl, Hc by assumption. reflexivity. }
  split; [|split].
  - rewrite (loop_body_dispatched st i1 a1 D1) by lia.
    unfold dispatch. rewrite A1. reflexivity.
  - cbn [recorded set_repeat sameActionCount]. exact C1.
  - apply loop_body_tripped; [exact D2|].
    unfold repeat_count.
    cbn [next_step set_step recorded set_repeat lastAction sameActionCount].
    rewrite !K by assumption. rewrite C1. cbn. lia.
Qed.

End Iteration.

Lemma observation_changes_only_on_success_witness :
  (observation (@loop_body basic_runtime (initial_state "click it")
                  (tool_step "click" 1 (SendResp resp_ok))).1.2 = obs_example
   ∧ lastObsSig (@loop_body basic_runtime (initial_state "click it")
                   (tool_step "click" 1 (SendResp resp_ok))).1.2
     = "https://example.org|Example|hello"
   ∧ stagnantCount (@loop_body basic_runtime (initial_state "click it")
                      (tool_step "click" 1 (SendResp resp_ok))).1.2 = 0%Z)
  ∧ (observation (@loop_body basic_runtime (initial_state "click it")
                    (tool_step "click" 1 (SendResp resp_error))).1.2 = ∅
     ∧ lastObsSig (@loop_body basic_runtime (initial_state "click it")
                     (tool_step "click" 1 (SendResp resp_error))).1.2 = ""
     ∧ stagnantCount (@loop_body basic_runtime (initial_state "click it")
                        (tool_step "click" 1 (SendResp resp_error))).1.2 = 0%Z).
Proof.
  split.
  - apply (proj1 (@observation_changes_only_on_success basic_runtime
                    (initial_state "click it")
                    (@loop_body basic_runtime (initial_state "click it")
                       (tool_step "click" 1 (SendResp resp_ok))).1.2
                    (tool_step "click" 1 (SendResp resp_ok))
                    (@loop_body basic_runtime (initial_state "click it")
                       (tool_step "click" 1 (SendResp resp_ok))).1.1
                    (@loop_body basic_runtime (initial_state "click it")
                       (tool_step "click" 1 (SendResp resp_ok))).2
                    ltac:(vm_compute; reflexivity))
             (tool_action "click") resp_ok).
    repeat split; first [discriminate | vm_compute; reflexivity].
  - apply (proj2 (@observation_changes_only_on_success basic_runtime
                    (initial_state "click it")
                    (@loop_body basic_runtime (initial_state "click it")
                       (tool_step "click" 1 (SendResp resp_error))).1.2
                    (tool_step "click" 1 (SendResp resp_error))
                    (@loop_body basic_runtime (initial_state "click it")
                       (tool_step "click" 1 (SendResp resp_error))).1.1
                    (@loop_body basic_runtime (initial_state "click it")
                       (tool_step "click" 1 (SendResp resp_error))).2
                    ltac:(vm_compute; reflexivity))).
    intros a resp (_ & Hs & Hne). injection Hs as <-. now apply Hne.
Defined.

Lemma task_changes_only_on_ask_user_witness :
  task (@loop_body basic_runtime (initial_state "find jobs") (ask_step "Moscow")).1.2
  = "find jobs" +:+ LF +:+ "User answer: Moscow".
Proof.
  destruct (proj1 (@task_changes_only_on_ask_user basic_runtime
                     (initial_state "find jobs")
                     (@loop_body basic_runtime (initial_state "find jobs")
                        (ask_step "Moscow")).1.2
                     (ask_step "Moscow")
                     (@loop_body basic_runtime (initial_state "find jobs")
                        (ask_step "Moscow")).1.1
                     (@loop_body basic_runtime (initial_state "find jobs")
                        (ask_step "Moscow")).2
                     ltac:(vm_compute; reflexivity)))
    as [H|(a & _ & _ & _ & _ & H & _)].
  - vm_compute in H. discriminate H.
  - rewrite H. reflexivity.
Defined.

Lemma iteration_sends_allowed_commands_witness :
  Forall (allowed_command (tool_step "click" 1 (SendResp resp_ok)))
         (@loop_body basic_runtime (initial_state "click it")
            (tool_step "click" 1 (SendResp resp_ok))).2.
Proof.
  apply (@iteration_sends_allowed_commands basic_runtime
           (initial_state "click it")
           (@loop_body basic_runtime (initial_state "click it")
              (tool_step "click" 1 (SendResp resp_ok))).1.2
           (tool_step "click" 1 (SendResp resp_ok))
           (@loop_body basic_runtime (initial_state "click it")
              (tool_step "click" 1 (SendResp resp_ok))).1.1).
  vm_compute. reflexivity.
Defined.

Lemma empty_discriminator_trips_on_second_witness :
  (@run_loop basic_runtime (initial_state "find jobs")
             [decided_step unknown_action; decided_step unknown_action]).1.1 = Stopped
  ∧ @loop_body basic_runtime
      (next_step (recorded (initial_state "find jobs") (decided_step unknown_action)
                           unknown_action))
      (decided_step unknown_action)
    = (Break,
       recorded (next_step (recorded (initial_state "find jobs")
                                     (decided_step unknown_action) unknown_action))
                (decided_step unknown_action) unknown_action,
       [step_banner (next_step (recorded (initial_state "find jobs")
                                         (decided_step unknown_action) unknown_action));
        EvPrintAction unknown_action; EvPrint repeated_action_line]).
Proof.
  split; [vm_compute; reflexivity|].
  exact (proj2 (proj2 (@empty_discriminator_trips_on_second basic_runtime
                         (initial_state "find jobs")
                         (decided_step unknown_action) (decided_step unknown_action)
                         unknown_action unknown_action
                         eq_refl eq_refl eq_refl eq_refl eq_refl eq_refl))).
Defined.

(** ** Whole runs of the loop *)

Lemma count_fallbacks_cons (e : Event) (ev : list Event) :
  count_fallbacks (e :: ev)
  = ((if is_fallback_line e then 1 else 0) + count_fallbacks ev)%nat.
Proof.
  unfold count_fallbacks. rewrite filter_cons.
  destruct (decide (is_fallback_line e = true)) as [H|H].
  - rewrite H. reflexivity.
  - apply not_true_is_false in H. rewrite H. reflexivity.
Qed.

Lemma count_fallbacks_app (ev1 ev2 : list Event) :
  count_fallbacks (ev1 ++ ev2) = (count_fallbacks ev1 + count_fallbacks ev2)%nat.
Proof. unfold count_fallbacks. now rewrite filter_app, length_app. Qed.

Lemma numbered_line_no_fallback (z : Z) (rest : string) :
  is_fallback_line (EvPrint (itoa z +:+ rest)) = false.
Proof.
  destruct (itoa_first z) as (c & s & -> & Hc).
  unfold is_fallback_line, fallback_line.
  change (String c s +:+ rest) with (String c (s +:+ rest)).
  cbn [String.eqb]. now rewrite Hc.
Qed.

Lemma imap_no_fallback {A} (l : list A) :
  ∀ f : nat → A → Event,
    (∀ i x, is_fallback_line (f i x) = false) → count_fallbacks (imap f l) = 0%nat.
Proof.
  induction l as [|x l IH]; intros f Hf; [reflexivity|].
  rewrite imap_cons, count_fallbacks_cons, Hf. apply IH. intros i y. apply Hf.
Qed.

Lemma print_listings_no_fallback (listings : list Listing) :
  count_fallbacks (print_listings listings) = 0%nat.
Proof. apply imap_no_fallback. intros i x. apply numbered_line_no_fallback. Qed.

Lemma print_results_no_fallback (results : list JobItem) :
  count_fallbacks (print_results results) = 0%nat.
Proof. apply imap_no_fallback. intros i x. apply numbered_line_no_fallback. Qed.

Lemma imap_events {A} (P : Event → Prop) (l : list A) :
  ∀ f : nat → A → Event, (∀ i x, P (f i x)) → Forall P (imap f l).
Proof.
  intros f Hf. apply Forall_forall. intros e He.
  apply elem_of_lookup_imap_1 in He. destruct He as (i & x & -> & _). apply Hf.
Qed.

Section Run.
Context `{rt : GoRuntime}.

(** *** What a run does to the outside *)

Section Events.
Variable P : Event → Prop.
Hypothesis P_print : ∀ line, P (EvPrint line).
Hypothesis P_action : ∀ a, P (EvPrintAction a).
Hypothesis P_waiting : ∀ n, P (EvPrintWaiting n).
Hypothesis P_sleep : ∀ n, P (EvSleep n).
Hypothesis P_answer : P EvReadAnswer.
Hypothesis P_send : ∀ tool args, P (EvSend tool args).

Lemma post_process_events (st st' : State) (c : Control) (ev : list Event) :
  post_process st = (c, st', ev) → Forall P ev.
Proof using P_print P_sleep P_send.
  unfold post_process. intros H.
  repeat case_match; simplify_eq;
    repeat first [ apply Forall_app; split
                 | apply Forall_cons; split
                 | apply Forall_nil
                 | apply imap_events; intros
                 | apply P_print | apply P_sleep | apply P_send
                 | exact I ].
Qed.

Lemma loop_body_events (st st' : State) (inp : StepInput) (c : Control)
    (ev : list Event) :
  loop_body st inp = (c, st', ev) → Forall P ev.
Proof using All.
  unfold loop_body, dispatch, dispatch_tool. intros H.
  repeat case_match; simplify_eq;
    repeat first [ apply Forall_cons; split
                 | apply Forall_nil
                 | apply imap_events; intros
                 | eapply post_process_events; eassumption
                 | apply P_print | apply P_action | apply P_waiting
                 | apply P_sleep | apply P_answer | apply P_send
                 | exact I ].
Qed.

Lemma run_loop_events (inputs : list StepInput) :
  ∀ st o st' ev, run_loop st inputs = (o, st', ev) → Forall P ev.
Proof using All.
  induction inputs as [|inp rest IH]; intros st o st' ev; cbn [run_loop];
    destruct (step st <=? MaxSteps)%Z;
    try (intros [= <- <- <-]; repeat constructor; apply P_print).
  destruct (loop_body st inp) as [[c st1] ev1] eqn:Hb.
  pose proof (loop_body_events _ _ _ _ _ Hb) as H1.
  destruct c.
  - destruct (run_loop _ rest) as [[o2 st2] ev2] eqn:Hr.
    intros [= <- <- <-]. apply Forall_app. split; [exact H1|].
    eapply IH; eassumption.
  - intros [= <- <- <-]. apply Forall_app. split; [exact H1|].
    repeat constructor. apply P_print.
  - intros [= <- <- <-]. exact H1.
  - intros [= <- <- <-]. exact H1.
Qed.

End Events.

(** *** The step budget *)

Lemma run_loop_more (inputs more : list StepInput) :
  ∀ st, (run_loop st inputs).1.1 ≠ Pending →
        run_loop st (inputs ++ more) = run_loop st inputs.
Proof.
  induction inputs as [|inp rest IH]; intros st; cbn [run_loop app].
  - destruct (step st <=? MaxSteps)%Z eqn:Hs.
    + cbn. intros H. now contradiction H.
    + intros _. destruct more; cbn [run_loop]; now rewrite Hs.
  - destruct (step st <=? MaxSteps)%Z; [|reflexivity].
    destruct (loop_body st inp) as [[c st1] ev1]. destruct c; try reflexivity.
    specialize (IH (set_step st1 (step st1 + 1))).
    destruct (run_loop (set_step st1 (step st1 + 1)) rest) as [[o2 st2] ev2].
    cbn in *. intros H. now rewrite (IH H).
Qed.

Lemma run_loop_ends (inputs : list StepInput) :
  ∀ st, Forall not_rate_limited inputs →
        (MaxSteps - step st < Z.of_nat (length inputs))%Z →
        (run_loop st inputs).1.1 ≠ Pending.
Proof.
  induction inputs as [|inp rest IH]; intros st Hall Hlen; cbn [run_loop].
  - destruct (step st <=? MaxSteps)%Z eqn:Hs; [|discriminate].
    apply Z.leb_le in Hs. cbn in Hlen. lia.
  - destruct (step st <=? MaxSteps)%Z eqn:Hs; [|discriminate].
    apply Forall_cons in Hall. destruct Hall as [Hinp Hrest].
    destruct (loop_body st inp) as [[c st1] ev1] eqn:Hb.
    destruct c; try discriminate.
    destruct (loop_body_step _ _ _ _ _ Hb) as [(msg & Hd & Hr & _)|[_ Hstep]].
    { rewrite (Hinp msg Hd) in Hr. discriminate Hr. }
    specialize (IH (set_step st1 (step st1 + 1)) Hrest).
    destruct (run_loop (set_step st1 (step st1 + 1)) rest) as [[o2 st2] ev2].
    cbn in *. apply IH. rewrite Hstep. lia.
Qed.

(** X22: the step budget bounds a run in which the decision service is never
    rate-limited: with as many answers as steps are left, the run ends (the
    loop is left, func main returns, or it panics), and answers beyond
    those are never asked for.  From the start of a run that is 15
    iterations. *)
Theorem step_budget_bounds_run (st : State) (inputs more : list StepInput) :
  Forall not_rate_limited inputs →
  (MaxSteps - step st < Z.of_nat (length inputs))%Z →
  (run_loop st inputs).1.1 ≠ Pending
  ∧ run_loop st (inputs ++ more) = run_loop st inputs.
Proof.
  intros Hall Hlen. pose proof (run_loop_ends inputs st Hall Hlen) as H.
  split; [exact H|]. now apply run_loop_more.
Qed.

(** X23: rate-limited failures of the decision service are outside the step
    budget: any number of them in a row, at any step within the budget,
    leaves the variables of the loop as they were; each prints the banner
    of the same step and waits, and the run goes on as if they had not
    happened.  So the loop has no bound on its iterations. *)
Theorem rate_limit_outside_budget (st : State) (failures : list StepInput)
    (msgs : list string) (rest : list StepInput) :
  Forall2 (fun inp msg => in_decision inp = inl msg ∧ is_rate_limit msg = true)
          failures msgs →
  (step st <= MaxSteps)%Z →
  run_loop st (failures ++ rest)
  = let '(o, st', ev) := run_loop st rest in
    (o, st', (concat (map (retry_events st) msgs) ++ ev)%list).
Proof.
  intros Hall Hstep. induction Hall as [|inp msg failures msgs [Hd Hr] _ IH].
  - cbn [app map concat]. now destruct (run_loop st rest) as [[o st'] ev].
  - cbn [app run_loop]. apply Z.leb_le in Hstep. rewrite Hstep.
    unfold loop_body. rewrite Hd, Hr.
    change (set_step (set_step st (step st - 1))
                     (step (set_step st (step st - 1)) + 1))
      with (next_step (set_step st (step st - 1))).
    rewrite set_step_back, IH.
    destruct (run_loop st rest) as [[o st'] ev]. reflexivity.
Qed.

(** *** The fallback navigation *)

Ltac fallback_count :=
  rewrite ?count_fallbacks_app, ?count_fallbacks_cons, ?count_fallbacks_app,
          ?print_listings_no_fallback, ?print_results_no_fallback;
  cbn in *;
  try congruence;
  try match goal with
      | H : negb (switchedToMoscow ?s) && _ = true,
        H' : switchedToMoscow ?s = true |- _ => rewrite H' in H; discriminate H
      end;
  repeat match goal with
         | |- context [String.eqb ?a fallback_line] =>
           let b := eval vm_compute in (String.eqb a fallback_line) in
           change (String.eqb a fallback_line) with b
         end;
  cbv iota; try lia.

Lemma post_process_fallback (st st' : State) (c : Control) (ev : list Event) :
  post_process st = (c, st', ev) →
  (count_fallbacks ev + (if switchedToMoscow st' then 0 else 1)
   ≤ (if switchedToMoscow st then 0 else 1))%nat.
Proof.
  unfold post_process. intros H.
  repeat case_match; simplify_eq; fallback_count.
Qed.

Lemma loop_body_fallback (st st' : State) (inp : StepInput) (c : Control)
    (ev : list Event) :
  loop_body st inp = (c, st', ev) →
  (count_fallbacks ev + (if switchedToMoscow st' then 0 else 1)
   ≤ (if switchedToMoscow st then 0 else 1))%nat.
Proof.
  assert (Hb : is_fallback_line (step_banner st) = false) by reflexivity.
  assert (H1 : ∀ s, is_fallback_line (EvPrint ("✅ DONE: " +:+ s)) = false)
    by reflexivity.
  assert (H2 : ∀ s, is_fallback_line (EvPrint ("LLM error: " +:+ s)) = false)
    by reflexivity.
  assert (H3 : ∀ s, is_fallback_line (EvPrint ("? " +:+ s)) = false)
    by reflexivity.
  assert (H4 : ∀ s, is_fallback_line (EvPrint ("Unknown action from LLM: " +:+ s)) = false)
    by reflexivity.
  assert (H5 : ∀ s, is_fallback_line (EvPrint ("Worker send error: " +:+ s)) = false)
    by reflexivity.
  assert (H6 : ∀ s, is_fallback_line (EvPrint ("Worker error: " +:+ s)) = false)
    by reflexivity.
  destruct (in_decision inp) as [msg|a] eqn:Hd.
  - unfold loop_body. rewrite Hd. fold (step_banner st).
    destruct (is_rate_limit msg); intros [= <- <- <-];
      rewrite !count_fallbacks_cons, Hb, ?H2; cbn; lia.
  - destruct (Z.lt_ge_cases (repeat_count st a (in_now inp)) 2) as [Hc|Hc].
    + rewrite (loop_body_dispatched st inp a Hd Hc).
      change (switchedToMoscow st) with (switchedToMoscow (recorded st inp a)).
      generalize (recorded st inp a). intros st0.
      unfold dispatch, dispatch_tool.
      destruct (String.eqb (Action a) "finish").
      { intros [= <- <- <-].
        rewrite !count_fallbacks_cons, print_results_no_fallback, Hb, H1. cbn. lia. }
      destruct (String.eqb (Action a) "ask_user").
      { intros [= <- <- <-]. rewrite !count_fallbacks_cons, Hb, H3. cbn. lia. }
      destruct (String.eqb (Action a) "tool").
      2:{ intros [= <- <- <-]. rewrite !count_fallbacks_cons, Hb, H4. cbn. lia. }
      destruct (String.eqb (Tool a) "").
      { intros [= <- <- <-]. rewrite !count_fallbacks_cons, Hb. cbn. lia. }
      destruct (in_send inp) as [err|resp].
      { intros [= <- <- <-]. rewrite !count_fallbacks_cons, Hb, H5. cbn. lia. }
      destruct (String.eqb (Status resp) "error").
      { intros [= <- <- <-]. rewrite !count_fallbacks_cons, Hb, H6. cbn. lia. }
      destruct (2 <=? _)%Z.
      { intros [= <- <- <-]. rewrite !count_fallbacks_cons, Hb. cbn. lia. }
      destruct (post_process _) as [[c0 st1] ev0] eqn:Hpp.
      intros [= <- <- <-]. apply post_process_fallback in Hpp. cbn in Hpp.
      rewrite !count_fallbacks_cons, Hb. cbn. lia.
    + rewrite (loop_body_tripped st inp a Hd Hc). intros [= <- <- <-].
      rewrite !count_fallbacks_cons, Hb. cbn. lia.
Qed.

Lemma run_loop_fallback (inputs : list StepInput) :
  ∀ st o st' ev,
    run_loop st inputs = (o, st', ev) →
    (count_fallbacks ev + (if switchedToMoscow st' then 0 else 1)
     ≤ (if switchedToMoscow st then 0 else 1))%nat.
Proof.
  assert (Hstop : count_fallbacks [EvPrint "⚠️ Stopped: max steps reached or agent halted."]
                  = 0%nat) by reflexivity.
  induction inputs as [|inp rest IH]; intros st o st' ev; cbn [run_loop];
    (destruct (step st <=? MaxSteps)%Z;
     [|intros [= <- <- <-]; rewrite Hstop; lia]).
  - intros [= <- <- <-]. change (count_fallbacks []) with 0%nat. lia.
  - destruct (loop_body st inp) as [[c st1] ev1] eqn:Hb.
    apply loop_body_fallback in Hb.
    destruct c.
    + destruct (run_loop _ rest) as [[o2 st2] ev2] eqn:Hr.
      intros [= <- <- <-]. apply IH in Hr. cbn in Hr.
      rewrite count_fallbacks_app. lia.
    + intros [= <- <- <-]. rewrite count_fallbacks_app, Hstop. lia.
    + intros [= <- <- <-]. lia.
    + intros [= <- <- <-]. lia.
Qed.

(** X24: in a run, however long and whatever the pages say, the notice of
    the fallback to the Moscow search is printed at most once, and not at
    all once the switch has been made; once made, the switch stays made. *)
Theorem fallback_at_most_once (st st' : State) (inputs : list StepInput)
    (o : Outcome) (ev : list Event) :
  run_loop st inputs = (o, st', ev) →
  (count_fallbacks ev ≤ 1)%nat
  ∧ (switchedToMoscow st = true →
     count_fallbacks ev = 0%nat ∧ switchedToMoscow st' = true)
  ∧ (count_fallbacks ev = 1%nat → switchedToMoscow st' = true).
Proof.
  intros H. apply run_loop_fallback in H.
  destruct (switchedToMoscow st), (switchedToMoscow st'); repeat split;
    intros; try lia; try discriminate.
Qed.

(** X25: once the worker has started, every run of func main that ends,
    with a return, by leaving the loop or by a panic inside the loop, has
    the same frame: the process is started, the task is read, and at the
    very end the exit command is sent and the process is killed.  In
    between no process is started and none is killed. *)
Theorem main_frames_the_run (start : StartInput) (task_line : string)
    (inputs : list StepInput) (o : Outcome) (ev : list Event) :
  (StartPyWorker start).1 = None →
  main start task_line inputs = (o, ev) → o ≠ Pending →
  ∃ mid,
    ev = ([EvSpawn; EvPrint "✅ Python worker started";
           EvPrint "Enter task: "; EvReadTask] ++ mid ++ [EvSend "exit" ∅; EvKill])%list
    ∧ Forall (fun e => e ≠ EvSpawn ∧ e ≠ EvKill ∧ e ≠ EvReadTask) mid.
Proof.
  intros Hs Hm Ho. unfold main in Hm.
  assert (Hstart : StartPyWorker start
                   = (None, [EvSpawn; EvPrint "✅ Python worker started"])).
  { revert Hs. unfold StartPyWorker. repeat case_match; cbn; congruence. }
  rewrite Hstart in Hm.
  destruct (run_loop (initial_state task_line) inputs) as [[o1 st1] ev1] eqn:Hr.
  exists ev1. split.
  - destruct o1; injection Hm as <- <-; try reflexivity. now contradiction Ho.
  - eapply (run_loop_events (fun e => e ≠ EvSpawn ∧ e ≠ EvKill ∧ e ≠ EvReadTask));
      [..|exact Hr]; intros; repeat split; discriminate.
Qed.

End Run.

Lemma step_budget_bounds_run_witness :
  (@run_loop basic_runtime (initial_state "find jobs") fifteen_steps).1.1 ≠ Pending
  ∧ @run_loop basic_runtime (initial_state "find jobs")
      (fifteen_steps ++ [ask_step "Kazan"])
    = @run_loop basic_runtime (initial_state "find jobs") fifteen_steps.
Proof.
  apply (@step_budget_bounds_run basic_runtime (initial_state "find jobs")
           fifteen_steps [ask_step "Kazan"]).
  - repeat constructor; intros msg H; discriminate H.
  - vm_compute. reflexivity.
Defined.

Lemma rate_limit_outside_budget_witness :
  @run_loop basic_runtime (initial_state "find jobs")
    ([error_step "Quota exceeded"; error_step "RESOURCE_EXHAUSTED"]
     ++ [decided_step bare_finish])
  = let '(o, st', ev) := @run_loop basic_runtime (initial_state "find jobs")
                           [decided_step bare_finish] in
    (o, st',
     (concat (map (@retry_events basic_runtime (initial_state "find jobs"))
                  ["Quota exceeded"; "RESOURCE_EXHAUSTED"]) ++ ev)%list).
Proof.
  apply (@rate_limit_outside_budget basic_runtime (initial_state "find jobs")
           [error_step "Quota exceeded"; error_step "RESOURCE_EXHAUSTED"]
           ["Quota exceeded"; "RESOURCE_EXHAUSTED"] [decided_step bare_finish]).
  - repeat constructor.
  - vm_compute. discriminate.
Defined.

Lemma fallback_at_most_once_witness :
  (count_fallbacks
     (@run_loop basic_runtime (initial_state "find jobs") two_empty_pages).2 ≤ 1)%nat.
Proof.
  exact (proj1 (@fallback_at_most_once basic_runtime (initial_state "find jobs")
                  (@run_loop basic_runtime (initial_state "find jobs") two_empty_pages).1.2
                  two_empty_pages
                  (@run_loop basic_runtime (initial_state "find jobs") two_empty_pages).1.1
                  (@run_loop basic_runtime (initial_state "find jobs") two_empty_pages).2
                  ltac:(vm_compute; reflexivity))).
Defined.

Lemma main_frames_the_run_witness :
  ∃ mid,
    (@main basic_runtime start_ok "find jobs" [decided_step bare_finish]).2
    = ([EvSpawn; EvPrint "✅ Python worker started";
        EvPrint "Enter task: "; EvReadTask] ++ mid ++ [EvSend "exit" ∅; EvKill])%list
    ∧ Forall (fun e => e ≠ EvSpawn ∧ e ≠ EvKill ∧ e ≠ EvReadTask) mid.
Proof.
  apply (@main_frames_the_run basic_runtime start_ok "find jobs"
           [decided_step bare_finish]
           (@main basic_runtime start_ok "find jobs" [decided_step bare_finish]).1).
  - vm_compute. reflexivity.
  - vm_compute. reflexivity.
  - vm_compute. discriminate.
Defined.

(** A run of fifteen decisions that all continue is ended by the budget:
    the loop is left with the step index at 16. *)
Example budget_ends_the_run :
  (@run_loop basic_runtime (initial_state "find jobs") fifteen_steps).1.1 = Stopped
  ∧ step (@run_loop basic_runtime (initial_state "find jobs") fifteen_steps).1.2 = 16%Z
  ∧ task (@run_loop basic_runtime (initial_state "find jobs") [ask_step "Moscow"]).1.2
    = "find jobs" +:+ LF +:+ "User answer: Moscow".
Proof. repeat split; vm_compute; reflexivity. Qed.

(** The notice is printed once when two pages in a row report no results. *)
Example fallback_once_on_two_empty_pages :
  count_fallbacks
    (@run_loop basic_runtime (initial_state "find jobs") two_empty_pages).2 = 1%nat
  ∧ count_sends "navigate"
      (@run_loop basic_runtime (initial_state "find jobs") two_empty_pages).2 = 1%nat.
Proof. split; vm_compute; reflexivity. Qed.

(** ** The waiting time *)

(** X26: for a retry hint between minus two seconds and 9223372034
    seconds the waiting time is the hinted seconds plus two, counted in
    nanoseconds, without wrap-around, so it is never negative. *)
Theorem retry_wait_in_range `{rt : GoRuntime} (msg tail : string) (seconds : Z) :
  (0 <= strings.Index msg "Please retry in ")%Z →
  strings.slice_from msg (strings.Index msg "Please retry in " + 16) = Some tail →
  (0 < strings.Index tail "s")%Z →
  strconv_ParseFloat_int
    (strings.TrimSpace (strings.slice_to tail (strings.Index tail "s")))
  = Some seconds →
  (-2 <= seconds <= 9223372034)%Z →
  retry_wait msg = ((seconds + 2) * Second)%Z ∧ (0 <= retry_wait msg)%Z.
Proof.
  intros Hi Ht Hs Hp Hr.
  assert (Hw : retry_wait msg = wrap64 (wrap64 (seconds + 2) * Second)).
  { unfold retry_wait. apply Z.leb_le in Hi. rewrite Hi.
    change (strings.len "Please retry in ") with 16%Z. rewrite Ht.
    apply Z.ltb_lt in Hs. now rewrite Hs, Hp. }
  assert (Hsmall : ∀ z, (- 2 ^ 63 <= z < 2 ^ 63)%Z → wrap64 z = z).
  { intros z Hz. unfold wrap64.
    rewrite Z.mod_small by lia. lia. }
  rewrite Hw. unfold Second in *.
  rewrite (Hsmall (seconds + 2)%Z) by lia.
  rewrite Hsmall by lia. lia.
Qed.

Lemma retry_wait_in_range_witness :
  @retry_wait basic_runtime quota_message = (58 * Second)%Z
  ∧ (0 <= @retry_wait basic_runtime quota_message)%Z.
Proof.
  apply (@retry_wait_in_range basic_runtime quota_message "56.25s. (RESOURCE_EXHAUSTED)" 56).
  - vm_compute. discriminate.
  - vm_compute. reflexivity.
  - vm_compute. reflexivity.
  - vm_compute. reflexivity.
  - lia.
Defined.
